(** * screen_basic.c: bit-banged I2C bring-up of an SSD1315 OLED panel

    A shallow embedding of the firmware in [screen_basic.c].  The firmware
    keeps no data of its own: all state lives in the memory-mapped
    peripheral registers of the MSP430.  Each C function becomes a
    computation in a small monad that threads the register file, consumes
    the values the input register P2IN shows on successive volatile reads,
    and records every store, every sample and every busy-wait in a trace. *)

From Equations Require Import Equations.
From Stdlib Require Import ZArith List Bool Lia.
Import ListNotations.
Local Open Scope Z_scope.

(** ** Machine integers *)

Definition wrap8 (z : Z) : Z := z mod 2 ^ 8.
Definition wrap16 (z : Z) : Z := z mod 2 ^ 16.

(** C's truth test of an integer, and its logical negation [!e]. *)
Definition truthy (z : Z) : bool := negb (z =? 0).
Definition lognot (z : Z) : Z := if truthy z then 0 else 1.

(** ** Peripheral registers *)

Inductive reg : Set :=
| P2OUT | P2DIR | P2REN
| P3OUT | P3DIR
| PM5CTL0 | WDTCTL
| CSCTL0_H | CSCTL1 | CSCTL2 | CSCTL3.

Definition reg_eqb (a b : reg) : bool :=
  match a, b with
  | P2OUT, P2OUT | P2DIR, P2DIR | P2REN, P2REN
  | P3OUT, P3OUT | P3DIR, P3DIR
  | PM5CTL0, PM5CTL0 | WDTCTL, WDTCTL
  | CSCTL0_H, CSCTL0_H | CSCTL1, CSCTL1 | CSCTL2, CSCTL2 | CSCTL3, CSCTL3 => true
  | _, _ => false
  end.

(** Width in bits of each register: the port registers and the high byte
    of CSCTL0 are byte registers, the others are word registers. *)
Definition width (r : reg) : Z :=
  match r with
  | PM5CTL0 | WDTCTL | CSCTL1 | CSCTL2 | CSCTL3 => 16
  | _ => 8
  end.

Definition regfile := reg -> Z.

Definition upd (f : regfile) (r : reg) (v : Z) : regfile :=
  fun r' => if reg_eqb r r' then v else f r'.

(** ** Observable events *)

Inductive event : Set :=
| EvWrite (r : reg) (v : Z)   (* a store to a peripheral register *)
| EvSample (v : Z)            (* a volatile load of P2IN that returned [v] *)
| EvCycles (n : Z).           (* the intrinsic __delay_cycles(n) *)

(** ** The machine and its monad *)

Record machine : Type := Machine {
  regs  : regfile;        (* current register contents *)
  p2in  : nat -> Z;       (* what P2IN shows on its k-th volatile read *)
  reads : nat             (* number of volatile reads of P2IN so far *)
}.

Record run (A : Type) : Type := Run {
  value : A;
  final : machine;
  trace : list event
}.
Arguments Run {A} _ _ _.
Arguments value {A} _.
Arguments final {A} _.
Arguments trace {A} _.

Definition M (A : Type) : Type := machine -> run A.

Definition ret {A} (a : A) : M A := fun m => Run a m [].

Definition bind {A B} (c : M A) (k : A -> M B) : M B :=
  fun m =>
    let r1 := c m in
    let r2 := k (value r1) (final r1) in
    Run (value r2) (final r2) (trace r1 ++ trace r2).

Declare Scope fw_scope.
Delimit Scope fw_scope with fw.
Notation "x <- c ;; k" := (bind c (fun x => k))
  (at level 61, c at next level, right associativity) : fw_scope.
Notation "c ;; k" := (bind c (fun _ => k))
  (at level 61, right associativity) : fw_scope.
Local Open Scope fw_scope.

Definition load (r : reg) : M Z := fun m => Run (regs m r) m [].

Definition store (r : reg) (v : Z) : M unit := fun m =>
  let v' := v mod 2 ^ width r in
  Run tt (Machine (upd (regs m) r v') (p2in m) (reads m)) [EvWrite r v'].

Definition load_P2IN : M Z := fun m =>
  let v := p2in m (reads m) in
  Run v (Machine (regs m) (p2in m) (S (reads m))) [EvSample v].

Definition __delay_cycles (n : Z) : M unit := fun m => Run tt m [EvCycles n].

(** [r &= v] and [r |= v]: read-modify-write of a register. *)
Definition and_assign (r : reg) (v : Z) : M unit :=
  x <- load r ;; store r (Z.land x v).

Definition or_assign (r : reg) (v : Z) : M unit :=
  x <- load r ;; store r (Z.lor x v).

(** ** Constants of the vendor header *)

(** Modelled from the spec: the bit masks BIT0..BIT4 come from the vendor
    header msp430.h, which is not part of the repository.  The pin table
    (SCL on P2.1, SDA on P2.2, RES on P2.0, LED on P3.4) and the comments
    next to the pin mapping in the source fix BITn as the mask of bit n. *)
Definition BIT0 : Z := 0x01.
Definition BIT1 : Z := 0x02.
Definition BIT2 : Z := 0x04.
Definition BIT4 : Z := 0x10.

(** The remaining header constants are only stored into the watchdog, clock
    and power-management registers; they are taken as parameters. *)
Record msp430_header : Type := Header {
  PM5CTL0_defined : bool;   (* whether the device header defines PM5CTL0 *)
  LOCKLPM5 : Z;
  WDTPW : Z; WDTHOLD : Z;
  CSKEY_H : Z; DCOFSEL_0 : Z;
  SELA__VLOCLK : Z; SELS__DCOCLK : Z; SELM__DCOCLK : Z;
  DIVA__1 : Z; DIVS__1 : Z; DIVM__1 : Z
}.

(** ** Pin mapping and configuration *)

Definition OLED_SCL_BIT : Z := BIT1.
Definition OLED_SDA_BIT : Z := BIT2.
Definition OLED_RES_BIT : Z := BIT0.

Definition OLED_PORT_DIR : reg := P2DIR.
Definition OLED_PORT_OUT : reg := P2OUT.
Definition OLED_PORT_REN : reg := P2REN.

Definition USE_INTERNAL_PULLUPS : bool := false.
Definition SSD1315_ADDR_WRITE : Z := 0x78.
Definition OLED_CTRL_CMD : Z := 0x00.
Definition OLED_CTRL_DATA : Z := 0x40.
Definition USE_CHARGE_PUMP : bool := false.

(** ** Delay helpers *)

(** The loop [while (n--) body] on a [uint16_t] counter: the counter is
    tested, decremented modulo 2^16, and the body runs if the tested value
    was not zero. *)
Equations? while_postdec (n : Z) (body : M unit) (m : machine) : run unit
  by wf (Z.to_nat (wrap16 n)) lt :=
  while_postdec n body m with Z.eq_dec (wrap16 n) 0 => {
    | left _ => Run tt m [];
    | right _ =>
        let r1 := body m in
        let r2 := while_postdec (wrap16 (n - 1)) body (final r1) in
        Run tt (final r2) (trace r1 ++ trace r2) }.
Proof.
  clear while_postdec.
  unfold wrap16 in *.
  pose proof (Z.mod_pos_bound n (2 ^ 16) ltac:(lia)) as Hb.
  rewrite Z.mod_mod by lia.
  rewrite Zminus_mod, (Z.mod_small 1) by lia.
  rewrite Z.mod_small; lia.
Qed.

Definition delay_cycles_const (nBlocks : Z) : M unit :=
  while_postdec nBlocks (__delay_cycles 1000).

Definition delay_ms (ms : Z) : M unit :=
  while_postdec ms (delay_cycles_const 5).

Definition delay_s (s : Z) : M unit :=
  while_postdec s (delay_ms 1000).

Definition delay_short : M unit := __delay_cycles 100.

(** ** Open-drain helpers *)

Definition SCL_low : M unit :=
  and_assign OLED_PORT_OUT (Z.lnot OLED_SCL_BIT) ;;
  or_assign OLED_PORT_DIR OLED_SCL_BIT.

Definition SCL_release : M unit :=
  and_assign OLED_PORT_DIR (Z.lnot OLED_SCL_BIT).

Definition SDA_low : M unit :=
  and_assign OLED_PORT_OUT (Z.lnot OLED_SDA_BIT) ;;
  or_assign OLED_PORT_DIR OLED_SDA_BIT.

Definition SDA_release : M unit :=
  and_assign OLED_PORT_DIR (Z.lnot OLED_SDA_BIT).

Definition SDA_read : M Z :=
  x <- load_P2IN ;;
  ret (if truthy (Z.land x OLED_SDA_BIT) then 1 else 0).

(** ** I2C bit-bang *)

Definition i2c_idle : M unit :=
  SDA_release ;; SCL_release ;; delay_short.

Definition i2c_start : M unit :=
  SDA_release ;; SCL_release ;; delay_short ;;
  SDA_low ;; delay_short ;;
  SCL_low ;; delay_short.

Definition i2c_stop : M unit :=
  SDA_low ;; delay_short ;;
  SCL_release ;; delay_short ;;
  SDA_release ;; delay_short.

(** The parameter [bit] is a [uint8_t]: the definition is the source's for
    [bit] in 0..255, which covers every call the firmware makes. *)
Definition i2c_write_bit (bit : Z) : M unit :=
  (if truthy bit then SDA_release else SDA_low) ;;
  delay_short ;;
  SCL_release ;; delay_short ;;
  SCL_low ;; delay_short.

Definition i2c_read_ack : M Z :=
  SDA_release ;; delay_short ;;
  SCL_release ;; delay_short ;;
  x <- SDA_read ;;
  let ack := Z.b2z (x =? 0) in
  SCL_low ;; delay_short ;;
  ret ack.

(** The loop [for (; i < 8; i++) { i2c_write_bit((b & 0x80) != 0); b <<= 1; }]
    of [i2c_write_byte], on the [uint8_t] variables [i] and [b]. *)
Definition iterations_left (i : Z) : nat := Z.to_nat (8 - i).

Equations? i2c_write_byte_loop (i b : Z) (m : machine) : run unit
  by wf (iterations_left i) lt :=
  i2c_write_byte_loop i b m with Z_lt_dec i 8 => {
    | left _ =>
        let r1 := i2c_write_bit (Z.b2z (negb (Z.land b 0x80 =? 0))) m in
        let r2 := i2c_write_byte_loop (wrap8 (i + 1)) (wrap8 (Z.shiftl b 1))
                    (final r1) in
        Run tt (final r2) (trace r1 ++ trace r2);
    | right _ => Run tt m [] }.
Proof.
  clear i2c_write_byte_loop.
  unfold iterations_left, wrap8.
  pose proof (Z.mod_pos_bound (i + 1) (2 ^ 8) ltac:(lia)) as Hb.
  destruct (Z_lt_dec i 0) as [Hneg|Hpos].
  - generalize dependent ((i + 1) mod 2 ^ 8). intros; lia.
  - rewrite Z.mod_small by lia. lia.
Qed.

Definition i2c_write_byte (b : Z) : M Z :=
  i2c_write_byte_loop 0 b ;;
  i2c_read_ack.

(** ** OLED primitives *)

Section Firmware.

Variable H : msp430_header.

Definition oled_gpio_init : M unit :=
  (if PM5CTL0_defined H
   then and_assign PM5CTL0 (Z.lnot (LOCKLPM5 H))
   else ret tt) ;;
  and_assign OLED_PORT_OUT
    (Z.lnot (Z.lor (Z.lor OLED_SCL_BIT OLED_SDA_BIT) OLED_RES_BIT)) ;;
  or_assign OLED_PORT_DIR OLED_RES_BIT ;;
  (if USE_INTERNAL_PULLUPS
   then or_assign OLED_PORT_REN (Z.lor OLED_SCL_BIT OLED_SDA_BIT) ;;
        or_assign OLED_PORT_OUT (Z.lor OLED_SCL_BIT OLED_SDA_BIT)
   else and_assign OLED_PORT_REN (Z.lnot (Z.lor OLED_SCL_BIT OLED_SDA_BIT))) ;;
  or_assign OLED_PORT_OUT OLED_RES_BIT ;;
  i2c_idle.

Definition oled_reset_pulse : M unit :=
  and_assign OLED_PORT_OUT (Z.lnot OLED_RES_BIT) ;;
  delay_ms 50 ;;
  or_assign OLED_PORT_OUT OLED_RES_BIT ;;
  delay_ms 50.

Definition oled_write (control data : Z) : M Z :=
  i2c_start ;;
  ok <- i2c_write_byte SSD1315_ADDR_WRITE ;;
  if truthy (lognot ok) then i2c_stop ;; ret 0 else
  ok <- i2c_write_byte control ;;
  if truthy (lognot ok) then i2c_stop ;; ret 0 else
  ok <- i2c_write_byte data ;;
  (if truthy ok
   then or_assign P3OUT BIT4
   else and_assign P3OUT (lognot BIT4)) ;;
  i2c_stop ;;
  ret ok.

Definition oled_cmd (cmd : Z) : M Z :=
  oled_write OLED_CTRL_CMD cmd.

Definition oled_init_minimal : M unit :=
  (if USE_CHARGE_PUMP
   then oled_cmd 0x8D ;; oled_cmd 0x14 ;; delay_ms 100
   else delay_s 8) ;;
  oled_cmd 0xAF ;;
  delay_ms 150.

(** ** Clock setup *)

Definition clock_init_dco_default : M unit :=
  store CSCTL0_H (CSKEY_H H) ;;
  store CSCTL1 (DCOFSEL_0 H) ;;
  store CSCTL2 (Z.lor (Z.lor (SELA__VLOCLK H) (SELS__DCOCLK H)) (SELM__DCOCLK H)) ;;
  store CSCTL3 (Z.lor (Z.lor (DIVA__1 H) (DIVS__1 H)) (DIVM__1 H)) ;;
  store CSCTL0_H 0.

(** ** Entry point *)

(** The statements of [main] that precede its final loop. *)
Definition main_bringup : M unit :=
  store WDTCTL (Z.lor (WDTPW H) (WDTHOLD H)) ;;
  or_assign P3DIR BIT4 ;;
  and_assign P3OUT (lognot BIT4) ;;
  clock_init_dco_default ;;
  oled_gpio_init ;;
  delay_ms 200 ;;
  oled_reset_pulse ;;
  oled_init_minimal ;;
  oled_cmd 0xA5 ;;
  ret tt.

(** [k] iterations of the final [while (1) { }], whose body is empty. *)
Fixpoint main_idle (k : nat) : M unit :=
  match k with
  | O => ret tt
  | S k' => ret tt ;; main_idle k'
  end.

(** [main] observed after [k] iterations of its final loop. *)
Definition main (k : nat) : M unit :=
  main_bringup ;; main_idle k.

End Firmware.

(** The statements of [main] up to and including the call of
    [oled_gpio_init], and up to and including the call of
    [oled_reset_pulse]. *)
Definition main_to_gpio_init (H : msp430_header) : M unit :=
  store WDTCTL (Z.lor (WDTPW H) (WDTHOLD H)) ;;
  or_assign P3DIR BIT4 ;;
  and_assign P3OUT (lognot BIT4) ;;
  clock_init_dco_default H ;;
  oled_gpio_init H.

Definition main_to_reset (H : msp430_header) : M unit :=
  main_to_gpio_init H ;;
  delay_ms 200 ;;
  oled_reset_pulse.

(** The statements of [main] that follow the call of [oled_reset_pulse],
    with [k] iterations of the final loop. *)
Definition main_after_reset (k : nat) : M unit :=
  oled_init_minimal ;;
  oled_cmd 0xA5 ;;
  ret tt ;;
  main_idle k.

(** * Observing an execution *)

(** ** Register contents along a trace *)

Definition apply_event (r : regfile) (e : event) : regfile :=
  match e with
  | EvWrite x v => upd r x v
  | _ => r
  end.

Definition replay (r : regfile) (t : list event) : regfile :=
  fold_left apply_event t r.

(** [throughout I r t]: [I] holds of the register file at every point of
    the trace [t] started from [r], the start and the end included. *)
Fixpoint throughout (I : regfile -> Prop) (r : regfile) (t : list event) : Prop :=
  I r /\
  match t with
  | [] => True
  | e :: t' => throughout I (apply_event r e) t'
  end.

(** ** Pin levels *)

Inductive level : Set := Released | DrivenLow | DrivenHigh.

(** Bit numbers of the three pins on port 2 (the masks are BIT1, BIT2, BIT0). *)
Definition SCL : Z := 1.
Definition SDA : Z := 2.
Definition RES : Z := 0.
(** Bit number of the status LED on port 3 (the mask is BIT4). *)
Definition LED : Z := 4.

Definition pin (r : regfile) (n : Z) : level :=
  if Z.testbit (r P2DIR) n
  then if Z.testbit (r P2OUT) n then DrivenHigh else DrivenLow
  else Released.

Definition level_eqb (a b : level) : bool :=
  match a, b with
  | Released, Released | DrivenLow, DrivenLow | DrivenHigh, DrivenHigh => true
  | _, _ => false
  end.

(** Both bus lines are configured as inputs. *)
Definition bus_released (r : regfile) : Prop :=
  pin r SCL = Released /\ pin r SDA = Released.

(** Neither bus line is an output with its output bit set. *)
Definition never_driven_high (r : regfile) : Prop :=
  pin r SCL <> DrivenHigh /\ pin r SDA <> DrivenHigh.

(** RES is a push-pull output at logic high, respectively low. *)
Definition res_high (r : regfile) : Prop := pin r RES = DrivenHigh.
Definition res_low (r : regfile) : Prop := pin r RES = DrivenLow.

(** ** The waveform of the two bus lines *)

Inductive wave_item : Set :=
| Lines (scl sda : level)   (* a line changed; the new levels *)
| Gap (cycles : Z).         (* a busy-wait *)

Fixpoint wave (r : regfile) (t : list event) : list wave_item :=
  match t with
  | [] => []
  | EvCycles n :: t' => Gap n :: wave r t'
  | e :: t' =>
      let r' := apply_event r e in
      if level_eqb (pin r SCL) (pin r' SCL) && level_eqb (pin r SDA) (pin r' SDA)
      then wave r' t'
      else Lines (pin r' SCL) (pin r' SDA) :: wave r' t'
  end.

(** ** An I2C analyser on the master's side of the bus *)

(** A line is high on the wire unless it is driven low: a released line is
    pulled up externally. *)
Definition high (l : level) : bool :=
  match l with DrivenLow => false | _ => true end.

Inductive symbol : Set :=
| SymStart            (* SDA falls while SCL stays high *)
| SymStop             (* SDA rises while SCL stays high *)
| SymBit (b : bool).  (* one clock pulse; the level of SDA during it *)

(** The analyser's state: the register file, which gives the levels of the
    two lines, and a latch holding the level of SDA during the current
    clock pulse.  The latch is taken at the rising edge of SCL, replaced by
    what the master samples from the wire while SCL is high, and given out
    at the falling edge. *)
Definition probe : Type := (regfile * option bool)%type.

Definition decode_step (s : probe) (e : event) : probe * list symbol :=
  let '(r, latch) := s in
  match e with
  | EvCycles _ => (s, [])
  | EvSample v =>
      ((r, if high (pin r SCL) then Some (Z.testbit v SDA) else latch), [])
  | EvWrite x v =>
      let r' := upd r x v in
      let scl := high (pin r SCL) in
      let scl' := high (pin r' SCL) in
      let sda := high (pin r SDA) in
      let sda' := high (pin r' SDA) in
      if scl && scl' then
        if sda && negb sda' then ((r', None), [SymStart])
        else if negb sda && sda' then ((r', None), [SymStop])
        else ((r', latch), [])
      else if negb scl && scl' then ((r', Some sda'), [])
      else if scl && negb scl' then
        match latch with
        | Some b => ((r', None), [SymBit b])
        | None => ((r', None), [])
        end
      else ((r', latch), [])
  end.

Fixpoint decode (s : probe) (t : list event) : list symbol :=
  match t with
  | [] => []
  | e :: t' => snd (decode_step s e) ++ decode (fst (decode_step s e)) t'
  end.

Definition probe_after (s : probe) (t : list event) : probe :=
  fold_left (fun s e => fst (decode_step s e)) t s.

Inductive bus_item : Set :=
| BusStart
| BusStop
| BusByte (b : Z) (ack : bool)   (* eight bits, then the ninth: low is ACK *)
| BusStray (bits : list bool).   (* clock pulses that complete no byte *)

Fixpoint byte_of_bits (acc : Z) (bits : list bool) : Z :=
  match bits with
  | [] => acc
  | b :: bits' => byte_of_bits (2 * acc + Z.b2z b) bits'
  end.

Definition flush (acc : list bool) : list bus_item :=
  match acc with
  | [] => []
  | _ => [BusStray acc]
  end.

(** [acc] collects the bits since the last byte boundary, oldest first. *)
Fixpoint frames (acc : list bool) (syms : list symbol) : list bus_item :=
  match syms with
  | [] => flush acc
  | SymStart :: syms' => flush acc ++ BusStart :: frames [] syms'
  | SymStop :: syms' => flush acc ++ BusStop :: frames [] syms'
  | SymBit b :: syms' =>
      if (length acc =? 8)%nat
      then BusByte (byte_of_bits 0 acc) (negb b) :: frames [] syms'
      else frames (acc ++ [b]) syms'
  end.

Definition is_start (i : bus_item) : bool :=
  match i with BusStart => true | _ => false end.

Definition is_stop (i : bus_item) : bool :=
  match i with BusStop => true | _ => false end.

(** The bits of a byte, most significant first. *)
Definition msb_first (b : Z) : list bool :=
  map (Z.testbit b) [7; 6; 5; 4; 3; 2; 1; 0].

(** The symbols of one byte with its acknowledge slot. *)
Definition byte_syms (b : Z) (ack : bool) : list symbol :=
  map SymBit (msb_first b) ++ [SymBit (negb ack)].

(** The symbols of a transfer of [control] and [data] to address 0x78, given
    whether the slave acknowledges the first, second and third byte. *)
Definition transfer_syms (control data : Z) (a0 a1 a2 : bool) : list symbol :=
  SymStart :: byte_syms 0x78 a0 ++
  (if a0 then
     byte_syms control a1 ++
     (if a1 then byte_syms data a2 ++ [SymStop] else [SymStop])
   else [SymStop]).

(** The same transfer as the analyser frames it. *)
Definition transfer_view (control data : Z) (a0 a1 a2 : bool) : list bus_item :=
  if a0 then
    if a1 then
      [BusStart; BusByte 0x78 true; BusByte control true;
       BusByte data a2; BusStop]
    else [BusStart; BusByte 0x78 true; BusByte control false; BusStop]
  else [BusStart; BusByte 0x78 false; BusStop].

(** What a bus analyser shows for the trace [t] started from [r]. *)
Definition bus (r : regfile) (t : list event) : list bus_item :=
  frames [] (decode (r, None) t).

(** Whether the slave acknowledges the [k]-th next byte: SDA reads low. *)
Definition ack_at (m : machine) (k : nat) : bool :=
  negb (Z.testbit (p2in m (reads m + k)) SDA).

(** ** Sequencing of write-bit operations *)

Fixpoint write_bits (bits : list Z) : M unit :=
  match bits with
  | [] => ret tt
  | b :: bits' => i2c_write_bit b ;; write_bits bits'
  end.

(** ** Busy-wait time *)

(** Total number of cycles spent in [__delay_cycles] along a trace. *)
Fixpoint cycles (t : list event) : Z :=
  match t with
  | [] => 0
  | EvCycles n :: t' => n + cycles t'
  | _ :: t' => cycles t'
  end.

(** The writes of a trace that go to register [x]. *)
Definition writes_to (x : reg) (t : list event) : list event :=
  filter (fun e => match e with EvWrite y _ => reg_eqb x y | _ => false end) t.

(** ** Sample machines *)

(** Every register zero: all port pins are inputs.  The machine is
    parametrised by what P2IN shows on each read. *)
Definition machine_at_rest (inputs : nat -> Z) : machine :=
  Machine (fun _ => 0) inputs 0.

(** A slave that acknowledges every byte: SDA always reads low. *)
Definition always_ack : nat -> Z := fun _ => 0.

(** A slave that acknowledges address and control byte and rejects the
    payload: SDA reads high on the third sample. *)
Definition nack_payload : nat -> Z :=
  fun k => match k with 2%nat => BIT2 | _ => 0 end.

(** Bit 0 of P3OUT is set, the bus is released, the slave rejects the
    payload. *)
Definition machine_p3_bit0 : machine :=
  Machine (fun r => match r with P3OUT => 0x01 | _ => 0 end) nack_payload 0.

(** SCL is held low and SDA is released, as after an acknowledge slot. *)
Definition machine_after_ack : machine :=
  Machine (fun r => match r with P2DIR => BIT1 | _ => 0 end) always_ack 0.

(** A header instance for the examples.  No claim depends on its values. *)
Definition example_header : msp430_header :=
  Header true 0x0001 0x5A00 0x0080 0xA5 0x0000 0x0100 0x0030 0x0003 0 0 0.

(** ** Notions used in the proofs *)

(** The trace of a computation accounts for every change it makes to the
    registers. *)
Definition faithful {A} (c : M A) : Prop :=
  forall m, regs (final (c m)) = replay (regs m) (trace (c m)).

(** A computation keeps [I] at every point of its execution. *)
Definition keeps (I : regfile -> Prop) {A} (c : M A) : Prop :=
  forall m, I (regs m) -> throughout I (regs m) (trace (c m)).

(** A computation leaves the input oracle where it found it. *)
Definition silent {A} (c : M A) : Prop :=
  forall m, p2in (final (c m)) = p2in m /\ reads (final (c m)) = reads m.

(** Clearing and setting bit [k] of a byte register, as the read-modify-write
    statements [x &= ~mask] and [x |= mask] compute it. *)
Definition bclr (x k : Z) : Z := Z.land x (Z.lnot (2 ^ k)) mod 2 ^ 8.
Definition bset (x k : Z) : Z := Z.lor x (2 ^ k) mod 2 ^ 8.

Definition lowered (l : level) : level :=
  match l with Released => Released | _ => DrivenLow end.

Definition raised (l : level) : level :=
  match l with Released => Released | _ => DrivenHigh end.

(** [times k body]: the body run [k] times in a row. *)
Fixpoint times (k : nat) (body : M unit) : M unit :=
  match k with
  | O => ret tt
  | S k' => body ;; times k' body
  end.

(** [k] bit numbers counting down from [hi]. *)
Fixpoint down_from (hi : Z) (k : nat) : list Z :=
  match k with
  | O => []
  | S k' => hi :: down_from (hi - 1) k'
  end.

(** The store to the LED register, as [oled_write] performs it once the
    payload byte has been sent. *)
Definition led_update (ok : Z) : M unit :=
  if truthy ok then or_assign P3OUT BIT4 else and_assign P3OUT (lognot BIT4).

(** A computation performs no store to register [x]. *)
Definition avoids (x : reg) {A} (c : M A) : Prop :=
  forall m, writes_to x (trace (c m)) = [].

(** The output bit and the direction bit of RES are [o] and [d]. *)
Definition res_bits (o d : bool) (r : regfile) : Prop :=
  Z.testbit (r P2OUT) RES = o /\ Z.testbit (r P2DIR) RES = d.

(** An invariant that stores to registers other than P2DIR and P2OUT
    cannot break. *)
Definition port2_only (I : regfile -> Prop) : Prop :=
  forall r x v, x <> P2DIR -> x <> P2OUT -> I r -> I (upd r x v).

(** A computation produces at most [k] events, whatever it starts from. *)
Definition bounded (k : Z) {A} (c : M A) : Prop :=
  forall m, Z.of_nat (length (trace (c m))) <= k.

(** Predicates on the levels of SCL and SDA. *)
Definition on_bus (P : level -> level -> Prop) (r : regfile) : Prop :=
  P (pin r SCL) (pin r SDA).

(** A predicate on the levels of the two bus lines that survives the
    lowering of a line. *)
Definition bus_level_inv (P : level -> level -> Prop) : Prop :=
  forall c d, P c d -> P (lowered c) (lowered d).

Definition not_driven_high (c d : level) : Prop :=
  c <> DrivenHigh /\ d <> DrivenHigh.

Definition both_released (c d : level) : Prop :=
  c = Released /\ d = Released.

(** ** Notions for the further properties *)

(** Every event of a computation's trace satisfies [P]. *)
Definition only (P : event -> Prop) {A} (c : M A) : Prop :=
  forall m, Forall P (trace (c m)).

(** The event is no store, or a store to a register of the set [S]. *)
Definition writes_within (S : reg -> bool) (e : event) : Prop :=
  match e with EvWrite y _ => S y = true | _ => True end.

(** The event is no sample of P2IN. *)
Definition not_sample (e : event) : Prop :=
  match e with EvSample _ => False | _ => True end.

(** The registers a transfer stores to. *)
Definition transfer_regs (x : reg) : bool :=
  match x with P2OUT | P2DIR | P3OUT => true | _ => false end.

(** The registers the GPIO initialisation stores to. *)
Definition gpio_init_regs (x : reg) : bool :=
  match x with P2OUT | P2DIR | P2REN | PM5CTL0 => true | _ => false end.

(** The output bit and the direction bit of pin [n] of port 2 are [o]
    and [d]. *)
Definition port_bits (n : Z) (o d : bool) (r : regfile) : Prop :=
  Z.testbit (r P2OUT) n = o /\ Z.testbit (r P2DIR) n = d.

(** A computation spends exactly [n] cycles in [__delay_cycles]. *)
Definition takes (n : Z) {A} (c : M A) : Prop :=
  forall m, cycles (trace (c m)) = n.

(** The number of bytes a transfer puts on the bus, which is also the number
    of samples of SDA it takes, and the cycles it spends waiting, given
    whether the first and the second byte are acknowledged. *)
Definition bytes_sent (a0 a1 : bool) : nat :=
  if a0 then if a1 then 3 else 2 else 1.

Definition transfer_cycles (a0 a1 : bool) : Z :=
  if a0 then if a1 then 8700 else 6000 else 3300.

(** P3OUT after a transfer that found it at [p]. *)
Definition led_after (p : Z) (a0 a1 a2 : bool) : Z :=
  if a0 && a1 then if a2 then Z.lor p BIT4 mod 2 ^ 8 else 0 else p.

(** SDA is driven low from the start, as after a payload byte whose last
    bit was 0 has been clocked out and SCL is low. *)
Definition machine_data_low : machine :=
  Machine (fun r => match r with P2DIR => Z.lor BIT1 BIT2 | _ => 0 end)
          always_ack 0.

(** Every pin of port 2 is an output at high level with its pull resistor
    enabled, and bit 0 of P3OUT is set. *)
Definition machine_port2_high : machine :=
  Machine (fun r => match r with
                    | P2OUT | P2DIR | P2REN => 0xFF
                    | P3OUT => 0x01
                    | _ => 0
                    end) always_ack 0.

(** What the analyser shows first when a START condition is generated from
    the line levels [scl] and [sda]: a STOP, if SDA was held low while SCL
    was high. *)
Definition stop_before_start (scl sda : level) : list symbol :=
  if high scl && negb (high sda) then [SymStop] else [].

(** What the analyser shows first when a STOP condition is generated from
    the line levels [scl] and [sda]: a START, if both lines were high. *)
Definition start_before_stop (scl sda : level) : list symbol :=
  if high scl && high sda then [SymStart] else [].

(** SDA is held low while SCL is released, as after a transfer that was cut
    short before its STOP. *)
Definition machine_sda_held : machine :=
  Machine (fun r => match r with P2DIR => BIT2 | _ => 0 end) always_ack 0.

(** The stores of a trace that go to a register of the set [S], in order. *)
Definition stores_within (S : reg -> bool) (t : list event) : list event :=
  filter (fun e => match e with EvWrite y _ => S y | _ => false end) t.

(** The watchdog and clock-system registers; the registers of port 3. *)
Definition system_regs (x : reg) : bool :=
  match x with
  | WDTCTL | CSCTL0_H | CSCTL1 | CSCTL2 | CSCTL3 => true
  | _ => false
  end.

Definition port3_regs (x : reg) : bool :=
  match x with P3OUT | P3DIR => true | _ => false end.

(** The cycles [main] spends waiting apart from its two transfers: the idle
    wait of the GPIO initialisation, 200 ms, the two halves of the reset
    pulse, 8 s and 150 ms, at 5000 cycles per millisecond. *)
Definition bringup_wait : Z :=
  100 + 200 * 5000 + 2 * (50 * 5000) + 8 * 1000 * 5000 + 150 * 5000.

(** The stores of a computation to the registers of the set [S] are the
    events [l], whatever it starts from. *)
Definition emits (S : reg -> bool) (l : list event) {A} (c : M A) : Prop :=
  forall m, stores_within S (trace (c m)) = l.

(** * Proofs *)

(** ** The monad *)

Lemma trace_bind {A B} (c : M A) (k : A -> M B) m :
  trace (bind c k m) = trace (c m) ++ trace (k (value (c m)) (final (c m))).
Proof. reflexivity. Qed.

Lemma final_bind {A B} (c : M A) (k : A -> M B) m :
  final (bind c k m) = final (k (value (c m)) (final (c m))).
Proof. reflexivity. Qed.

Lemma value_bind {A B} (c : M A) (k : A -> M B) m :
  value (bind c k m) = value (k (value (c m)) (final (c m))).
Proof. reflexivity. Qed.

Lemma run_eta {A} (r : run A) : Run (value r) (final r) (trace r) = r.
Proof. destruct r; reflexivity. Qed.

Lemma run_unit_eta (r : run unit) : Run tt (final r) (trace r) = r.
Proof. destruct r as [[] f t]; reflexivity. Qed.

(** ** Traces *)

Lemma replay_app r t1 t2 : replay r (t1 ++ t2) = replay (replay r t1) t2.
Proof. apply fold_left_app. Qed.

Lemma throughout_start I r t : throughout I r t -> I r.
Proof. destruct t; cbn; tauto. Qed.

Lemma throughout_end I r t : throughout I r t -> I (replay r t).
Proof.
  revert r; induction t as [|e t IH]; intros r [Hr Ht]; [exact Hr|].
  apply (IH _ Ht).
Qed.

Lemma throughout_app I r t1 t2 :
  throughout I r (t1 ++ t2) <->
  throughout I r t1 /\ throughout I (replay r t1) t2.
Proof.
  revert r; induction t1 as [|e t1 IH]; intros r.
  - cbn [app replay fold_left]. split.
    + intros Ht. split; [|exact Ht]. cbn. split; [|exact Logic.I].
      exact (throughout_start _ _ _ Ht).
    + tauto.
  - cbn [app throughout replay fold_left]. rewrite IH. unfold replay. tauto.
Qed.

Lemma throughout_impl (I J : regfile -> Prop) r t :
  (forall x, I x -> J x) -> throughout I r t -> throughout J r t.
Proof.
  intros HIJ. revert r; induction t as [|e t IH]; cbn; intros r [Hr Ht]; auto.
Qed.

Lemma throughout_cycles I r n c :
  I r -> throughout I r (repeat (EvCycles c) n).
Proof.
  intros Hr. induction n as [|n IH]; cbn; auto.
Qed.

Lemma replay_cycles r n c : replay r (repeat (EvCycles c) n) = r.
Proof. induction n as [|n IH]; cbn; auto. Qed.

Lemma decode_app s t1 t2 :
  decode s (t1 ++ t2) = decode s t1 ++ decode (probe_after s t1) t2.
Proof.
  revert s; induction t1 as [|e t1 IH]; intros s; cbn; [reflexivity|].
  rewrite IH, app_assoc. reflexivity.
Qed.

Lemma probe_after_app s t1 t2 :
  probe_after s (t1 ++ t2) = probe_after (probe_after s t1) t2.
Proof. apply fold_left_app. Qed.

Lemma wave_app r t1 t2 :
  wave r (t1 ++ t2) = wave r t1 ++ wave (replay r t1) t2.
Proof.
  revert r; induction t1 as [|e t1 IH]; intros r; [reflexivity|].
  destruct e; cbn [app wave replay fold_left apply_event].
  - fold (replay (upd r r0 v) t1).
    destruct (_ && _); cbn; rewrite IH; reflexivity.
  - fold (replay r t1).
    destruct (_ && _); cbn; rewrite IH; reflexivity.
  - fold (replay r t1). rewrite IH. reflexivity.
Qed.

Lemma cycles_app t1 t2 : cycles (t1 ++ t2) = cycles t1 + cycles t2.
Proof.
  induction t1 as [|[] t1 IH]; cbn [app cycles]; lia.
Qed.

Lemma cycles_repeat c n : cycles (repeat (EvCycles c) n) = Z.of_nat n * c.
Proof. induction n as [|n IH]; cbn [repeat cycles]; lia. Qed.

Lemma writes_to_app x t1 t2 :
  writes_to x (t1 ++ t2) = writes_to x t1 ++ writes_to x t2.
Proof. apply filter_app. Qed.

(** ** Combinators for the three notions *)

Lemma faithful_ret {A} (a : A) : faithful (ret a).
Proof. intros m; reflexivity. Qed.

Lemma faithful_bind {A B} (c : M A) (k : A -> M B) :
  faithful c -> (forall a, faithful (k a)) -> faithful (bind c k).
Proof.
  intros Hc Hk m. rewrite final_bind, trace_bind, replay_app, <- Hc. apply Hk.
Qed.

Lemma faithful_load r : faithful (load r).
Proof. intros m; reflexivity. Qed.

Lemma faithful_store r v : faithful (store r v).
Proof. intros m; reflexivity. Qed.

Lemma faithful_load_P2IN : faithful load_P2IN.
Proof. intros m; reflexivity. Qed.

Lemma faithful_delay_cycles n : faithful (__delay_cycles n).
Proof. intros m; reflexivity. Qed.

Lemma faithful_if {A} (b : bool) (c1 c2 : M A) :
  faithful c1 -> faithful c2 -> faithful (if b then c1 else c2).
Proof. destruct b; auto. Qed.

Lemma keeps_ret I {A} (a : A) : keeps I (ret a).
Proof. intros m Hm; cbn; auto. Qed.

Lemma keeps_bind I {A B} (c : M A) (k : A -> M B) :
  faithful c -> keeps I c -> (forall a, keeps I (k a)) -> keeps I (bind c k).
Proof.
  intros Hf Hc Hk m Hm. rewrite trace_bind. apply throughout_app. split.
  - apply Hc, Hm.
  - rewrite <- Hf. apply Hk. rewrite Hf. apply throughout_end, Hc, Hm.
Qed.

Lemma keeps_if I {A} (b : bool) (c1 c2 : M A) :
  keeps I c1 -> keeps I c2 -> keeps I (if b then c1 else c2).
Proof. destruct b; auto. Qed.

Lemma keeps_load I r : keeps I (load r).
Proof. intros m Hm; cbn; auto. Qed.

Lemma keeps_load_P2IN I : keeps I load_P2IN.
Proof. intros m Hm; cbn; auto. Qed.

Lemma keeps_delay_cycles I n : keeps I (__delay_cycles n).
Proof. intros m Hm; cbn; auto. Qed.

Lemma silent_ret {A} (a : A) : silent (ret a).
Proof. intros m; split; reflexivity. Qed.

Lemma silent_bind {A B} (c : M A) (k : A -> M B) :
  silent c -> (forall a, silent (k a)) -> silent (bind c k).
Proof.
  intros Hc Hk m. rewrite final_bind.
  destruct (Hk (value (c m)) (final (c m))) as [-> ->]. apply Hc.
Qed.

Lemma silent_load r : silent (load r).
Proof. intros m; split; reflexivity. Qed.

Lemma silent_store r v : silent (store r v).
Proof. intros m; split; reflexivity. Qed.

Lemma silent_delay_cycles n : silent (__delay_cycles n).
Proof. intros m; split; reflexivity. Qed.

Lemma silent_if {A} (b : bool) (c1 c2 : M A) :
  silent c1 -> silent c2 -> silent (if b then c1 else c2).
Proof. destruct b; auto. Qed.

(** ** Bits of the port registers *)

(** The masks of the pin mapping are the masks of the bit numbers. *)
Lemma pin_masks :
  OLED_SCL_BIT = 2 ^ SCL /\ OLED_SDA_BIT = 2 ^ SDA /\
  OLED_RES_BIT = 2 ^ RES /\ BIT4 = 2 ^ LED.
Proof. repeat split. Qed.

Lemma testbit_bclr x k n :
  0 <= k -> 0 <= n < 8 ->
  Z.testbit (bclr x k) n = Z.testbit x n && negb (n =? k).
Proof.
  intros Hk Hn. unfold bclr.
  rewrite Z.mod_pow2_bits_low, Z.land_spec, Z.lnot_spec, Z.pow2_bits_eqb by lia.
  rewrite (Z.eqb_sym k n). reflexivity.
Qed.

Lemma testbit_bset x k n :
  0 <= k -> 0 <= n < 8 ->
  Z.testbit (bset x k) n = Z.testbit x n || (n =? k).
Proof.
  intros Hk Hn. unfold bset.
  rewrite Z.mod_pow2_bits_low, Z.lor_spec, Z.pow2_bits_eqb by lia.
  rewrite (Z.eqb_sym k n). reflexivity.
Qed.

Lemma pin_release r k n :
  0 <= k -> 0 <= n < 8 ->
  pin (upd r P2DIR (bclr (r P2DIR) k)) n =
  if n =? k then Released else pin r n.
Proof.
  intros Hk Hn. unfold pin, upd. cbn [reg_eqb].
  rewrite testbit_bclr by lia.
  destruct (n =? k), (Z.testbit (r P2DIR) n); reflexivity.
Qed.

Lemma pin_out_clear r k n :
  0 <= k -> 0 <= n < 8 ->
  pin (upd r P2OUT (bclr (r P2OUT) k)) n =
  if n =? k then lowered (pin r n) else pin r n.
Proof.
  intros Hk Hn. unfold pin, upd. cbn [reg_eqb].
  rewrite testbit_bclr by lia.
  destruct (n =? k), (Z.testbit (r P2DIR) n), (Z.testbit (r P2OUT) n);
    reflexivity.
Qed.

Lemma pin_out_set r k n :
  0 <= k -> 0 <= n < 8 ->
  pin (upd r P2OUT (bset (r P2OUT) k)) n =
  if n =? k then raised (pin r n) else pin r n.
Proof.
  intros Hk Hn. unfold pin, upd. cbn [reg_eqb].
  rewrite testbit_bset by lia.
  destruct (n =? k), (Z.testbit (r P2DIR) n), (Z.testbit (r P2OUT) n);
    reflexivity.
Qed.

(** Driving a line low: the output bit is cleared first, so the line never
    passes through the driven-high level on its way. *)
Lemma pin_low r k n :
  0 <= k < 8 -> 0 <= n < 8 ->
  let r1 := upd r P2OUT (bclr (r P2OUT) k) in
  pin (upd r1 P2DIR (bset (r1 P2DIR) k)) n =
  if n =? k then DrivenLow else pin r n.
Proof.
  intros Hk Hn r1. subst r1. unfold pin, upd. cbn [reg_eqb].
  rewrite testbit_bset, testbit_bclr by lia.
  destruct (n =? k), (Z.testbit (r P2DIR) n), (Z.testbit (r P2OUT) n);
    reflexivity.
Qed.

Lemma pin_other r x v n :
  x <> P2DIR -> x <> P2OUT -> pin (upd r x v) n = pin r n.
Proof.
  intros Hd Ho. unfold pin, upd. destruct x; try contradiction; reflexivity.
Qed.

(** ** The open-drain helpers, event by event *)

Lemma SCL_release_run m :
  SCL_release m =
  Run tt (Machine (upd (regs m) P2DIR (bclr (regs m P2DIR) SCL))
                  (p2in m) (reads m))
      [EvWrite P2DIR (bclr (regs m P2DIR) SCL)].
Proof. reflexivity. Qed.

Lemma SDA_release_run m :
  SDA_release m =
  Run tt (Machine (upd (regs m) P2DIR (bclr (regs m P2DIR) SDA))
                  (p2in m) (reads m))
      [EvWrite P2DIR (bclr (regs m P2DIR) SDA)].
Proof. reflexivity. Qed.

Lemma SCL_low_run m :
  SCL_low m =
  let r1 := upd (regs m) P2OUT (bclr (regs m P2OUT) SCL) in
  Run tt (Machine (upd r1 P2DIR (bset (r1 P2DIR) SCL)) (p2in m) (reads m))
      [EvWrite P2OUT (bclr (regs m P2OUT) SCL);
       EvWrite P2DIR (bset (r1 P2DIR) SCL)].
Proof. reflexivity. Qed.

Lemma SDA_low_run m :
  SDA_low m =
  let r1 := upd (regs m) P2OUT (bclr (regs m P2OUT) SDA) in
  Run tt (Machine (upd r1 P2DIR (bset (r1 P2DIR) SDA)) (p2in m) (reads m))
      [EvWrite P2OUT (bclr (regs m P2OUT) SDA);
       EvWrite P2DIR (bset (r1 P2DIR) SDA)].
Proof. reflexivity. Qed.

Lemma SDA_read_run m :
  SDA_read m =
  Run (Z.b2z (Z.testbit (p2in m (reads m)) SDA))
      (Machine (regs m) (p2in m) (S (reads m)))
      [EvSample (p2in m (reads m))].
Proof.
  unfold SDA_read, bind, load_P2IN, ret, truthy. cbn [value final trace app].
  f_equal.
  change OLED_SDA_BIT with (2 ^ SDA).
  destruct (Z.testbit (p2in m (reads m)) SDA) eqn:E.
  - destruct (Z.eqb_spec (Z.land (p2in m (reads m)) (2 ^ SDA)) 0) as [Hz|Hnz];
      [|reflexivity].
    exfalso. apply (f_equal (fun z => Z.testbit z SDA)) in Hz.
    rewrite Z.land_spec, E, Z.pow2_bits_eqb, Z.bits_0 in Hz by (cbv; discriminate).
    discriminate.
  - destruct (Z.eqb_spec (Z.land (p2in m (reads m)) (2 ^ SDA)) 0) as [Hz|Hnz];
      [reflexivity|].
    exfalso. apply Hnz. apply Z.bits_inj'. intros n Hn.
    rewrite Z.land_spec, Z.pow2_bits_eqb, Z.bits_0 by (cbv; discriminate).
    destruct (Z.eqb_spec SDA n) as [<-|]; [rewrite E|]; auto using Bool.andb_false_r.
Qed.

(** ** What each helper does to the three pins *)

Ltac pin_index := unfold SCL, SDA, RES; lia.

Lemma pin_SCL_release m n :
  0 <= n < 8 ->
  pin (regs (final (SCL_release m))) n =
  if n =? SCL then Released else pin (regs m) n.
Proof.
  intros Hn. rewrite SCL_release_run. cbn [final regs].
  apply pin_release; pin_index.
Qed.

Lemma pin_SDA_release m n :
  0 <= n < 8 ->
  pin (regs (final (SDA_release m))) n =
  if n =? SDA then Released else pin (regs m) n.
Proof.
  intros Hn. rewrite SDA_release_run. cbn [final regs].
  apply pin_release; pin_index.
Qed.

Lemma pin_SCL_low m n :
  0 <= n < 8 ->
  pin (regs (final (SCL_low m))) n =
  if n =? SCL then DrivenLow else pin (regs m) n.
Proof.
  intros Hn. rewrite SCL_low_run. cbn [final regs].
  apply pin_low; pin_index.
Qed.

Lemma pin_SDA_low m n :
  0 <= n < 8 ->
  pin (regs (final (SDA_low m))) n =
  if n =? SDA then DrivenLow else pin (regs m) n.
Proof.
  intros Hn. rewrite SDA_low_run. cbn [final regs].
  apply pin_low; pin_index.
Qed.

Lemma scl_SCL_release m : pin (regs (final (SCL_release m))) SCL = Released.
Proof. rewrite pin_SCL_release by pin_index. reflexivity. Qed.
Lemma sda_SCL_release m :
  pin (regs (final (SCL_release m))) SDA = pin (regs m) SDA.
Proof. rewrite pin_SCL_release by pin_index. reflexivity. Qed.
Lemma res_SCL_release m :
  pin (regs (final (SCL_release m))) RES = pin (regs m) RES.
Proof. rewrite pin_SCL_release by pin_index. reflexivity. Qed.

Lemma scl_SDA_release m :
  pin (regs (final (SDA_release m))) SCL = pin (regs m) SCL.
Proof. rewrite pin_SDA_release by pin_index. reflexivity. Qed.
Lemma sda_SDA_release m : pin (regs (final (SDA_release m))) SDA = Released.
Proof. rewrite pin_SDA_release by pin_index. reflexivity. Qed.
Lemma res_SDA_release m :
  pin (regs (final (SDA_release m))) RES = pin (regs m) RES.
Proof. rewrite pin_SDA_release by pin_index. reflexivity. Qed.

Lemma scl_SCL_low m : pin (regs (final (SCL_low m))) SCL = DrivenLow.
Proof. rewrite pin_SCL_low by pin_index. reflexivity. Qed.
Lemma sda_SCL_low m : pin (regs (final (SCL_low m))) SDA = pin (regs m) SDA.
Proof. rewrite pin_SCL_low by pin_index. reflexivity. Qed.
Lemma res_SCL_low m : pin (regs (final (SCL_low m))) RES = pin (regs m) RES.
Proof. rewrite pin_SCL_low by pin_index. reflexivity. Qed.

Lemma scl_SDA_low m : pin (regs (final (SDA_low m))) SCL = pin (regs m) SCL.
Proof. rewrite pin_SDA_low by pin_index. reflexivity. Qed.
Lemma sda_SDA_low m : pin (regs (final (SDA_low m))) SDA = DrivenLow.
Proof. rewrite pin_SDA_low by pin_index. reflexivity. Qed.
Lemma res_SDA_low m : pin (regs (final (SDA_low m))) RES = pin (regs m) RES.
Proof. rewrite pin_SDA_low by pin_index. reflexivity. Qed.

Lemma final_delay_short m : final (delay_short m) = m.
Proof. reflexivity. Qed.

Lemma trace_delay_short m : trace (delay_short m) = [EvCycles 100].
Proof. reflexivity. Qed.

Lemma final_SDA_read m :
  final (SDA_read m) = Machine (regs m) (p2in m) (S (reads m)).
Proof. rewrite SDA_read_run. reflexivity. Qed.

Lemma value_SDA_read m :
  value (SDA_read m) = Z.b2z (Z.testbit (p2in m (reads m)) SDA).
Proof. rewrite SDA_read_run. reflexivity. Qed.

Lemma trace_SDA_read m : trace (SDA_read m) = [EvSample (p2in m (reads m))].
Proof. rewrite SDA_read_run. reflexivity. Qed.

(** ** What the analyser sees of each helper *)

Ltac helper_pins :=
  rewrite ?pin_out_clear, ?pin_low, ?pin_release by pin_index.

Ltac helper_steps E1 E2 :=
  repeat (helper_pins; rewrite ?E1, ?E2;
          cbn [decode probe_after fold_left decode_step fst snd high lowered
               andb negb app Z.eqb Pos.eqb SCL SDA RES]).

Lemma decode_SDA_low m l :
  let scl := high (pin (regs m) SCL) in
  let sda := high (pin (regs m) SDA) in
  decode (regs m, l) (trace (SDA_low m)) =
    (if scl && sda then [SymStart] else []) /\
  probe_after (regs m, l) (trace (SDA_low m)) =
    (regs (final (SDA_low m)), if scl && sda then None else l).
Proof.
  rewrite SDA_low_run.
  cbn [trace final regs decode probe_after fold_left decode_step fst snd].
  destruct (pin (regs m) SCL) eqn:E1, (pin (regs m) SDA) eqn:E2, l;
    helper_steps E1 E2; split; reflexivity.
Qed.

Lemma decode_SDA_release m l :
  let scl := high (pin (regs m) SCL) in
  let sda := high (pin (regs m) SDA) in
  decode (regs m, l) (trace (SDA_release m)) =
    (if scl && negb sda then [SymStop] else []) /\
  probe_after (regs m, l) (trace (SDA_release m)) =
    (regs (final (SDA_release m)), if scl && negb sda then None else l).
Proof.
  rewrite SDA_release_run.
  cbn [trace final regs decode probe_after fold_left decode_step fst snd].
  destruct (pin (regs m) SCL) eqn:E1, (pin (regs m) SDA) eqn:E2, l;
    helper_steps E1 E2; split; reflexivity.
Qed.

Lemma decode_SCL_release m l :
  let scl := high (pin (regs m) SCL) in
  let sda := high (pin (regs m) SDA) in
  decode (regs m, l) (trace (SCL_release m)) = [] /\
  probe_after (regs m, l) (trace (SCL_release m)) =
    (regs (final (SCL_release m)), if scl then l else Some sda).
Proof.
  rewrite SCL_release_run.
  cbn [trace final regs decode probe_after fold_left decode_step fst snd].
  destruct (pin (regs m) SCL) eqn:E1, (pin (regs m) SDA) eqn:E2, l;
    helper_steps E1 E2; split; reflexivity.
Qed.

Lemma decode_SCL_low m l :
  let scl := high (pin (regs m) SCL) in
  decode (regs m, l) (trace (SCL_low m)) =
    (if scl then match l with Some b => [SymBit b] | None => [] end else []) /\
  probe_after (regs m, l) (trace (SCL_low m)) =
    (regs (final (SCL_low m)), if scl then None else l).
Proof.
  rewrite SCL_low_run.
  cbn [trace final regs decode probe_after fold_left decode_step fst snd].
  destruct (pin (regs m) SCL) eqn:E1, (pin (regs m) SDA) eqn:E2, l;
    helper_steps E1 E2; split; reflexivity.
Qed.

(** ** The waveform of each helper *)

Ltac wave_steps E1 E2 :=
  repeat (helper_pins; rewrite ?E1, ?E2;
          cbn [wave apply_event level_eqb lowered andb Z.eqb Pos.eqb
               SCL SDA RES]).

Lemma wave_SDA_low m :
  wave (regs m) (trace (SDA_low m)) =
  if level_eqb (pin (regs m) SDA) DrivenLow then []
  else [Lines (pin (regs m) SCL) DrivenLow].
Proof.
  rewrite SDA_low_run. cbn [trace].
  destruct (pin (regs m) SCL) eqn:E1, (pin (regs m) SDA) eqn:E2;
    wave_steps E1 E2; reflexivity.
Qed.

Lemma wave_SCL_low m :
  wave (regs m) (trace (SCL_low m)) =
  if level_eqb (pin (regs m) SCL) DrivenLow then []
  else [Lines DrivenLow (pin (regs m) SDA)].
Proof.
  rewrite SCL_low_run. cbn [trace].
  destruct (pin (regs m) SCL) eqn:E1, (pin (regs m) SDA) eqn:E2;
    wave_steps E1 E2; reflexivity.
Qed.

Lemma wave_SDA_release m :
  wave (regs m) (trace (SDA_release m)) =
  if level_eqb (pin (regs m) SDA) Released then []
  else [Lines (pin (regs m) SCL) Released].
Proof.
  rewrite SDA_release_run. cbn [trace].
  destruct (pin (regs m) SCL) eqn:E1, (pin (regs m) SDA) eqn:E2;
    wave_steps E1 E2; reflexivity.
Qed.

Lemma wave_SCL_release m :
  wave (regs m) (trace (SCL_release m)) =
  if level_eqb (pin (regs m) SCL) Released then []
  else [Lines Released (pin (regs m) SDA)].
Proof.
  rewrite SCL_release_run. cbn [trace].
  destruct (pin (regs m) SCL) eqn:E1, (pin (regs m) SDA) eqn:E2;
    wave_steps E1 E2; reflexivity.
Qed.

(** ** The helpers and the three notions *)

Lemma faithful_SCL_low : faithful SCL_low.
Proof. intros m; reflexivity. Qed.
Lemma faithful_SCL_release : faithful SCL_release.
Proof. intros m; reflexivity. Qed.
Lemma faithful_SDA_low : faithful SDA_low.
Proof. intros m; reflexivity. Qed.
Lemma faithful_SDA_release : faithful SDA_release.
Proof. intros m; reflexivity. Qed.
Lemma faithful_SDA_read : faithful SDA_read.
Proof. intros m; reflexivity. Qed.

Lemma silent_SCL_low : silent SCL_low.
Proof. intros m; split; reflexivity. Qed.
Lemma silent_SCL_release : silent SCL_release.
Proof. intros m; split; reflexivity. Qed.
Lemma silent_SDA_low : silent SDA_low.
Proof. intros m; split; reflexivity. Qed.
Lemma silent_SDA_release : silent SDA_release.
Proof. intros m; split; reflexivity. Qed.

(** The bus helpers never drive a line high, whatever they start from. *)

Ltac keeps_steps E1 E2 :=
  repeat (helper_pins; rewrite ?E1, ?E2;
          cbn [throughout apply_event lowered Z.eqb Pos.eqb SCL SDA RES]).

Ltac keeps_ndh X_run :=
  let m := fresh "m" in let E1 := fresh "E" in let E2 := fresh "E" in
  intros m; unfold never_driven_high; rewrite X_run; cbn [trace];
  destruct (pin (regs m) SCL) eqn:E1, (pin (regs m) SDA) eqn:E2;
  intros [? ?]; keeps_steps E1 E2;
  repeat split; (congruence || discriminate).

Lemma ndh_SCL_low : keeps never_driven_high SCL_low.
Proof. keeps_ndh SCL_low_run. Qed.
Lemma ndh_SCL_release : keeps never_driven_high SCL_release.
Proof. keeps_ndh SCL_release_run. Qed.
Lemma ndh_SDA_low : keeps never_driven_high SDA_low.
Proof. keeps_ndh SDA_low_run. Qed.
Lemma ndh_SDA_release : keeps never_driven_high SDA_release.
Proof. keeps_ndh SDA_release_run. Qed.

(** The bus helpers leave the two bits of RES alone. *)

Ltac keeps_res X_run :=
  let m := fresh "m" in let Ho := fresh "Ho" in let Hd := fresh "Hd" in
  intros m [Ho Hd]; rewrite X_run; cbn [trace throughout apply_event];
  unfold res_bits, upd; cbn [reg_eqb];
  rewrite ?testbit_bclr, ?testbit_bset by pin_index;
  rewrite ?Ho, ?Hd; cbn [Z.eqb Pos.eqb RES SCL SDA negb];
  rewrite ?Bool.andb_true_r, ?Bool.orb_false_r; repeat split; reflexivity.

Lemma res_SCL_low_keeps o d : keeps (res_bits o d) SCL_low.
Proof. keeps_res SCL_low_run. Qed.
Lemma res_SCL_release_keeps o d : keeps (res_bits o d) SCL_release.
Proof. keeps_res SCL_release_run. Qed.
Lemma res_SDA_low_keeps o d : keeps (res_bits o d) SDA_low.
Proof. keeps_res SDA_low_run. Qed.
Lemma res_SDA_release_keeps o d : keeps (res_bits o d) SDA_release.
Proof. keeps_res SDA_release_run. Qed.

Create HintDb fw discriminated.
#[local] Hint Constants Opaque : fw.

#[local] Hint Resolve
  faithful_ret faithful_bind faithful_load faithful_store faithful_load_P2IN
  faithful_delay_cycles faithful_if
  faithful_SCL_low faithful_SCL_release faithful_SDA_low faithful_SDA_release
  faithful_SDA_read
  keeps_ret keeps_bind keeps_if keeps_load keeps_load_P2IN keeps_delay_cycles
  silent_ret silent_bind silent_load silent_store silent_delay_cycles silent_if
  silent_SCL_low silent_SCL_release silent_SDA_low silent_SDA_release
  ndh_SCL_low ndh_SCL_release ndh_SDA_low ndh_SDA_release
  res_SCL_low_keeps res_SCL_release_keeps res_SDA_low_keeps
  res_SDA_release_keeps : fw.

Ltac fw := eauto 30 with fw.

Lemma faithful_delay_short : faithful delay_short.
Proof. unfold delay_short; fw. Qed.
Lemma silent_delay_short : silent delay_short.
Proof. unfold delay_short; fw. Qed.
Lemma keeps_delay_short I : keeps I delay_short.
Proof. unfold delay_short; fw. Qed.
Lemma keeps_SDA_read I : keeps I SDA_read.
Proof. unfold SDA_read; fw. Qed.

#[local] Hint Resolve faithful_delay_short silent_delay_short keeps_delay_short
  keeps_SDA_read : fw.

Lemma faithful_i2c_idle : faithful i2c_idle.
Proof. unfold i2c_idle; fw. Qed.
Lemma faithful_i2c_start : faithful i2c_start.
Proof. unfold i2c_start; fw. Qed.
Lemma faithful_i2c_stop : faithful i2c_stop.
Proof. unfold i2c_stop; fw. Qed.
Lemma faithful_i2c_write_bit b : faithful (i2c_write_bit b).
Proof. unfold i2c_write_bit; fw. Qed.
Lemma faithful_i2c_read_ack : faithful i2c_read_ack.
Proof. unfold i2c_read_ack; fw. Qed.

Lemma silent_i2c_idle : silent i2c_idle.
Proof. unfold i2c_idle; fw. Qed.
Lemma silent_i2c_start : silent i2c_start.
Proof. unfold i2c_start; fw. Qed.
Lemma silent_i2c_stop : silent i2c_stop.
Proof. unfold i2c_stop; fw. Qed.
Lemma silent_i2c_write_bit b : silent (i2c_write_bit b).
Proof. unfold i2c_write_bit; fw. Qed.

#[local] Hint Resolve faithful_i2c_idle faithful_i2c_start faithful_i2c_stop
  faithful_i2c_write_bit faithful_i2c_read_ack
  silent_i2c_idle silent_i2c_start silent_i2c_stop silent_i2c_write_bit : fw.

Lemma ndh_i2c_idle : keeps never_driven_high i2c_idle.
Proof. unfold i2c_idle; fw. Qed.
Lemma ndh_i2c_start : keeps never_driven_high i2c_start.
Proof. unfold i2c_start; fw. Qed.
Lemma ndh_i2c_stop : keeps never_driven_high i2c_stop.
Proof. unfold i2c_stop; fw. Qed.
Lemma ndh_i2c_write_bit b : keeps never_driven_high (i2c_write_bit b).
Proof. unfold i2c_write_bit; fw. Qed.
Lemma ndh_i2c_read_ack : keeps never_driven_high i2c_read_ack.
Proof. unfold i2c_read_ack; fw. Qed.

Lemma res_i2c_idle o d : keeps (res_bits o d) i2c_idle.
Proof. unfold i2c_idle; fw. Qed.
Lemma res_i2c_start o d : keeps (res_bits o d) i2c_start.
Proof. unfold i2c_start; fw. Qed.
Lemma res_i2c_stop o d : keeps (res_bits o d) i2c_stop.
Proof. unfold i2c_stop; fw. Qed.
Lemma res_i2c_write_bit o d b : keeps (res_bits o d) (i2c_write_bit b).
Proof. unfold i2c_write_bit; fw. Qed.
Lemma res_i2c_read_ack o d : keeps (res_bits o d) i2c_read_ack.
Proof. unfold i2c_read_ack; fw. Qed.

#[local] Hint Resolve ndh_i2c_idle ndh_i2c_start ndh_i2c_stop
  ndh_i2c_write_bit ndh_i2c_read_ack
  res_i2c_idle res_i2c_start res_i2c_stop res_i2c_write_bit
  res_i2c_read_ack : fw.

(** ** The I2C primitives as the analyser sees them *)

Lemma dec_SDA_low m l :
  decode (regs m, l) (trace (SDA_low m)) =
  if high (pin (regs m) SCL) && high (pin (regs m) SDA) then [SymStart] else [].
Proof. exact (proj1 (decode_SDA_low m l)). Qed.

Lemma probe_SDA_low m l :
  probe_after (regs m, l) (trace (SDA_low m)) =
  (regs (final (SDA_low m)),
   if high (pin (regs m) SCL) && high (pin (regs m) SDA) then None else l).
Proof. exact (proj2 (decode_SDA_low m l)). Qed.

Lemma dec_SDA_release m l :
  decode (regs m, l) (trace (SDA_release m)) =
  if high (pin (regs m) SCL) && negb (high (pin (regs m) SDA))
  then [SymStop] else [].
Proof. exact (proj1 (decode_SDA_release m l)). Qed.

Lemma probe_SDA_release m l :
  probe_after (regs m, l) (trace (SDA_release m)) =
  (regs (final (SDA_release m)),
   if high (pin (regs m) SCL) && negb (high (pin (regs m) SDA))
   then None else l).
Proof. exact (proj2 (decode_SDA_release m l)). Qed.

Lemma dec_SCL_release m l :
  decode (regs m, l) (trace (SCL_release m)) = [].
Proof. exact (proj1 (decode_SCL_release m l)). Qed.

Lemma probe_SCL_release m l :
  probe_after (regs m, l) (trace (SCL_release m)) =
  (regs (final (SCL_release m)),
   if high (pin (regs m) SCL) then l else Some (high (pin (regs m) SDA))).
Proof. exact (proj2 (decode_SCL_release m l)). Qed.

Lemma dec_SCL_low m l :
  decode (regs m, l) (trace (SCL_low m)) =
  if high (pin (regs m) SCL)
  then match l with Some b => [SymBit b] | None => [] end else [].
Proof. exact (proj1 (decode_SCL_low m l)). Qed.

Lemma probe_SCL_low m l :
  probe_after (regs m, l) (trace (SCL_low m)) =
  (regs (final (SCL_low m)), if high (pin (regs m) SCL) then None else l).
Proof. exact (proj2 (decode_SCL_low m l)). Qed.

Lemma dec_delay_short s m : decode s (trace (delay_short m)) = [].
Proof. destruct s; reflexivity. Qed.

Lemma probe_delay_short s m : probe_after s (trace (delay_short m)) = s.
Proof. destruct s; reflexivity. Qed.

Lemma dec_SDA_read s m : decode s (trace (SDA_read m)) = [].
Proof. destruct s; reflexivity. Qed.

Lemma probe_SDA_read m l :
  probe_after (regs m, l) (trace (SDA_read m)) =
  (regs (final (SDA_read m)),
   if high (pin (regs m) SCL)
   then Some (Z.testbit (p2in m (reads m)) SDA) else l).
Proof. reflexivity. Qed.

Lemma pin_SDA_read m n : pin (regs (final (SDA_read m))) n = pin (regs m) n.
Proof. reflexivity. Qed.

Lemma p2in_SCL_low m : p2in (final (SCL_low m)) = p2in m.
Proof. reflexivity. Qed.
Lemma p2in_SCL_release m : p2in (final (SCL_release m)) = p2in m.
Proof. reflexivity. Qed.
Lemma p2in_SDA_low m : p2in (final (SDA_low m)) = p2in m.
Proof. reflexivity. Qed.
Lemma p2in_SDA_release m : p2in (final (SDA_release m)) = p2in m.
Proof. reflexivity. Qed.
Lemma reads_SCL_low m : reads (final (SCL_low m)) = reads m.
Proof. reflexivity. Qed.
Lemma reads_SCL_release m : reads (final (SCL_release m)) = reads m.
Proof. reflexivity. Qed.
Lemma reads_SDA_low m : reads (final (SDA_low m)) = reads m.
Proof. reflexivity. Qed.
Lemma reads_SDA_release m : reads (final (SDA_release m)) = reads m.
Proof. reflexivity. Qed.

Lemma trace_ret {A} (a : A) m : trace (ret a m) = [].
Proof. reflexivity. Qed.

Lemma final_ret {A} (a : A) m : final (ret a m) = m.
Proof. reflexivity. Qed.

Lemma value_ret {A} (a : A) m : value (ret a m) = a.
Proof. reflexivity. Qed.

Create Rewrite HintDb i2c.

#[local] Hint Rewrite @trace_bind @final_bind @value_bind
  @trace_ret @final_ret @value_ret app_nil_r
  decode_app probe_after_app
  dec_SDA_low probe_SDA_low dec_SDA_release probe_SDA_release
  dec_SCL_low probe_SCL_low dec_SCL_release probe_SCL_release
  dec_delay_short probe_delay_short dec_SDA_read probe_SDA_read
  final_delay_short pin_SDA_read
  p2in_SCL_low p2in_SCL_release p2in_SDA_low p2in_SDA_release
  reads_SCL_low reads_SCL_release reads_SDA_low reads_SDA_release
  scl_SCL_release sda_SCL_release res_SCL_release
  scl_SDA_release sda_SDA_release res_SDA_release
  scl_SCL_low sda_SCL_low res_SCL_low
  scl_SDA_low sda_SDA_low res_SDA_low : i2c.

Ltac i2c_eval :=
  repeat (progress (autorewrite with i2c;
                    cbn [high andb negb app fst snd level_eqb decode probe_after fold_left])).

Lemma i2c_start_pins m :
  pin (regs (final (i2c_start m))) SCL = DrivenLow /\
  pin (regs (final (i2c_start m))) SDA = DrivenLow /\
  pin (regs (final (i2c_start m))) RES = pin (regs m) RES.
Proof. unfold i2c_start. i2c_eval. auto. Qed.

Lemma i2c_start_decode m l :
  bus_released (regs m) ->
  decode (regs m, l) (trace (i2c_start m)) = [SymStart] /\
  probe_after (regs m, l) (trace (i2c_start m)) =
    (regs (final (i2c_start m)), None).
Proof.
  intros [Hc Hd]. unfold i2c_start. i2c_eval.
  rewrite Hc, Hd. i2c_eval. split; reflexivity.
Qed.

Lemma i2c_stop_pins m :
  pin (regs (final (i2c_stop m))) SCL = Released /\
  pin (regs (final (i2c_stop m))) SDA = Released /\
  pin (regs (final (i2c_stop m))) RES = pin (regs m) RES.
Proof. unfold i2c_stop. i2c_eval. auto. Qed.

Lemma i2c_stop_decode m l :
  pin (regs m) SCL = DrivenLow ->
  decode (regs m, l) (trace (i2c_stop m)) = [SymStop] /\
  probe_after (regs m, l) (trace (i2c_stop m)) =
    (regs (final (i2c_stop m)), None).
Proof.
  intros Hc. unfold i2c_stop. i2c_eval.
  rewrite Hc. i2c_eval. split; reflexivity.
Qed.

Lemma i2c_write_bit_pins bit m :
  pin (regs (final (i2c_write_bit bit m))) SCL = DrivenLow /\
  pin (regs (final (i2c_write_bit bit m))) RES = pin (regs m) RES.
Proof. unfold i2c_write_bit. destruct (truthy bit); i2c_eval; auto. Qed.

Lemma i2c_write_bit_decode bit m l :
  pin (regs m) SCL = DrivenLow ->
  decode (regs m, l) (trace (i2c_write_bit bit m)) = [SymBit (truthy bit)] /\
  probe_after (regs m, l) (trace (i2c_write_bit bit m)) =
    (regs (final (i2c_write_bit bit m)), None).
Proof.
  intros Hc. unfold i2c_write_bit.
  destruct (truthy bit); i2c_eval; rewrite Hc; i2c_eval; split; reflexivity.
Qed.

Lemma i2c_read_ack_pins m :
  pin (regs (final (i2c_read_ack m))) SCL = DrivenLow /\
  pin (regs (final (i2c_read_ack m))) SDA = Released /\
  pin (regs (final (i2c_read_ack m))) RES = pin (regs m) RES.
Proof. unfold i2c_read_ack. i2c_eval. auto. Qed.

Lemma i2c_read_ack_oracle m :
  p2in (final (i2c_read_ack m)) = p2in m /\
  reads (final (i2c_read_ack m)) = S (reads m) /\
  value (i2c_read_ack m) = Z.b2z (negb (Z.testbit (p2in m (reads m)) SDA)).
Proof.
  split; [reflexivity|]. split; [reflexivity|].
  unfold i2c_read_ack. autorewrite with i2c. rewrite value_SDA_read.
  destruct (Z.testbit _ _); reflexivity.
Qed.

Lemma i2c_read_ack_decode m l :
  pin (regs m) SCL = DrivenLow ->
  decode (regs m, l) (trace (i2c_read_ack m)) =
    [SymBit (Z.testbit (p2in m (reads m)) SDA)] /\
  probe_after (regs m, l) (trace (i2c_read_ack m)) =
    (regs (final (i2c_read_ack m)), None).
Proof.
  intros Hc. unfold i2c_read_ack. i2c_eval.
  rewrite Hc. i2c_eval. split; reflexivity.
Qed.

(** ** Loops *)

Lemma wrap16_range n : 0 <= wrap16 n < 2 ^ 16.
Proof. unfold wrap16. apply Z.mod_pos_bound. lia. Qed.

Lemma wrap16_small n : 0 <= n < 2 ^ 16 -> wrap16 n = n.
Proof. intros Hn. unfold wrap16. apply Z.mod_small. exact Hn. Qed.

Lemma wrap16_pred n : wrap16 n <> 0 -> wrap16 (wrap16 (n - 1)) = wrap16 n - 1.
Proof.
  intros Hn. pose proof (wrap16_range n) as Hb. unfold wrap16 in *.
  rewrite Z.mod_mod by lia.
  rewrite Zminus_mod, (Z.mod_small 1) by lia.
  apply Z.mod_small. lia.
Qed.

Lemma while_postdec_eq n body m :
  while_postdec n body m =
  if wrap16 n =? 0 then Run tt m []
  else (body ;; while_postdec (wrap16 (n - 1)) body) m.
Proof.
  rewrite while_postdec_equation_1.
  destruct (Z.eq_dec (wrap16 n) 0) as [E|E]; cbn.
  - rewrite E. reflexivity.
  - apply Z.eqb_neq in E. rewrite E. unfold bind.
    destruct (while_postdec _ _ _) as [[] f t]. reflexivity.
Qed.

(** [while (n--) body] runs its body exactly [n] times. *)
Lemma while_postdec_times n body m :
  while_postdec n body m = times (Z.to_nat (wrap16 n)) body m.
Proof.
  remember (Z.to_nat (wrap16 n)) as k eqn:Hk.
  revert n m Hk. induction k as [|k IH]; intros n m Hk.
  - pose proof (wrap16_range n) as Hb.
    rewrite while_postdec_eq. replace (wrap16 n) with 0 by lia. reflexivity.
  - pose proof (wrap16_range n) as Hb.
    assert (wrap16 n <> 0) as Hnz by lia.
    rewrite while_postdec_eq. apply Z.eqb_neq in Hnz as Hnz'. rewrite Hnz'.
    cbn [times]. unfold bind. rewrite IH; [reflexivity|].
    rewrite wrap16_pred by assumption. lia.
Qed.

Lemma faithful_times k body : faithful body -> faithful (times k body).
Proof. intros Hb. induction k; cbn [times]; fw. Qed.

Lemma silent_times k body : silent body -> silent (times k body).
Proof. intros Hb. induction k; cbn [times]; fw. Qed.

Lemma keeps_times I k body :
  faithful body -> keeps I body -> keeps I (times k body).
Proof. intros Hf Hb. induction k; cbn [times]; fw. Qed.

Lemma faithful_while n body : faithful body -> faithful (while_postdec n body).
Proof.
  intros Hb m. rewrite while_postdec_times. apply faithful_times, Hb.
Qed.

Lemma silent_while n body : silent body -> silent (while_postdec n body).
Proof.
  intros Hb m. rewrite while_postdec_times. apply silent_times, Hb.
Qed.

Lemma keeps_while I n body :
  faithful body -> keeps I body -> keeps I (while_postdec n body).
Proof.
  intros Hf Hb m. rewrite while_postdec_times. apply keeps_times; assumption.
Qed.

#[local] Hint Resolve faithful_while silent_while keeps_while : fw.

(** A body that only waits: the loop around it only waits, [k] times as long. *)
Lemma times_waits k body c j :
  (forall m, body m = Run tt m (repeat (EvCycles c) j)) ->
  forall m, times k body m = Run tt m (repeat (EvCycles c) (k * j)).
Proof.
  intros Hb. induction k as [|k IH]; intros m; [reflexivity|].
  cbn [times]. unfold bind. rewrite Hb. cbn [final trace value].
  rewrite IH. cbn [final trace value].
  rewrite <- repeat_app. reflexivity.
Qed.

Lemma delay_cycles_const_run nBlocks m :
  delay_cycles_const nBlocks m =
  Run tt m (repeat (EvCycles 1000) (Z.to_nat (wrap16 nBlocks))).
Proof.
  unfold delay_cycles_const. rewrite while_postdec_times.
  rewrite (times_waits _ _ 1000 1) by reflexivity.
  rewrite Nat.mul_1_r. reflexivity.
Qed.

Lemma delay_ms_run ms m :
  delay_ms ms m =
  Run tt m (repeat (EvCycles 1000) (Z.to_nat (wrap16 ms) * 5)).
Proof.
  unfold delay_ms. rewrite while_postdec_times.
  apply times_waits. intros m'. apply delay_cycles_const_run.
Qed.

Lemma delay_s_run s m :
  delay_s s m =
  Run tt m (repeat (EvCycles 1000) (Z.to_nat (wrap16 s) * 5000)).
Proof.
  unfold delay_s. rewrite while_postdec_times.
  apply times_waits. intros m'. apply delay_ms_run.
Qed.

(** The bit loop of [i2c_write_byte]. *)

Lemma i2c_write_byte_loop_eq i b m :
  i2c_write_byte_loop i b m =
  if i <? 8
  then (i2c_write_bit (Z.b2z (negb (Z.land b 0x80 =? 0))) ;;
        i2c_write_byte_loop (wrap8 (i + 1)) (wrap8 (Z.shiftl b 1))) m
  else Run tt m [].
Proof.
  rewrite i2c_write_byte_loop_equation_1.
  destruct (Z_lt_dec i 8) as [E|E]; cbn.
  - apply Z.ltb_lt in E. rewrite E. unfold bind.
    destruct (i2c_write_byte_loop _ _ _) as [[] f t]. reflexivity.
  - replace (i <? 8) with false by (symmetry; apply Z.ltb_ge; lia).
    reflexivity.
Qed.

(** From here on the two loops are used through their equations only. *)
#[local] Opaque while_postdec i2c_write_byte_loop.

Lemma msb_of_byte b :
  Z.b2z (negb (Z.land b 0x80 =? 0)) = Z.b2z (Z.testbit b 7).
Proof.
  f_equal. change 0x80 with (2 ^ 7).
  destruct (Z.testbit b 7) eqn:E.
  - destruct (Z.eqb_spec (Z.land b (2 ^ 7)) 0) as [Hz|Hnz]; [|reflexivity].
    apply (f_equal (fun z => Z.testbit z 7)) in Hz.
    rewrite Z.land_spec, E, Z.pow2_bits_eqb, Z.bits_0 in Hz by lia.
    discriminate.
  - destruct (Z.eqb_spec (Z.land b (2 ^ 7)) 0) as [Hz|Hnz]; [reflexivity|].
    exfalso. apply Hnz. apply Z.bits_inj'. intros n Hn.
    rewrite Z.land_spec, Z.pow2_bits_eqb, Z.bits_0 by lia.
    destruct (Z.eqb_spec 7 n) as [<-|]; [rewrite E|];
      auto using Bool.andb_false_r.
Qed.

Lemma testbit_shift_byte b n :
  1 <= n < 8 -> Z.testbit (wrap8 (Z.shiftl b 1)) n = Z.testbit b (n - 1).
Proof.
  intros Hn. unfold wrap8.
  rewrite Z.mod_pow2_bits_low, Z.shiftl_spec by lia. reflexivity.
Qed.

Lemma down_from_shift b hi k :
  Z.of_nat k <= hi < 8 ->
  map (fun j => Z.b2z (Z.testbit (wrap8 (Z.shiftl b 1)) j)) (down_from hi k) =
  map (fun j => Z.b2z (Z.testbit b j)) (down_from (hi - 1) k).
Proof.
  revert hi; induction k as [|k IH]; intros hi Hhi; [reflexivity|].
  cbn [down_from map]. rewrite testbit_shift_byte by lia.
  rewrite IH by lia. reflexivity.
Qed.

Lemma i2c_write_byte_loop_bits k i b m :
  0 <= i <= 8 -> k = Z.to_nat (8 - i) ->
  i2c_write_byte_loop i b m =
  write_bits (map (fun j => Z.b2z (Z.testbit b j)) (down_from 7 k)) m.
Proof.
  revert i b m; induction k as [|k IH]; intros i b m Hi Hk.
  - rewrite i2c_write_byte_loop_eq.
    replace (i <? 8) with false by (symmetry; apply Z.ltb_ge; lia).
    reflexivity.
  - rewrite i2c_write_byte_loop_eq.
    replace (i <? 8) with true by (symmetry; apply Z.ltb_lt; lia).
    cbn [down_from map write_bits]. unfold bind.
    replace (wrap8 (i + 1)) with (i + 1)
      by (unfold wrap8; rewrite Z.mod_small; lia).
    rewrite (IH (i + 1)) by lia.
    rewrite down_from_shift by lia.
    rewrite msb_of_byte. reflexivity.
Qed.

(** The loop sends the eight bits of the byte, most significant first. *)
Lemma i2c_write_byte_loop_unrolled b m :
  i2c_write_byte_loop 0 b m = write_bits (map Z.b2z (msb_first b)) m.
Proof.
  rewrite (i2c_write_byte_loop_bits 8 0) by (reflexivity || lia).
  reflexivity.
Qed.

(** ** Transmitting a byte *)

Lemma faithful_write_bits bs : faithful (write_bits bs).
Proof. induction bs; cbn [write_bits]; fw. Qed.

Lemma silent_write_bits bs : silent (write_bits bs).
Proof. induction bs; cbn [write_bits]; fw. Qed.

Lemma keeps_write_bits I bs :
  (forall b, keeps I (i2c_write_bit b)) -> keeps I (write_bits bs).
Proof. intros Hb. induction bs; cbn [write_bits]; fw. Qed.

Lemma truthy_b2z b : truthy (Z.b2z b) = b.
Proof. destruct b; reflexivity. Qed.

Lemma write_bits_decode bs m :
  pin (regs m) SCL = DrivenLow ->
  decode (regs m, None) (trace (write_bits (map Z.b2z bs) m)) =
    map SymBit bs /\
  probe_after (regs m, None) (trace (write_bits (map Z.b2z bs) m)) =
    (regs (final (write_bits (map Z.b2z bs) m)), None) /\
  pin (regs (final (write_bits (map Z.b2z bs) m))) SCL = DrivenLow.
Proof.
  revert m; induction bs as [|b bs IH]; intros m Hc.
  - cbn. auto.
  - cbn [map write_bits].
    destruct (i2c_write_bit_decode (Z.b2z b) m None Hc) as [Hd Hp].
    destruct (i2c_write_bit_pins (Z.b2z b) m) as [Hc' _].
    destruct (IH _ Hc') as (IHd & IHp & IHc).
    rewrite trace_bind, final_bind, decode_app, probe_after_app, Hd, Hp.
    rewrite truthy_b2z, IHd, IHp. auto.
Qed.

Lemma i2c_write_byte_unrolled b m :
  i2c_write_byte b m =
  (write_bits (map Z.b2z (msb_first b)) ;; i2c_read_ack) m.
Proof.
  unfold i2c_write_byte, bind. rewrite i2c_write_byte_loop_unrolled.
  reflexivity.
Qed.

Lemma faithful_i2c_write_byte b : faithful (i2c_write_byte b).
Proof.
  intros m. rewrite i2c_write_byte_unrolled. revert m.
  change (faithful (write_bits (map Z.b2z (msb_first b)) ;; i2c_read_ack)).
  pose proof faithful_write_bits. fw.
Qed.

Lemma keeps_i2c_write_byte I b :
  (forall x, keeps I (i2c_write_bit x)) -> keeps I i2c_read_ack ->
  keeps I (i2c_write_byte b).
Proof.
  intros Hb Ha m. rewrite i2c_write_byte_unrolled. revert m.
  change (keeps I (write_bits (map Z.b2z (msb_first b)) ;; i2c_read_ack)).
  pose proof faithful_write_bits. pose proof (keeps_write_bits I).
  fw.
Qed.

Lemma ack_at_0 m : ack_at m 0 = negb (Z.testbit (p2in m (reads m)) SDA).
Proof. unfold ack_at. rewrite Nat.add_0_r. reflexivity. Qed.

Lemma i2c_write_byte_spec b m :
  pin (regs m) SCL = DrivenLow ->
  decode (regs m, None) (trace (i2c_write_byte b m)) =
    map SymBit (msb_first b) ++ [SymBit (negb (ack_at m 0))] /\
  probe_after (regs m, None) (trace (i2c_write_byte b m)) =
    (regs (final (i2c_write_byte b m)), None) /\
  pin (regs (final (i2c_write_byte b m))) SCL = DrivenLow.
Proof.
  intros Hc. rewrite i2c_write_byte_unrolled.
  destruct (write_bits_decode (msb_first b) m Hc) as (Hd & Hp & Hc').
  destruct (i2c_read_ack_decode _ None Hc') as [Hd' Hp'].
  destruct (silent_write_bits (map Z.b2z (msb_first b)) m) as [Hi Hr].
  rewrite trace_bind, final_bind, decode_app, probe_after_app, Hd, Hp.
  rewrite Hd', Hp', Hi, Hr, ack_at_0, Bool.negb_involutive.
  repeat split. apply i2c_read_ack_pins.
Qed.

Lemma i2c_write_byte_oracle b m :
  p2in (final (i2c_write_byte b m)) = p2in m /\
  reads (final (i2c_write_byte b m)) = S (reads m) /\
  value (i2c_write_byte b m) = Z.b2z (ack_at m 0).
Proof.
  rewrite i2c_write_byte_unrolled, final_bind, value_bind.
  destruct (silent_write_bits (map Z.b2z (msb_first b)) m) as [Hi Hr].
  destruct (i2c_read_ack_oracle (final (write_bits (map Z.b2z (msb_first b)) m)))
    as (Hi' & Hr' & Hv).
  rewrite Hi', Hr', Hv, Hi, Hr, ack_at_0. auto.
Qed.

(** ** Bytes on the analyser *)

Lemma byte_of_msb_first c :
  0 <= c < 256 -> byte_of_bits 0 (msb_first c) = c.
Proof.
  intros Hc.
  assert (forallb (fun n => byte_of_bits 0 (msb_first (Z.of_nat n)) =? Z.of_nat n)
            (seq 0 256) = true) as Hall by (vm_compute; reflexivity).
  rewrite forallb_forall in Hall. specialize (Hall (Z.to_nat c)).
  rewrite Z2Nat.id in Hall by lia. apply Z.eqb_eq, Hall, in_seq. lia.
Qed.

Lemma frames_byte c s rest :
  frames [] (map SymBit (msb_first c) ++ SymBit s :: rest) =
  BusByte (byte_of_bits 0 (msb_first c)) (negb s) :: frames [] rest.
Proof. reflexivity. Qed.

(** ** The three paths through [oled_write] *)

Lemma ack_at_silent {A} (c : M A) m k :
  silent c -> ack_at (final (c m)) k = ack_at m k.
Proof. intros Hc. unfold ack_at. destruct (Hc m) as [-> ->]. reflexivity. Qed.

Lemma ack_at_write_byte b m k :
  ack_at (final (i2c_write_byte b m)) k = ack_at m (S k).
Proof.
  unfold ack_at. destruct (i2c_write_byte_oracle b m) as (-> & -> & _).
  rewrite Nat.add_succ_r. reflexivity.
Qed.

Lemma value_write_byte b m : value (i2c_write_byte b m) = Z.b2z (ack_at m 0).
Proof. apply i2c_write_byte_oracle. Qed.

Lemma truthy_lognot_b2z a : truthy (lognot (Z.b2z a)) = negb a.
Proof. destruct a; reflexivity. Qed.

Lemma run_ext {A} (a b : run A) :
  value a = value b -> final a = final b -> trace a = trace b -> a = b.
Proof. destruct a, b; cbn; intros -> -> ->; reflexivity. Qed.

Lemma ack_at_start m k : ack_at (final (i2c_start m)) k = ack_at m k.
Proof. apply ack_at_silent. fw. Qed.

Create Rewrite HintDb binds.
#[local] Hint Rewrite @trace_bind @final_bind @value_bind
  value_write_byte truthy_lognot_b2z ack_at_write_byte ack_at_start : binds.

Ltac path H0 H1 :=
  unfold oled_write; apply run_ext;
  repeat (progress (autorewrite with binds; rewrite ?H0, ?H1; cbn [negb]));
  reflexivity.

Lemma oled_write_nack_address control data m :
  ack_at m 0 = false ->
  oled_write control data m =
  (i2c_start ;; i2c_write_byte SSD1315_ADDR_WRITE ;; i2c_stop ;; ret 0) m.
Proof. intros H0. path H0 H0. Qed.

Lemma oled_write_nack_control control data m :
  ack_at m 0 = true -> ack_at m 1 = false ->
  oled_write control data m =
  (i2c_start ;; i2c_write_byte SSD1315_ADDR_WRITE ;;
   i2c_write_byte control ;; i2c_stop ;; ret 0) m.
Proof. intros H0 H1. path H0 H1. Qed.

Lemma oled_write_acked control data m :
  ack_at m 0 = true -> ack_at m 1 = true ->
  oled_write control data m =
  (i2c_start ;; i2c_write_byte SSD1315_ADDR_WRITE ;;
   i2c_write_byte control ;;
   ok <- i2c_write_byte data ;;
   led_update ok ;;
   i2c_stop ;; ret ok) m.
Proof. intros H0 H1. path H0 H1. Qed.

(** ** The transfer on the bus *)

Lemma decode_step_still r l x v :
  pin (upd r x v) SCL = pin r SCL -> pin (upd r x v) SDA = pin r SDA ->
  decode_step (r, l) (EvWrite x v) = ((upd r x v, l), []).
Proof.
  intros Hc Hd. unfold decode_step. rewrite Hc, Hd.
  destruct (high (pin r SCL)), (high (pin r SDA)), l; reflexivity.
Qed.

Lemma decode_bind {A B} (c : M A) (k : A -> M B) m l out l' :
  decode (regs m, l) (trace (c m)) = out ->
  probe_after (regs m, l) (trace (c m)) = (regs (final (c m)), l') ->
  decode (regs m, l) (trace (bind c k m)) =
  out ++ decode (regs (final (c m)), l') (trace (k (value (c m)) (final (c m)))).
Proof. intros Hd Hp. rewrite trace_bind, decode_app, Hd, Hp. reflexivity. Qed.

Lemma probe_bind {A B} (c : M A) (k : A -> M B) m l l' :
  probe_after (regs m, l) (trace (c m)) = (regs (final (c m)), l') ->
  probe_after (regs m, l) (trace (bind c k m)) =
  probe_after (regs (final (c m)), l')
    (trace (k (value (c m)) (final (c m)))).
Proof. intros Hp. rewrite trace_bind, probe_after_app, Hp. reflexivity. Qed.

Lemma led_update_decode ok m l :
  decode (regs m, l) (trace (led_update ok m)) = [] /\
  probe_after (regs m, l) (trace (led_update ok m)) =
    (regs (final (led_update ok m)), l).
Proof.
  unfold led_update.
  destruct (truthy ok); cbn [or_assign and_assign bind load store trace final
    value regs app decode probe_after fold_left];
    rewrite decode_step_still by (apply pin_other; discriminate);
    split; reflexivity.
Qed.

Lemma led_update_pin ok m n :
  pin (regs (final (led_update ok m))) n = pin (regs m) n.
Proof.
  unfold led_update. destruct (truthy ok); apply pin_other; discriminate.
Qed.

Lemma frames_start rest : frames [] (SymStart :: rest) = BusStart :: frames [] rest.
Proof. reflexivity. Qed.

Lemma frames_stop rest : frames [] (SymStop :: rest) = BusStop :: frames [] rest.
Proof. reflexivity. Qed.

Ltac frame_up :=
  repeat (rewrite <- ?app_assoc; cbn [app];
          first [rewrite frames_start | rewrite frames_byte
                | rewrite frames_stop]);
  rewrite ?Bool.negb_involutive, ?byte_of_msb_first by (assumption || lia);
  cbn [frames flush].

Ltac transfer_step :=
  match goal with
  | Hc : pin (regs ?m') SCL = DrivenLow
    |- context [trace (bind (i2c_write_byte ?b) _ ?m')] =>
      let Hd := fresh "Hd" in let Hp := fresh "Hp" in let Hc' := fresh "Hc" in
      destruct (i2c_write_byte_spec b m' Hc) as (Hd & Hp & Hc');
      rewrite (decode_bind _ _ _ _ _ _ Hd Hp),
              (probe_bind _ _ _ _ _ Hp);
      clear Hd Hp Hc; cbv beta
  | Hc : pin (regs ?m') SCL = DrivenLow
    |- context [trace (bind (led_update ?ok) _ ?m')] =>
      let Hd := fresh "Hd" in let Hp := fresh "Hp" in let Hc' := fresh "Hc" in
      destruct (led_update_decode ok m' None) as [Hd Hp];
      pose proof (led_update_pin ok m' SCL) as Hc';
      rewrite Hc in Hc';
      rewrite (decode_bind _ _ _ _ _ _ Hd Hp),
              (probe_bind _ _ _ _ _ Hp);
      clear Hd Hp Hc; cbv beta
  | Hc : pin (regs ?m') SCL = DrivenLow
    |- context [trace (bind i2c_stop _ ?m')] =>
      let Hd := fresh "Hd" in let Hp := fresh "Hp" in
      destruct (i2c_stop_decode m' None Hc) as [Hd Hp];
      rewrite (decode_bind _ _ _ _ _ _ Hd Hp),
              (probe_bind _ _ _ _ _ Hp);
      clear Hd Hp Hc; cbv beta
  end.

Ltac transfer_done :=
  autorewrite with binds; rewrite ?trace_ret, ?final_ret;
  cbn [decode probe_after fold_left];
  rewrite <- ?app_assoc, ?app_nil_r; cbn [app];
  split; reflexivity.

(** What the analyser decodes of a transfer, and where it is left. *)
Lemma oled_write_decode control data m :
  bus_released (regs m) ->
  decode (regs m, None) (trace (oled_write control data m)) =
    transfer_syms control data (ack_at m 0) (ack_at m 1) (ack_at m 2) /\
  probe_after (regs m, None) (trace (oled_write control data m)) =
    (regs (final (oled_write control data m)), None).
Proof.
  intros Hidle.
  destruct (i2c_start_decode m None Hidle) as [Hd0 Hp0].
  destruct (i2c_start_pins m) as [Hc1 _].
  unfold transfer_syms, byte_syms.
  destruct (ack_at m 0) eqn:H0; [destruct (ack_at m 1) eqn:H1|].
  - rewrite oled_write_acked by assumption.
    rewrite (decode_bind _ _ _ _ _ _ Hd0 Hp0), (probe_bind _ _ _ _ _ Hp0).
    cbv beta. repeat transfer_step.
    rewrite !ack_at_write_byte, !ack_at_start, H0, H1.
    transfer_done.
  - rewrite oled_write_nack_control by assumption.
    rewrite (decode_bind _ _ _ _ _ _ Hd0 Hp0), (probe_bind _ _ _ _ _ Hp0).
    cbv beta. repeat transfer_step.
    rewrite !ack_at_write_byte, !ack_at_start, H0, H1.
    transfer_done.
  - rewrite oled_write_nack_address by assumption.
    rewrite (decode_bind _ _ _ _ _ _ Hd0 Hp0), (probe_bind _ _ _ _ _ Hp0).
    cbv beta. repeat transfer_step.
    rewrite ?ack_at_write_byte, !ack_at_start, H0.
    transfer_done.
Qed.

Lemma frames_transfer control data a0 a1 a2 rest :
  0 <= control < 256 -> 0 <= data < 256 ->
  frames [] (transfer_syms control data a0 a1 a2 ++ rest) =
  transfer_view control data a0 a1 a2 ++ frames [] rest.
Proof.
  intros Hctl Hdat. unfold transfer_syms, transfer_view, byte_syms.
  destruct a0, a1; frame_up; reflexivity.
Qed.

Lemma bus_oled_write control data m :
  0 <= control < 256 -> 0 <= data < 256 -> bus_released (regs m) ->
  bus (regs m) (trace (oled_write control data m)) =
  transfer_view control data (ack_at m 0) (ack_at m 1) (ack_at m 2).
Proof.
  intros Hctl Hdat Hidle. unfold bus.
  destruct (oled_write_decode control data m Hidle) as [-> _].
  rewrite <- (app_nil_r (transfer_syms _ _ _ _ _)).
  rewrite frames_transfer by assumption. apply app_nil_r.
Qed.

(** ** Stores to a given register *)

Lemma avoids_ret x {A} (a : A) : avoids x (ret a).
Proof. intros m; reflexivity. Qed.

Lemma avoids_bind x {A B} (c : M A) (k : A -> M B) :
  avoids x c -> (forall a, avoids x (k a)) -> avoids x (bind c k).
Proof.
  intros Hc Hk m. rewrite trace_bind, writes_to_app, Hc, Hk. reflexivity.
Qed.

Lemma avoids_if x {A} (b : bool) (c1 c2 : M A) :
  avoids x c1 -> avoids x c2 -> avoids x (if b then c1 else c2).
Proof. destruct b; auto. Qed.

Lemma avoids_load x r : avoids x (load r).
Proof. intros m; reflexivity. Qed.

Lemma avoids_load_P2IN x : avoids x load_P2IN.
Proof. intros m; reflexivity. Qed.

Lemma avoids_delay_cycles x n : avoids x (__delay_cycles n).
Proof. intros m; reflexivity. Qed.

Lemma avoids_store x r v : reg_eqb x r = false -> avoids x (store r v).
Proof. intros Hr m. cbn. rewrite Hr. reflexivity. Qed.

Lemma avoids_times x k body : avoids x body -> avoids x (times k body).
Proof.
  intros Hb. induction k; cbn [times];
    auto using avoids_ret, avoids_bind.
Qed.

Lemma avoids_while x n body : avoids x body -> avoids x (while_postdec n body).
Proof. intros Hb m. rewrite while_postdec_times. apply avoids_times, Hb. Qed.

Lemma avoids_write_bits x bs :
  (forall b, avoids x (i2c_write_bit b)) -> avoids x (write_bits bs).
Proof.
  intros Hb. induction bs; cbn [write_bits];
    auto using avoids_ret, avoids_bind.
Qed.

#[local] Hint Resolve avoids_ret avoids_bind avoids_if avoids_load
  avoids_load_P2IN avoids_delay_cycles avoids_times avoids_while : fw.
#[local] Hint Extern 1 (avoids _ (store _ _)) =>
  apply avoids_store; reflexivity : fw.

Ltac avoids_tac :=
  unfold i2c_start, i2c_stop, i2c_idle, i2c_write_bit, i2c_read_ack,
    SDA_low, SDA_release, SCL_low, SCL_release, SDA_read, delay_short,
    and_assign, or_assign, OLED_PORT_OUT, OLED_PORT_DIR, OLED_PORT_REN;
  eauto 40 with fw.

Lemma avoids_P3OUT_i2c_start : avoids P3OUT i2c_start.
Proof. avoids_tac. Qed.
Lemma avoids_P3OUT_i2c_stop : avoids P3OUT i2c_stop.
Proof. avoids_tac. Qed.
Lemma avoids_P3OUT_i2c_write_bit b : avoids P3OUT (i2c_write_bit b).
Proof. avoids_tac. Qed.
Lemma avoids_P3OUT_i2c_read_ack : avoids P3OUT i2c_read_ack.
Proof. avoids_tac. Qed.

Lemma avoids_P3OUT_i2c_write_byte b : avoids P3OUT (i2c_write_byte b).
Proof.
  intros m. rewrite i2c_write_byte_unrolled. revert m.
  apply avoids_bind.
  - apply avoids_write_bits, avoids_P3OUT_i2c_write_bit.
  - intros _. apply avoids_P3OUT_i2c_read_ack.
Qed.

#[local] Hint Resolve avoids_P3OUT_i2c_start avoids_P3OUT_i2c_stop
  avoids_P3OUT_i2c_write_byte : fw.

Lemma replay_untouched x r t : writes_to x t = [] -> replay r t x = r x.
Proof.
  revert r; induction t as [|e t IH]; intros r Hw; [reflexivity|].
  destruct e as [y v| |]; cbn [replay fold_left apply_event] in *;
    try (apply IH; exact Hw).
  unfold writes_to in Hw. cbn [filter] in Hw.
  destruct (reg_eqb x y) eqn:E; [discriminate|].
  fold (replay (upd r y v) t). rewrite IH by exact Hw.
  unfold upd. destruct x, y; try discriminate; reflexivity.
Qed.

#[local] Hint Resolve faithful_i2c_write_byte : fw.

Lemma faithful_oled_write control data : faithful (oled_write control data).
Proof. unfold oled_write, and_assign, or_assign. fw. Qed.

Lemma led_update_run ok m :
  led_update ok m =
  let v := if truthy ok
           then Z.lor (regs m P3OUT) BIT4 mod 2 ^ 8
           else Z.land (regs m P3OUT) (lognot BIT4) mod 2 ^ 8 in
  Run tt (Machine (upd (regs m) P3OUT v) (p2in m) (reads m)) [EvWrite P3OUT v].
Proof. unfold led_update. destruct (truthy ok); reflexivity. Qed.

(** * The I2C layer and the display driver *)

Lemma value_oled_write control data m :
  value (oled_write control data m) =
  if ack_at m 0 then if ack_at m 1 then Z.b2z (ack_at m 2) else 0 else 0.
Proof.
  destruct (ack_at m 0) eqn:H0; [destruct (ack_at m 1) eqn:H1|].
  - rewrite oled_write_acked by assumption.
    autorewrite with binds. reflexivity.
  - rewrite oled_write_nack_control by assumption.
    autorewrite with binds. reflexivity.
  - rewrite oled_write_nack_address by assumption.
    autorewrite with binds. reflexivity.
Qed.

(** C1: for every control and payload byte, [oled_write] runs START, the
    address byte 0x78, then, if the address was not acknowledged, STOP,
    returning 0 with nothing more sent; otherwise the control byte, then, if
    it was not acknowledged, STOP, returning 0; otherwise the payload byte,
    the LED store and STOP, returning the acknowledge of the payload byte.
    Started on a released bus the transfer shows on the bus as exactly
    these symbols, with one START and one STOP on each path. *)
Theorem oled_write_transfer control data m :
  0 <= control < 256 -> 0 <= data < 256 -> bus_released (regs m) ->
  let view := bus (regs m) (trace (oled_write control data m)) in
  oled_write control data m =
    (if ack_at m 0 then
       if ack_at m 1 then
         (i2c_start ;; i2c_write_byte SSD1315_ADDR_WRITE ;;
          i2c_write_byte control ;;
          ok <- i2c_write_byte data ;; led_update ok ;; i2c_stop ;; ret ok) m
       else
         (i2c_start ;; i2c_write_byte SSD1315_ADDR_WRITE ;;
          i2c_write_byte control ;; i2c_stop ;; ret 0) m
     else
       (i2c_start ;; i2c_write_byte SSD1315_ADDR_WRITE ;;
        i2c_stop ;; ret 0) m) /\
  view =
    (if ack_at m 0 then
       if ack_at m 1 then
         [BusStart; BusByte 0x78 true; BusByte control true;
          BusByte data (ack_at m 2); BusStop]
       else [BusStart; BusByte 0x78 true; BusByte control false; BusStop]
     else [BusStart; BusByte 0x78 false; BusStop]) /\
  value (oled_write control data m) =
    (if ack_at m 0 then if ack_at m 1 then Z.b2z (ack_at m 2) else 0 else 0) /\
  length (filter is_start view) = 1%nat /\
  length (filter is_stop view) = 1%nat.
Proof.
  intros Hctl Hdat Hidle view.
  assert (view =
    transfer_view control data (ack_at m 0) (ack_at m 1) (ack_at m 2))
    as Hview by (apply bus_oled_write; assumption).
  split.
  { destruct (ack_at m 0) eqn:H0; [destruct (ack_at m 1) eqn:H1|].
    - apply oled_write_acked; assumption.
    - apply oled_write_nack_control; assumption.
    - apply oled_write_nack_address; assumption. }
  split; [exact Hview|]. split; [apply value_oled_write|].
  rewrite Hview. destruct (ack_at m 0), (ack_at m 1); split; reflexivity.
Qed.

Lemma oled_write_transfer_witness :
  bus (regs (machine_at_rest always_ack))
      (trace (oled_write 0x00 0xAF (machine_at_rest always_ack))) =
  [BusStart; BusByte 0x78 true; BusByte 0x00 true; BusByte 0xAF true; BusStop].
Proof.
  exact (proj1 (proj2 (oled_write_transfer 0x00 0xAF
                         (machine_at_rest always_ack)
                         ltac:(lia) ltac:(lia) ltac:(split; reflexivity)))).
Defined.

(** C3 fails on the code: when the payload byte is not acknowledged the
    store [P3OUT &= !BIT4] writes zero to the whole register, so bit 0 of
    P3OUT, which was set, is cleared by the write operation. *)
Theorem oled_write_nack_clears_other_p3_bits :
  Z.testbit (regs machine_p3_bit0 P3OUT) 0 = true /\
  value (oled_write 0x00 0xA5 machine_p3_bit0) = 0 /\
  regs (final (oled_write 0x00 0xA5 machine_p3_bit0)) P3OUT = 0 /\
  Z.testbit (regs (final (oled_write 0x00 0xA5 machine_p3_bit0)) P3OUT) 0
    = false.
Proof. vm_compute. repeat split; reflexivity. Qed.

(** What the LED store does in general: on ACK it sets bit 4 and keeps every
    other bit of P3OUT; on NACK it clears the whole register. *)
Lemma led_update_effect ok m :
  regs (final (led_update ok m)) P3OUT =
  if truthy ok then Z.lor (regs m P3OUT) BIT4 mod 2 ^ 8 else 0.
Proof.
  rewrite led_update_run. cbn [final regs upd reg_eqb].
  destruct (truthy ok); [reflexivity|].
  change (lognot BIT4) with 0. rewrite Z.land_0_r. reflexivity.
Qed.

(** Whatever P3OUT holds, a payload byte that is not acknowledged leaves
    the whole register at zero. *)
Lemma oled_write_payload_nack_zeroes_p3out control data m :
  ack_at m 0 = true -> ack_at m 1 = true -> ack_at m 2 = false ->
  regs (final (oled_write control data m)) P3OUT = 0.
Proof.
  intros H0 H1 H2. rewrite oled_write_acked by assumption.
  autorewrite with binds. rewrite final_ret.
  rewrite faithful_i2c_stop, replay_untouched by apply avoids_P3OUT_i2c_stop.
  rewrite led_update_effect, truthy_b2z, H2. reflexivity.
Qed.

(** When all three bytes have been sent the LED bit of P3OUT is the
    acknowledge of the payload byte. *)
Lemma oled_write_led_reflects_ack control data m :
  ack_at m 0 = true -> ack_at m 1 = true ->
  Z.testbit (regs (final (oled_write control data m)) P3OUT) LED = ack_at m 2.
Proof.
  intros H0 H1. rewrite oled_write_acked by assumption.
  autorewrite with binds. rewrite final_ret.
  rewrite faithful_i2c_stop, replay_untouched by apply avoids_P3OUT_i2c_stop.
  rewrite led_update_effect, truthy_b2z.
  destruct (ack_at m 2); [|reflexivity].
  rewrite Z.mod_pow2_bits_low, Z.lor_spec by (unfold LED; lia).
  apply Bool.orb_true_r.
Qed.

(** C4: started with both lines released, [i2c_start] pulls SDA low while
    SCL is still released and only then pulls SCL low; started with SCL low,
    [i2c_stop] has SDA low, then releases SCL, and only then releases SDA.
    A delay of 100 cycles follows each edge. *)
Theorem i2c_start_stop_order m1 m2 :
  bus_released (regs m1) ->
  pin (regs m2) SCL = DrivenLow ->
  wave (regs m1) (trace (i2c_start m1)) =
    [Gap 100; Lines Released DrivenLow;
     Gap 100; Lines DrivenLow DrivenLow;
     Gap 100] /\
  wave (regs m2) (trace (i2c_stop m2)) =
    (if level_eqb (pin (regs m2) SDA) DrivenLow then []
     else [Lines DrivenLow DrivenLow]) ++
    [Gap 100; Lines Released DrivenLow;
     Gap 100; Lines Released Released;
     Gap 100].
Proof.
  intros [Hc Hd] Hc2. split.
  - unfold i2c_start. rewrite !trace_bind.
    repeat (rewrite wave_app;
            rewrite <- ?faithful_SDA_release, <- ?faithful_SCL_release,
                    <- ?faithful_SDA_low, <- ?faithful_SCL_low,
                    <- ?faithful_delay_short).
    rewrite wave_SDA_release, wave_SCL_release, wave_SDA_low, wave_SCL_low.
    autorewrite with i2c. rewrite Hc, Hd. reflexivity.
  - unfold i2c_stop. rewrite !trace_bind.
    repeat (rewrite wave_app;
            rewrite <- ?faithful_SDA_release, <- ?faithful_SCL_release,
                    <- ?faithful_SDA_low, <- ?faithful_SCL_low,
                    <- ?faithful_delay_short).
    rewrite wave_SDA_release, wave_SCL_release, wave_SDA_low.
    autorewrite with i2c. rewrite Hc2.
    destruct (pin (regs m2) SDA); reflexivity.
Qed.

Lemma i2c_start_stop_order_witness :
  wave (regs (machine_at_rest always_ack))
       (trace (i2c_start (machine_at_rest always_ack))) =
    [Gap 100; Lines Released DrivenLow;
     Gap 100; Lines DrivenLow DrivenLow;
     Gap 100] /\
  wave (regs machine_after_ack) (trace (i2c_stop machine_after_ack)) =
    [Lines DrivenLow DrivenLow;
     Gap 100; Lines Released DrivenLow;
     Gap 100; Lines Released Released;
     Gap 100].
Proof.
  exact (i2c_start_stop_order (machine_at_rest always_ack) machine_after_ack
           ltac:(split; reflexivity) ltac:(reflexivity)).
Defined.

(** C5: [i2c_write_byte] performs exactly eight write-bit operations, on
    bits 7 down to 0 of the byte in this order, then one read-ack whose
    result it returns; read-ack returns 1 exactly when the SDA bit of P2IN,
    sampled after SCL has been released and before it is pulled low again,
    is 0. *)
Theorem i2c_write_byte_msb_first b m :
  i2c_write_byte b m =
    (write_bits (map Z.b2z (msb_first b)) ;; i2c_read_ack) m /\
  length (msb_first b) = 8%nat /\
  (value (i2c_read_ack m) = 1 <-> Z.testbit (p2in m (reads m)) SDA = false) /\
  exists pre post,
    trace (i2c_read_ack m) = pre ++ EvSample (p2in m (reads m)) :: post /\
    pin (replay (regs m) pre) SCL = Released /\
    wave (replay (regs m) pre) post = [Lines DrivenLow Released; Gap 100].
Proof.
  split; [apply i2c_write_byte_unrolled|]. split; [reflexivity|]. split.
  - destruct (i2c_read_ack_oracle m) as (_ & _ & ->).
    destruct (Z.testbit _ _); cbn; split; congruence.
  - exists (trace ((SDA_release ;; delay_short ;; SCL_release ;; delay_short) m)).
    exists (trace ((SCL_low ;; delay_short)
                     (final ((SDA_release ;; delay_short ;;
                              SCL_release ;; delay_short) m)))).
    split; [|split].
    + unfold i2c_read_ack. autorewrite with binds.
      rewrite trace_SDA_read, !trace_ret, app_nil_r, <- !app_assoc.
      reflexivity.
    + rewrite <- (faithful_bind SDA_release) by fw.
      autorewrite with i2c. reflexivity.
    + rewrite <- (faithful_bind SDA_release) by fw.
      rewrite trace_bind, wave_app, wave_SCL_low.
      autorewrite with i2c. reflexivity.
Qed.

Lemma writes_to_led_update ok m :
  length (writes_to P3OUT (trace (led_update ok m))) = 1%nat.
Proof. rewrite led_update_run. reflexivity. Qed.

Lemma avoids_P3OUT_nack_address :
  avoids P3OUT (i2c_start ;; i2c_write_byte SSD1315_ADDR_WRITE ;;
                i2c_stop ;; ret 0).
Proof. fw. Qed.

Lemma avoids_P3OUT_nack_control control :
  avoids P3OUT (i2c_start ;; i2c_write_byte SSD1315_ADDR_WRITE ;;
                i2c_write_byte control ;; i2c_stop ;; ret 0).
Proof. fw. Qed.

Lemma oled_write_aborted_trace control data m :
  ack_at m 0 && ack_at m 1 = false ->
  writes_to P3OUT (trace (oled_write control data m)) = [].
Proof.
  intros Hab.
  destruct (ack_at m 0) eqn:H0; [destruct (ack_at m 1) eqn:H1|];
    try discriminate.
  - rewrite oled_write_nack_control by assumption.
    apply avoids_P3OUT_nack_control.
  - rewrite oled_write_nack_address by assumption.
    apply avoids_P3OUT_nack_address.
Qed.

Lemma oled_write_acked_trace control data m :
  ack_at m 0 = true -> ack_at m 1 = true ->
  length (writes_to P3OUT (trace (oled_write control data m))) = 1%nat.
Proof.
  intros H0 H1.
  rewrite oled_write_acked by assumption.
  autorewrite with binds. rewrite !writes_to_app.
  rewrite avoids_P3OUT_i2c_start, !avoids_P3OUT_i2c_write_byte,
          avoids_P3OUT_i2c_stop.
  cbn [app]. rewrite app_nil_r. apply writes_to_led_update.
Qed.

(** C9: when the address byte or the control byte is not acknowledged,
    [oled_write] returns 0, its trace holds no store to P3OUT, and P3OUT is
    what it was; when both are acknowledged its trace holds exactly one
    store to P3OUT. *)
Theorem oled_write_abort_leaves_led control data m :
  let r := oled_write control data m in
  if ack_at m 0 && ack_at m 1
  then length (writes_to P3OUT (trace r)) = 1%nat
  else value r = 0 /\
       writes_to P3OUT (trace r) = [] /\
       regs (final r) P3OUT = regs m P3OUT.
Proof.
  intros r. subst r.
  destruct (ack_at m 0 && ack_at m 1) eqn:Hab.
  - apply andb_prop in Hab as [H0 H1].
    apply oled_write_acked_trace; assumption.
  - split; [|split].
    + rewrite value_oled_write.
      destruct (ack_at m 0), (ack_at m 1); try discriminate; reflexivity.
    + apply oled_write_aborted_trace, Hab.
    + rewrite faithful_oled_write.
      apply replay_untouched, oled_write_aborted_trace, Hab.
Qed.

(** * The bring-up sequence *)

(** ** The stores to port 2 outside the bus helpers *)

Lemma pin_dir_set r k n :
  0 <= k -> 0 <= n < 8 ->
  pin (upd r P2DIR (bset (r P2DIR) k)) n =
  if n =? k
  then if Z.testbit (r P2OUT) k then DrivenHigh else DrivenLow
  else pin r n.
Proof.
  intros Hk Hn. unfold pin, upd. cbn [reg_eqb].
  rewrite testbit_bset by lia.
  destruct (Z.eqb_spec n k) as [->|Hne].
  - rewrite Bool.orb_true_r. reflexivity.
  - rewrite Bool.orb_false_r. reflexivity.
Qed.

Lemma pin_out_clear_all r n :
  0 <= n < 3 ->
  pin (upd r P2OUT (Z.land (r P2OUT) (Z.lnot 7) mod 2 ^ 8)) n =
  lowered (pin r n).
Proof.
  intros Hn. unfold pin, upd. cbn [reg_eqb].
  rewrite Z.mod_pow2_bits_low, Z.land_spec, Z.lnot_spec by lia.
  assert (Z.testbit 7 n = true) as ->.
  { assert (n = 0 \/ n = 1 \/ n = 2) as [->|[->| ->]] by lia; reflexivity. }
  rewrite Bool.andb_false_r.
  destruct (Z.testbit (r P2DIR) n), (Z.testbit (r P2OUT) n); reflexivity.
Qed.

Lemma out_clear_all_run m :
  and_assign OLED_PORT_OUT
    (Z.lnot (Z.lor (Z.lor OLED_SCL_BIT OLED_SDA_BIT) OLED_RES_BIT)) m =
  let v := Z.land (regs m P2OUT) (Z.lnot 7) mod 2 ^ 8 in
  Run tt (Machine (upd (regs m) P2OUT v) (p2in m) (reads m)) [EvWrite P2OUT v].
Proof. reflexivity. Qed.

Lemma res_dir_run m :
  or_assign OLED_PORT_DIR OLED_RES_BIT m =
  let v := bset (regs m P2DIR) RES in
  Run tt (Machine (upd (regs m) P2DIR v) (p2in m) (reads m)) [EvWrite P2DIR v].
Proof. reflexivity. Qed.

Lemma res_set_run m :
  or_assign OLED_PORT_OUT OLED_RES_BIT m =
  let v := bset (regs m P2OUT) RES in
  Run tt (Machine (upd (regs m) P2OUT v) (p2in m) (reads m)) [EvWrite P2OUT v].
Proof. reflexivity. Qed.

Lemma res_clear_run m :
  and_assign OLED_PORT_OUT (Z.lnot OLED_RES_BIT) m =
  let v := bclr (regs m P2OUT) RES in
  Run tt (Machine (upd (regs m) P2OUT v) (p2in m) (reads m)) [EvWrite P2OUT v].
Proof. reflexivity. Qed.

(** Each of these four stores leaves the levels of SCL and SDA where they
    were, except that clearing the output bits turns a line that was driven
    high into one driven low. *)
Lemma bus_pins_out_clear_all m n :
  1 <= n < 3 ->
  pin (regs (final (and_assign OLED_PORT_OUT
    (Z.lnot (Z.lor (Z.lor OLED_SCL_BIT OLED_SDA_BIT) OLED_RES_BIT)) m))) n =
  lowered (pin (regs m) n).
Proof.
  intros Hn. rewrite out_clear_all_run. apply pin_out_clear_all. lia.
Qed.

Lemma bus_pins_res_dir m n :
  1 <= n < 3 ->
  pin (regs (final (or_assign OLED_PORT_DIR OLED_RES_BIT m))) n = pin (regs m) n.
Proof.
  intros Hn. rewrite res_dir_run. cbn [final regs].
  rewrite pin_dir_set by pin_index.
  replace (n =? RES) with false; [reflexivity|].
  symmetry. apply Z.eqb_neq. unfold RES. lia.
Qed.

Lemma bus_pins_res_set m n :
  1 <= n < 3 ->
  pin (regs (final (or_assign OLED_PORT_OUT OLED_RES_BIT m))) n = pin (regs m) n.
Proof.
  intros Hn. rewrite res_set_run. cbn [final regs].
  rewrite pin_out_set by pin_index.
  replace (n =? RES) with false; [reflexivity|].
  symmetry. apply Z.eqb_neq. unfold RES. lia.
Qed.

Lemma bus_pins_res_clear m n :
  1 <= n < 3 ->
  pin (regs (final (and_assign OLED_PORT_OUT (Z.lnot OLED_RES_BIT) m))) n =
  pin (regs m) n.
Proof.
  intros Hn. rewrite res_clear_run. cbn [final regs].
  rewrite pin_out_clear by pin_index.
  replace (n =? RES) with false; [reflexivity|].
  symmetry. apply Z.eqb_neq. unfold RES. lia.
Qed.

Lemma keeps_one_store (P : level -> level -> Prop) (c : M unit) :
  (forall m, exists x v, c m =
     Run tt (Machine (upd (regs m) x v) (p2in m) (reads m)) [EvWrite x v]) ->
  (forall m, on_bus P (regs m) -> on_bus P (regs (final (c m)))) ->
  keeps (on_bus P) c.
Proof.
  intros Hrun Hpost m Hm. specialize (Hpost m Hm).
  destruct (Hrun m) as (x & v & E). rewrite E in *.
  cbn [trace final regs throughout apply_event] in *. auto.
Qed.

Lemma on_bus_out_clear_all P :
  bus_level_inv P ->
  keeps (on_bus P) (and_assign OLED_PORT_OUT
    (Z.lnot (Z.lor (Z.lor OLED_SCL_BIT OLED_SDA_BIT) OLED_RES_BIT))).
Proof.
  intros HP. apply keeps_one_store.
  - intros m. rewrite out_clear_all_run. eauto.
  - intros m Hm. unfold on_bus in *.
    rewrite !bus_pins_out_clear_all by pin_index. apply HP, Hm.
Qed.

Lemma on_bus_res_dir P : keeps (on_bus P) (or_assign OLED_PORT_DIR OLED_RES_BIT).
Proof.
  apply keeps_one_store.
  - intros m. rewrite res_dir_run. eauto.
  - intros m Hm. unfold on_bus in *.
    rewrite !bus_pins_res_dir by pin_index. exact Hm.
Qed.

Lemma on_bus_res_set P : keeps (on_bus P) (or_assign OLED_PORT_OUT OLED_RES_BIT).
Proof.
  apply keeps_one_store.
  - intros m. rewrite res_set_run. eauto.
  - intros m Hm. unfold on_bus in *.
    rewrite !bus_pins_res_set by pin_index. exact Hm.
Qed.

Lemma on_bus_res_clear P :
  keeps (on_bus P) (and_assign OLED_PORT_OUT (Z.lnot OLED_RES_BIT)).
Proof.
  apply keeps_one_store.
  - intros m. rewrite res_clear_run. eauto.
  - intros m Hm. unfold on_bus in *.
    rewrite !bus_pins_res_clear by pin_index. exact Hm.
Qed.

Lemma keeps_store_other I x v :
  port2_only I -> x <> P2DIR -> x <> P2OUT -> keeps I (store x v).
Proof.
  intros HI Hd Ho m Hm. cbn [store trace throughout apply_event].
  auto.
Qed.

Lemma port2_only_on_bus P : port2_only (on_bus P).
Proof.
  intros r x v Hd Ho Hr. unfold on_bus in *.
  rewrite !pin_other by assumption. exact Hr.
Qed.

Lemma port2_only_res_bits o d : port2_only (res_bits o d).
Proof.
  intros r x v Hd Ho Hr. unfold res_bits, upd in *.
  destruct x; try contradiction; exact Hr.
Qed.

Lemma never_driven_high_on_bus r :
  never_driven_high r <-> on_bus not_driven_high r.
Proof. reflexivity. Qed.

Lemma bus_released_on_bus r : bus_released r <-> on_bus both_released r.
Proof. reflexivity. Qed.

Lemma not_driven_high_inv : bus_level_inv not_driven_high.
Proof.
  intros c d [Hc Hd]. destruct c, d; split; cbn; congruence.
Qed.

Lemma both_released_inv : bus_level_inv both_released.
Proof. intros c d [-> ->]. split; reflexivity. Qed.

Lemma port2_only_ndh : port2_only never_driven_high.
Proof. exact (port2_only_on_bus not_driven_high). Qed.

Lemma port2_only_released : port2_only bus_released.
Proof. exact (port2_only_on_bus both_released). Qed.

Lemma ndh_out_clear_all :
  keeps never_driven_high (and_assign OLED_PORT_OUT
    (Z.lnot (Z.lor (Z.lor OLED_SCL_BIT OLED_SDA_BIT) OLED_RES_BIT))).
Proof. exact (on_bus_out_clear_all _ not_driven_high_inv). Qed.
Lemma ndh_res_dir :
  keeps never_driven_high (or_assign OLED_PORT_DIR OLED_RES_BIT).
Proof. exact (on_bus_res_dir not_driven_high). Qed.
Lemma ndh_res_set :
  keeps never_driven_high (or_assign OLED_PORT_OUT OLED_RES_BIT).
Proof. exact (on_bus_res_set not_driven_high). Qed.
Lemma ndh_res_clear :
  keeps never_driven_high (and_assign OLED_PORT_OUT (Z.lnot OLED_RES_BIT)).
Proof. exact (on_bus_res_clear not_driven_high). Qed.

Lemma released_out_clear_all :
  keeps bus_released (and_assign OLED_PORT_OUT
    (Z.lnot (Z.lor (Z.lor OLED_SCL_BIT OLED_SDA_BIT) OLED_RES_BIT))).
Proof. exact (on_bus_out_clear_all _ both_released_inv). Qed.
Lemma released_res_dir :
  keeps bus_released (or_assign OLED_PORT_DIR OLED_RES_BIT).
Proof. exact (on_bus_res_dir both_released). Qed.
Lemma released_res_set :
  keeps bus_released (or_assign OLED_PORT_OUT OLED_RES_BIT).
Proof. exact (on_bus_res_set both_released). Qed.
Lemma released_res_clear :
  keeps bus_released (and_assign OLED_PORT_OUT (Z.lnot OLED_RES_BIT)).
Proof. exact (on_bus_res_clear both_released). Qed.

Lemma faithful_and_assign x v : faithful (and_assign x v).
Proof. unfold and_assign; fw. Qed.
Lemma faithful_or_assign x v : faithful (or_assign x v).
Proof. unfold or_assign; fw. Qed.
Lemma silent_and_assign x v : silent (and_assign x v).
Proof. unfold and_assign; fw. Qed.
Lemma silent_or_assign x v : silent (or_assign x v).
Proof. unfold or_assign; fw. Qed.

Lemma keeps_and_assign_other I x v :
  port2_only I -> x <> P2DIR -> x <> P2OUT -> keeps I (and_assign x v).
Proof.
  intros HI Hd Ho. unfold and_assign.
  apply keeps_bind; [fw|fw|]. intros y. apply keeps_store_other; assumption.
Qed.

Lemma keeps_or_assign_other I x v :
  port2_only I -> x <> P2DIR -> x <> P2OUT -> keeps I (or_assign x v).
Proof.
  intros HI Hd Ho. unfold or_assign.
  apply keeps_bind; [fw|fw|]. intros y. apply keeps_store_other; assumption.
Qed.

#[local] Hint Resolve port2_only_ndh port2_only_released port2_only_res_bits
  ndh_out_clear_all ndh_res_dir ndh_res_set ndh_res_clear
  released_out_clear_all released_res_dir released_res_set released_res_clear
  faithful_and_assign faithful_or_assign silent_and_assign silent_or_assign
  : fw.

#[local] Hint Extern 3 (keeps _ (and_assign _ _)) =>
  apply keeps_and_assign_other;
    [solve [auto with fw] | cbv; discriminate | cbv; discriminate] : fw.
#[local] Hint Extern 3 (keeps _ (or_assign _ _)) =>
  apply keeps_or_assign_other;
    [solve [auto with fw] | cbv; discriminate | cbv; discriminate] : fw.
#[local] Hint Extern 3 (keeps _ (store _ _)) =>
  apply keeps_store_other;
    [solve [auto with fw] | cbv; discriminate | cbv; discriminate] : fw.

(** ** The delays and the display driver *)

Lemma faithful_delay_ms n : faithful (delay_ms n).
Proof. unfold delay_ms, delay_cycles_const; fw. Qed.
#[local] Hint Resolve faithful_delay_ms : fw.
Lemma faithful_delay_s n : faithful (delay_s n).
Proof. unfold delay_s. fw. Qed.
Lemma silent_delay_ms n : silent (delay_ms n).
Proof. unfold delay_ms, delay_cycles_const; fw. Qed.
#[local] Hint Resolve silent_delay_ms : fw.
Lemma silent_delay_s n : silent (delay_s n).
Proof. unfold delay_s. fw. Qed.
Lemma keeps_delay_ms I n : keeps I (delay_ms n).
Proof. unfold delay_ms, delay_cycles_const; fw. Qed.
#[local] Hint Resolve keeps_delay_ms : fw.
Lemma keeps_delay_s I n : keeps I (delay_s n).
Proof. unfold delay_s. fw. Qed.

#[local] Hint Resolve faithful_delay_s silent_delay_s keeps_delay_s
  faithful_oled_write : fw.

#[local] Hint Resolve keeps_i2c_write_byte : fw.

Lemma ndh_oled_write control data :
  keeps never_driven_high (oled_write control data).
Proof. unfold oled_write. fw. Qed.

Lemma res_oled_write o d control data :
  keeps (res_bits o d) (oled_write control data).
Proof. unfold oled_write. fw. Qed.

#[local] Hint Resolve ndh_oled_write res_oled_write : fw.

Lemma main_idle_run k m : main_idle k m = Run tt m [].
Proof.
  revert m; induction k as [|k IH]; intros m; [reflexivity|].
  cbn [main_idle]. unfold bind. rewrite IH. reflexivity.
Qed.

Lemma faithful_main_idle k : faithful (main_idle k).
Proof. intros m. rewrite main_idle_run. reflexivity. Qed.

Lemma keeps_main_idle I k : keeps I (main_idle k).
Proof. intros m Hm. rewrite main_idle_run. cbn. auto. Qed.

#[local] Hint Resolve faithful_main_idle keeps_main_idle : fw.

Lemma faithful_oled_gpio_init H : faithful (oled_gpio_init H).
Proof. unfold oled_gpio_init. fw. Qed.

Lemma faithful_oled_reset_pulse : faithful oled_reset_pulse.
Proof. unfold oled_reset_pulse. fw. Qed.

Lemma faithful_oled_init_minimal : faithful oled_init_minimal.
Proof. unfold oled_init_minimal, oled_cmd. fw. Qed.

Lemma faithful_clock_init H : faithful (clock_init_dco_default H).
Proof. unfold clock_init_dco_default. fw. Qed.

#[local] Hint Resolve faithful_oled_gpio_init faithful_oled_reset_pulse
  faithful_oled_init_minimal faithful_clock_init : fw.

Lemma faithful_main_to_gpio_init H : faithful (main_to_gpio_init H).
Proof. unfold main_to_gpio_init. fw. Qed.

#[local] Hint Resolve faithful_main_to_gpio_init : fw.

Lemma faithful_main_to_reset H : faithful (main_to_reset H).
Proof. unfold main_to_reset. fw. Qed.

Lemma faithful_main_after_reset k : faithful (main_after_reset k).
Proof. unfold main_after_reset, oled_cmd. fw. Qed.

#[local] Hint Resolve faithful_main_to_reset faithful_main_after_reset : fw.

Lemma faithful_main H k : faithful (main H k).
Proof. unfold main, main_bringup, oled_cmd. fw. Qed.

(** [main] is its first part, through the reset pulse, followed by the rest. *)
Lemma main_split H k m :
  main H k m = (main_to_reset H ;; main_after_reset k) m.
Proof.
  unfold main, main_bringup, main_to_reset, main_to_gpio_init,
    main_after_reset.
  apply run_ext; autorewrite with binds; rewrite ?value_ret, ?final_ret,
    ?trace_ret, <- ?app_assoc; reflexivity.
Qed.

(** ** The bus lines during the bring-up *)

Lemma ndh_clock_init H : keeps never_driven_high (clock_init_dco_default H).
Proof. unfold clock_init_dco_default. fw. Qed.

Lemma ndh_oled_gpio_init H : keeps never_driven_high (oled_gpio_init H).
Proof.
  unfold oled_gpio_init, USE_INTERNAL_PULLUPS. cbv beta iota. fw.
Qed.

Lemma ndh_oled_reset_pulse : keeps never_driven_high oled_reset_pulse.
Proof. unfold oled_reset_pulse. fw. Qed.

Lemma ndh_oled_init_minimal : keeps never_driven_high oled_init_minimal.
Proof. unfold oled_init_minimal, oled_cmd. fw. Qed.

#[local] Hint Resolve ndh_clock_init ndh_oled_gpio_init ndh_oled_reset_pulse
  ndh_oled_init_minimal : fw.

Lemma ndh_main H k : keeps never_driven_high (main H k).
Proof. unfold main, main_bringup, oled_cmd. fw. Qed.

Lemma lowered_not_high l : lowered l <> DrivenHigh.
Proof. destruct l; discriminate. Qed.

Lemma ndh_after_gpio_init H m :
  never_driven_high (regs (final (oled_gpio_init H m))).
Proof.
  unfold oled_gpio_init, USE_INTERNAL_PULLUPS. cbv beta iota.
  rewrite final_bind, final_bind.
  match goal with |- context [final (and_assign OLED_PORT_OUT ?v ?m')] =>
    set (m2 := final (and_assign OLED_PORT_OUT v m'))
  end.
  assert (never_driven_high (regs m2)) as H2.
  { subst m2. split; rewrite bus_pins_out_clear_all by pin_index;
      apply lowered_not_high. }
  match goal with |- context [final (?c m2)] =>
    assert (keeps never_driven_high c) as Hk by fw;
    assert (faithful c) as Hf by fw
  end.
  rewrite Hf. apply throughout_end, Hk, H2.
Qed.

(** C7: with USE_INTERNAL_PULLUPS = 0, if neither bus line is driven high
    when [main] starts, then at no point of the execution of [main], for
    any number of turns of its final loop, is SCL or SDA an output with its
    output bit set; and whatever the state [oled_gpio_init] starts from,
    neither line is driven high when it returns. *)
Theorem lines_never_driven_high H k m m' :
  never_driven_high (regs m) ->
  throughout never_driven_high (regs m) (trace (main H k m)) /\
  never_driven_high (regs (final (oled_gpio_init H m'))).
Proof.
  intros Hm. split; [apply ndh_main, Hm | apply ndh_after_gpio_init].
Qed.

Lemma lines_never_driven_high_witness :
  throughout never_driven_high (regs (machine_at_rest always_ack))
    (trace (main example_header 1 (machine_at_rest always_ack))) /\
  never_driven_high
    (regs (final (oled_gpio_init example_header machine_p3_bit0))).
Proof.
  apply (lines_never_driven_high example_header 1
           (machine_at_rest always_ack) machine_p3_bit0).
  split; vm_compute; discriminate.
Defined.

Lemma released_after_gpio_init H m :
  bus_released (regs (final (oled_gpio_init H m))).
Proof.
  unfold oled_gpio_init, bus_released. autorewrite with binds.
  unfold i2c_idle. autorewrite with i2c. split; reflexivity.
Qed.

Lemma released_after_oled_write control data m :
  bus_released (regs (final (oled_write control data m))).
Proof.
  destruct (ack_at m 0) eqn:H0; [destruct (ack_at m 1) eqn:H1|].
  - rewrite oled_write_acked by assumption.
    autorewrite with binds. rewrite final_ret.
    split; apply i2c_stop_pins.
  - rewrite oled_write_nack_control by assumption.
    autorewrite with binds. rewrite final_ret.
    split; apply i2c_stop_pins.
  - rewrite oled_write_nack_address by assumption.
    autorewrite with binds. rewrite final_ret.
    split; apply i2c_stop_pins.
Qed.

Lemma released_oled_reset_pulse : keeps bus_released oled_reset_pulse.
Proof. unfold oled_reset_pulse. fw. Qed.

(** ** The reset line during the bring-up *)

Lemma res_bits_high r : res_bits true true r -> res_high r.
Proof. intros [Ho Hd]. unfold res_high, pin. rewrite Hd, Ho. reflexivity. Qed.

Lemma res_bits_low r : res_bits false true r -> res_low r.
Proof. intros [Ho Hd]. unfold res_low, pin. rewrite Hd, Ho. reflexivity. Qed.

Lemma res_after_gpio_init H m :
  res_bits true true (regs (final (oled_gpio_init H m))).
Proof.
  unfold oled_gpio_init, USE_INTERNAL_PULLUPS. cbv beta iota.
  autorewrite with binds.
  rewrite faithful_i2c_idle. apply throughout_end, res_i2c_idle.
  rewrite res_set_run. cbn [final regs]. split.
  - unfold upd. cbn [reg_eqb]. rewrite testbit_bset by pin_index.
    apply Bool.orb_true_r.
  - match goal with |- context [final (and_assign OLED_PORT_REN ?v ?m')] =>
      change (Z.testbit (regs m' P2DIR) RES = true)
    end.
    rewrite res_dir_run. cbn [final regs]. unfold upd. cbn [reg_eqb].
    rewrite testbit_bset by pin_index. apply Bool.orb_true_r.
Qed.

Lemma res_after_main_to_gpio_init H m :
  res_bits true true (regs (final (main_to_gpio_init H m))).
Proof.
  unfold main_to_gpio_init. autorewrite with binds. apply res_after_gpio_init.
Qed.

Lemma oled_reset_pulse_run m :
  oled_reset_pulse m =
  let lo := bclr (regs m P2OUT) RES in
  let hi := bset lo RES in
  Run tt (Machine (upd (upd (regs m) P2OUT lo) P2OUT hi) (p2in m) (reads m))
      ([EvWrite P2OUT lo] ++ repeat (EvCycles 1000) (50 * 5) ++
       [EvWrite P2OUT hi] ++ repeat (EvCycles 1000) (50 * 5)).
Proof.
  unfold oled_reset_pulse.
  apply run_ext; autorewrite with binds;
    rewrite ?delay_ms_run, ?res_clear_run; cbn [final trace value];
    rewrite ?res_set_run; reflexivity.
Qed.

Lemma res_main_after_reset o d k : keeps (res_bits o d) (main_after_reset k).
Proof.
  unfold main_after_reset, oled_init_minimal, oled_cmd. fw.
Qed.

Lemma final_run {A} (a : A) m t : final (Run a m t) = m.
Proof. reflexivity. Qed.

Lemma trace_run {A} (a : A) m t : trace (Run a m t) = t.
Proof. reflexivity. Qed.

(** The trace of [main], cut at the two stores of the reset pulse. *)
Lemma main_trace_around_reset H k m :
  let m1 := final (main_to_gpio_init H m) in
  let lo := bclr (regs m1 P2OUT) RES in
  let hi := bset lo RES in
  let m2 := Machine (upd (upd (regs m1) P2OUT lo) P2OUT hi)
                    (p2in m1) (reads m1) in
  trace (main H k m) =
    trace (main_to_gpio_init H m) ++
    repeat (EvCycles 1000) (200 * 5) ++
    [EvWrite P2OUT lo] ++
    repeat (EvCycles 1000) (50 * 5) ++
    [EvWrite P2OUT hi] ++
    repeat (EvCycles 1000) (50 * 5) ++
    trace (main_after_reset k m2) /\
  final (main_to_reset H m) = m2.
Proof.
  intros m1 lo hi m2.
  rewrite main_split. unfold main_to_reset.
  rewrite !trace_bind, !final_bind.
  rewrite delay_ms_run, final_run, trace_run.
  rewrite oled_reset_pulse_run, final_run, trace_run.
  rewrite <- !app_assoc. split; reflexivity.
Qed.

(** C6: the four bus helpers and [oled_write] leave the output bit and the
    direction bit of RES as they are at every point of their execution.
    RES is an output at high level when the GPIO initialisation is
    complete; from there [main] waits, stores to P2OUT once with the RES
    bit cleared, waits 250 blocks of 1000 cycles (50 ms) with RES low,
    stores to P2OUT once with the RES bit set, and RES is high at every
    point of everything that follows, the final loop included. *)
Theorem res_high_except_reset_pulse H k m o d control data :
  (keeps (res_bits o d) SCL_low /\
   keeps (res_bits o d) SCL_release /\
   keeps (res_bits o d) SDA_low /\
   keeps (res_bits o d) SDA_release /\
   keeps (res_bits o d) (oled_write control data)) /\
  let m1 := final (main_to_gpio_init H m) in
  let lo := bclr (regs m1 P2OUT) RES in
  let hi := bset lo RES in
  res_high (regs m1) /\
  exists t_rest,
    trace (main H k m) =
      trace (main_to_gpio_init H m) ++
      repeat (EvCycles 1000) (200 * 5) ++
      [EvWrite P2OUT lo] ++
      repeat (EvCycles 1000) (50 * 5) ++
      [EvWrite P2OUT hi] ++ t_rest /\
    throughout res_high (regs m1) (repeat (EvCycles 1000) (200 * 5)) /\
    throughout res_low (upd (regs m1) P2OUT lo)
      (repeat (EvCycles 1000) (50 * 5)) /\
    throughout res_high (upd (upd (regs m1) P2OUT lo) P2OUT hi) t_rest.
Proof.
  split.
  { refine (conj _ (conj _ (conj _ (conj _ _)))); fw. }
  intros m1 lo hi.
  pose proof (res_after_main_to_gpio_init H m) as Hres.
  destruct (main_trace_around_reset H k m) as [Htrace _].
  assert (res_bits false true (upd (regs m1) P2OUT lo)) as Hlo.
  { destruct Hres as [Ho Hd]. split; unfold upd; cbn [reg_eqb].
    - unfold lo. rewrite testbit_bclr by pin_index. apply Bool.andb_false_r.
    - exact Hd. }
  assert (res_bits true true (upd (upd (regs m1) P2OUT lo) P2OUT hi)) as Hhi.
  { destruct Hres as [Ho Hd]. split; unfold upd; cbn [reg_eqb].
    - unfold hi. rewrite testbit_bset by pin_index. apply Bool.orb_true_r.
    - exact Hd. }
  split; [apply res_bits_high, Hres|].
  eexists. refine (conj Htrace (conj _ (conj _ _))).
  - apply throughout_cycles, res_bits_high, Hres.
  - apply throughout_cycles, res_bits_low, Hlo.
  - apply throughout_app. split.
    + apply throughout_cycles, res_bits_high, Hhi.
    + rewrite replay_cycles.
      apply (throughout_impl (res_bits true true)); [apply res_bits_high|].
      exact (res_main_after_reset true true k
               (Machine (upd (upd (regs m1) P2OUT lo) P2OUT hi)
                        (p2in m1) (reads m1)) Hhi).
Qed.

(** ** What follows the reset pulse *)

Lemma decode_cycles s c n : decode s (repeat (EvCycles c) n) = [].
Proof. destruct s. induction n as [|n IH]; cbn; auto. Qed.

Lemma probe_cycles s c n : probe_after s (repeat (EvCycles c) n) = s.
Proof. destruct s. induction n as [|n IH]; cbn; auto. Qed.

Lemma released_after_main_to_reset H m :
  bus_released (regs (final (main_to_reset H m))).
Proof.
  unfold main_to_reset, main_to_gpio_init. autorewrite with binds.
  match goal with |- context [final (oled_gpio_init H ?m')] =>
    pose proof (released_after_gpio_init H m') as Hrel;
    set (m1 := final (oled_gpio_init H m')) in *
  end.
  rewrite delay_ms_run, final_run.
  rewrite faithful_oled_reset_pulse.
  apply throughout_end, released_oled_reset_pulse, Hrel.
Qed.

Lemma main_after_reset_trace k m :
  trace (main_after_reset k m) =
  repeat (EvCycles 1000) (8 * 5000) ++
  trace (oled_cmd 0xAF m) ++
  repeat (EvCycles 1000) (150 * 5) ++
  trace (oled_cmd 0xA5 (final (oled_cmd 0xAF m))).
Proof.
  unfold main_after_reset, oled_init_minimal, USE_CHARGE_PUMP.
  cbv beta iota. rewrite !trace_bind, !final_bind.
  rewrite main_idle_run, trace_ret, delay_s_run, delay_ms_run.
  rewrite !final_run, !trace_run, !app_nil_r, <- !app_assoc.
  reflexivity.
Qed.

Lemma In_transfer_view b a control data a0 a1 a2 :
  In (BusByte b a) (transfer_view control data a0 a1 a2) ->
  b = 0x78 \/ b = control \/ b = data.
Proof.
  unfold transfer_view. destruct a0, a1; cbn [In]; intros Hin;
    repeat (destruct Hin as [Hin|Hin]; [inversion Hin; subst; auto|]);
    try contradiction; try discriminate.
Qed.

Lemma bus_main_after_reset k m :
  bus_released (regs m) ->
  bus (regs m) (trace (main_after_reset k m)) =
  transfer_view OLED_CTRL_CMD 0xAF (ack_at m 0) (ack_at m 1) (ack_at m 2) ++
  transfer_view OLED_CTRL_CMD 0xA5
    (ack_at (final (oled_cmd 0xAF m)) 0)
    (ack_at (final (oled_cmd 0xAF m)) 1)
    (ack_at (final (oled_cmd 0xAF m)) 2).
Proof.
  intros Hrel1.
  unfold bus. rewrite main_after_reset_trace. unfold oled_cmd.
  pose proof (released_after_oled_write OLED_CTRL_CMD 0xAF m) as Hrel2.
  destruct (oled_write_decode OLED_CTRL_CMD 0xAF m Hrel1) as [Hd1 Hp1].
  destruct (oled_write_decode OLED_CTRL_CMD 0xA5 _ Hrel2) as [Hd2 _].
  rewrite decode_app, decode_cycles, probe_cycles.
  rewrite decode_app, Hd1, Hp1.
  rewrite decode_app, decode_cycles, probe_cycles, Hd2.
  rewrite !app_nil_l.
  rewrite frames_transfer by (unfold OLED_CTRL_CMD; lia).
  rewrite <- (app_nil_r (transfer_syms OLED_CTRL_CMD 165 _ _ _)).
  rewrite frames_transfer by (unfold OLED_CTRL_CMD; lia).
  rewrite app_nil_r. reflexivity.
Qed.

(** C2: with USE_CHARGE_PUMP = 0, what [main] does after the reset pulse,
    whatever the number of turns of its final loop, is: 8 * 5000 delay
    blocks of 1000 cycles (the 8 s of [delay_s], at the source's 5000
    cycles per millisecond), the transfer of command 0xAF, 150 * 5 delay
    blocks (the 150 ms of [delay_ms]), the transfer of command 0xA5, and
    nothing more.  On the bus this shows as the two transfers only, and no
    byte on the bus is 0x8D or 0x14. *)
Theorem bringup_after_reset H k m :
  let m1 := final (main_to_reset H m) in
  let m2 := final (oled_cmd 0xAF m1) in
  let rest := trace (main_after_reset k m1) in
  trace (main H k m) = trace (main_to_reset H m) ++ rest /\
  rest =
    repeat (EvCycles 1000) (8 * 5000) ++
    trace (oled_cmd 0xAF m1) ++
    repeat (EvCycles 1000) (150 * 5) ++
    trace (oled_cmd 0xA5 m2) /\
  bus (regs m1) rest =
    transfer_view OLED_CTRL_CMD 0xAF (ack_at m1 0) (ack_at m1 1) (ack_at m1 2) ++
    transfer_view OLED_CTRL_CMD 0xA5 (ack_at m2 0) (ack_at m2 1) (ack_at m2 2) /\
  cycles (repeat (EvCycles 1000) (8 * 5000)) = 8 * 1000 * 5000 /\
  cycles (repeat (EvCycles 1000) (150 * 5)) = 150 * 5000 /\
  forall b a, In (BusByte b a) (bus (regs m1) rest) -> b <> 0x8D /\ b <> 0x14.
Proof.
  intros m1 m2 rest.
  pose proof (bus_main_after_reset k m1 (released_after_main_to_reset H m))
    as Hbus.
  refine (conj _ (conj _ (conj Hbus (conj _ (conj _ _))))).
  - unfold rest, m1. rewrite main_split. exact (trace_bind _ _ _).
  - apply main_after_reset_trace.
  - rewrite cycles_repeat. vm_compute. reflexivity.
  - rewrite cycles_repeat. vm_compute. reflexivity.
  - intros b a Hin. unfold rest in Hin. rewrite Hbus in Hin.
    apply in_app_or in Hin.
    destruct Hin as [Hin|Hin]; apply In_transfer_view in Hin;
      unfold OLED_CTRL_CMD in Hin; lia.
Qed.

(** ** The bus lines between the transfers *)

Lemma released_SCL_release : keeps bus_released SCL_release.
Proof.
  intros m [E1 E2]. unfold bus_released. rewrite SCL_release_run.
  cbn [trace]. keeps_steps E1 E2. auto.
Qed.

Lemma released_SDA_release : keeps bus_released SDA_release.
Proof.
  intros m [E1 E2]. unfold bus_released. rewrite SDA_release_run.
  cbn [trace]. keeps_steps E1 E2. auto.
Qed.

Lemma released_start_lead_in :
  keeps bus_released (SDA_release ;; SCL_release ;; delay_short).
Proof.
  apply keeps_bind; [fw | apply released_SDA_release |]. intros _.
  apply keeps_bind; [fw | apply released_SCL_release |]. intros _.
  apply keeps_delay_short.
Qed.

Lemma released_after_main_to_gpio_init H m :
  bus_released (regs (final (main_to_gpio_init H m))).
Proof.
  unfold main_to_gpio_init. rewrite !final_bind.
  apply released_after_gpio_init.
Qed.

Lemma released_reset_and_wait :
  keeps bus_released (delay_ms 200 ;; oled_reset_pulse ;; delay_s 8).
Proof.
  apply keeps_bind; [fw | apply keeps_delay_ms |]. intros _.
  apply keeps_bind; [fw | apply released_oled_reset_pulse |]. intros _.
  apply keeps_delay_s.
Qed.

Lemma faithful_reset_and_wait :
  faithful (delay_ms 200 ;; oled_reset_pulse ;; delay_s 8).
Proof. fw. Qed.

Lemma reset_and_wait_trace m :
  let lo := bclr (regs m P2OUT) RES in
  let hi := bset lo RES in
  trace ((delay_ms 200 ;; oled_reset_pulse ;; delay_s 8) m) =
    repeat (EvCycles 1000) (200 * 5) ++
    [EvWrite P2OUT lo] ++
    repeat (EvCycles 1000) (50 * 5) ++
    [EvWrite P2OUT hi] ++
    repeat (EvCycles 1000) (50 * 5) ++
    repeat (EvCycles 1000) (8 * 5000).
Proof.
  intros lo hi. rewrite !trace_bind, ?final_bind.
  rewrite delay_ms_run, final_run, trace_run.
  rewrite oled_reset_pulse_run, final_run, trace_run.
  rewrite delay_s_run, trace_run.
  rewrite <- !app_assoc. reflexivity.
Qed.

(** The trace of [main], cut at its two transfers. *)
Lemma main_trace_between_transfers H k m :
  let m1 := final (main_to_gpio_init H m) in
  let m2 := final (main_to_reset H m) in
  let m3 := final (oled_write OLED_CTRL_CMD 0xAF m2) in
  trace (main H k m) =
    trace (main_to_gpio_init H m) ++
    trace ((delay_ms 200 ;; oled_reset_pulse ;; delay_s 8) m1) ++
    trace (oled_write OLED_CTRL_CMD 0xAF m2) ++
    repeat (EvCycles 1000) (150 * 5) ++
    trace (oled_write OLED_CTRL_CMD 0xA5 m3) /\
  regs m2 = regs (final ((delay_ms 200 ;; oled_reset_pulse ;; delay_s 8) m1)).
Proof.
  intros m1 m2 m3. split.
  - rewrite main_split, trace_bind, main_after_reset_trace.
    unfold main_to_reset at 1. rewrite !trace_bind.
    unfold oled_cmd. rewrite delay_s_run, trace_run.
    rewrite <- !app_assoc. reflexivity.
  - unfold m2, main_to_reset. rewrite !final_bind.
    rewrite delay_s_run, final_run. reflexivity.
Qed.

(** C8: when [oled_gpio_init] returns and when [oled_write] returns, on any
    of its paths, SCL and SDA are both inputs; from a state in which they
    are, they stay inputs throughout everything the firmware does between
    two transfers: the millisecond and second delays, the reset pulse, the
    final loop, and the first statements of [i2c_start], up to the store
    that pulls SDA low.  In [main] this is what happens: once the GPIO
    initialisation has returned, the trace of [main] is a stretch of
    waiting with the two stores of the reset pulse, the transfer of
    command 0xAF, a stretch of waiting, and the transfer of command 0xA5;
    SCL and SDA are inputs at every point of the two stretches, and at the
    end of the trace, where the final loop keeps [main]. *)
Theorem bus_released_between_transfers H control data n k m m' :
  bus_released (regs m') ->
  bus_released (regs (final (oled_gpio_init H m))) /\
  bus_released (regs (final (oled_write control data m))) /\
  throughout bus_released (regs m') (trace (delay_ms n m')) /\
  throughout bus_released (regs m') (trace (delay_s n m')) /\
  throughout bus_released (regs m') (trace (oled_reset_pulse m')) /\
  throughout bus_released (regs m') (trace (main_idle k m')) /\
  (trace (i2c_start m') =
     trace ((SDA_release ;; SCL_release ;; delay_short) m') ++
     trace ((SDA_low ;; delay_short ;; SCL_low ;; delay_short)
              (final ((SDA_release ;; SCL_release ;; delay_short) m'))) /\
   throughout bus_released (regs m')
     (trace ((SDA_release ;; SCL_release ;; delay_short) m'))) /\
  let m1 := final (main_to_gpio_init H m) in
  let lo := bclr (regs m1 P2OUT) RES in
  let hi := bset lo RES in
  let m2 := final (main_to_reset H m) in
  let m3 := final (oled_write OLED_CTRL_CMD 0xAF m2) in
  let init := trace (main_to_gpio_init H m) in
  let quiet1 :=
    repeat (EvCycles 1000) (200 * 5) ++
    [EvWrite P2OUT lo] ++
    repeat (EvCycles 1000) (50 * 5) ++
    [EvWrite P2OUT hi] ++
    repeat (EvCycles 1000) (50 * 5) ++
    repeat (EvCycles 1000) (8 * 5000) in
  let transfer1 := trace (oled_write OLED_CTRL_CMD 0xAF m2) in
  let quiet2 := repeat (EvCycles 1000) (150 * 5) in
  let transfer2 := trace (oled_write OLED_CTRL_CMD 0xA5 m3) in
  trace (main H k m) = init ++ quiet1 ++ transfer1 ++ quiet2 ++ transfer2 /\
  regs m2 = replay (regs m) (init ++ quiet1) /\
  regs m3 = replay (regs m) (init ++ quiet1 ++ transfer1) /\
  throughout bus_released (replay (regs m) init) quiet1 /\
  throughout bus_released
    (replay (regs m) (init ++ quiet1 ++ transfer1)) quiet2 /\
  bus_released
    (replay (regs m) (init ++ quiet1 ++ transfer1 ++ quiet2 ++ transfer2)).
Proof.
  intros Hm'.
  refine (conj _ (conj _ (conj _ (conj _ (conj _ (conj _ (conj _ _))))))).
  - apply released_after_gpio_init.
  - apply released_after_oled_write.
  - apply keeps_delay_ms, Hm'.
  - apply keeps_delay_s, Hm'.
  - apply released_oled_reset_pulse, Hm'.
  - apply keeps_main_idle, Hm'.
  - split.
    + unfold i2c_start. rewrite !trace_bind, !final_bind, <- !app_assoc.
      reflexivity.
    + apply released_start_lead_in, Hm'.
  - intros m1 lo hi m2 m3 init quiet1 transfer1 quiet2 transfer2.
    assert (trace ((delay_ms 200 ;; oled_reset_pulse ;; delay_s 8) m1) =
            quiet1) as Hq1 by exact (reset_and_wait_trace m1).
    assert (trace (main H k m) =
            init ++ trace ((delay_ms 200 ;; oled_reset_pulse ;; delay_s 8) m1)
            ++ transfer1 ++ quiet2 ++ transfer2) as Htrace
      by exact (proj1 (main_trace_between_transfers H k m)).
    assert (regs m2 =
            regs (final ((delay_ms 200 ;; oled_reset_pulse ;; delay_s 8) m1)))
      as Hm2 by exact (proj2 (main_trace_between_transfers H k m)).
    rewrite Hq1 in Htrace.
    pose proof (released_reset_and_wait m1
                  (released_after_main_to_gpio_init H m)) as Hrel1.
    rewrite Hq1 in Hrel1.
    assert (replay (regs m) init = regs m1) as Hinit
      by (symmetry; apply faithful_main_to_gpio_init).
    assert (replay (regs m1) quiet1 = regs m2) as Hr2.
    { rewrite Hm2, <- Hq1. symmetry. apply faithful_reset_and_wait. }
    assert (replay (regs m2) transfer1 = regs m3) as Hr3
      by (symmetry; apply faithful_oled_write).
    refine (conj Htrace (conj _ (conj _ (conj _ (conj _ _))))).
    + rewrite replay_app, Hinit, Hr2. reflexivity.
    + rewrite !replay_app, Hinit, Hr2, Hr3. reflexivity.
    + rewrite Hinit. exact Hrel1.
    + rewrite !replay_app, Hinit, Hr2, Hr3.
      apply throughout_cycles, released_after_oled_write.
    + rewrite !replay_app, Hinit, Hr2, Hr3.
      unfold quiet2. rewrite replay_cycles.
      unfold transfer2. rewrite <- faithful_oled_write.
      apply released_after_oled_write.
Qed.

Lemma bus_released_between_transfers_witness :
  bus_released
    (regs (final (oled_write 0x00 0xAF (machine_at_rest always_ack)))) /\
  throughout bus_released (regs (machine_at_rest always_ack))
    (trace (delay_ms 150 (machine_at_rest always_ack))).
Proof.
  pose proof (bus_released_between_transfers example_header 0x00 0xAF 150 1
                (machine_at_rest always_ack) (machine_at_rest always_ack)
                ltac:(split; reflexivity)) as (_ & Hw & Hd & _).
  exact (conj Hw Hd).
Defined.

(** * Termination and bounds *)

Lemma bounded_ret {A} (a : A) : bounded 0 (ret a).
Proof. intros m. cbn. lia. Qed.

Lemma bounded_bind {A B} k1 k2 (c : M A) (k : A -> M B) :
  bounded k1 c -> (forall a, bounded k2 (k a)) -> bounded (k1 + k2) (bind c k).
Proof.
  intros Hc Hk m. rewrite trace_bind, length_app, Nat2Z.inj_add.
  specialize (Hc m). specialize (Hk (value (c m)) (final (c m))). lia.
Qed.

Lemma bounded_if {A} k1 k2 (b : bool) (c1 c2 : M A) :
  bounded k1 c1 -> bounded k2 c2 ->
  bounded (Z.max k1 k2) (if b then c1 else c2).
Proof.
  intros H1 H2 m. specialize (H1 m). specialize (H2 m). destruct b; lia.
Qed.

Lemma bounded_le {A} k k' (c : M A) : bounded k c -> k <= k' -> bounded k' c.
Proof. intros Hc Hle m. specialize (Hc m). lia. Qed.

Lemma bounded_load r : bounded 0 (load r).
Proof. intros m. cbn. lia. Qed.

Lemma bounded_store r v : bounded 1 (store r v).
Proof. intros m. cbn. lia. Qed.

Lemma bounded_load_P2IN : bounded 1 load_P2IN.
Proof. intros m. cbn. lia. Qed.

Lemma bounded_delay_cycles n : bounded 1 (__delay_cycles n).
Proof. intros m. cbn. lia. Qed.

Lemma bounded_delay_ms n : bounded (wrap16 n * 5) (delay_ms n).
Proof.
  intros m. rewrite delay_ms_run, trace_run, repeat_length, Nat2Z.inj_mul.
  pose proof (wrap16_range n). rewrite Z2Nat.id by lia. lia.
Qed.

Lemma bounded_delay_s n : bounded (wrap16 n * 5000) (delay_s n).
Proof.
  intros m. rewrite delay_s_run, trace_run, repeat_length, Nat2Z.inj_mul.
  pose proof (wrap16_range n). rewrite Z2Nat.id by lia. lia.
Qed.

Create HintDb bnd discriminated.
#[local] Hint Constants Opaque : bnd.
#[local] Hint Resolve bounded_ret bounded_bind bounded_if bounded_load
  bounded_store bounded_load_P2IN bounded_delay_cycles bounded_delay_ms
  bounded_delay_s : bnd.

Ltac bound := eapply bounded_le; [eauto 40 with bnd | vm_compute; discriminate].

Lemma bounded_and_assign x v : bounded 1 (and_assign x v).
Proof. unfold and_assign. bound. Qed.
Lemma bounded_or_assign x v : bounded 1 (or_assign x v).
Proof. unfold or_assign. bound. Qed.
#[local] Hint Resolve bounded_and_assign bounded_or_assign : bnd.

Lemma bounded_SCL_low : bounded 2 SCL_low.
Proof. unfold SCL_low. bound. Qed.
Lemma bounded_SCL_release : bounded 1 SCL_release.
Proof. unfold SCL_release. bound. Qed.
Lemma bounded_SDA_low : bounded 2 SDA_low.
Proof. unfold SDA_low. bound. Qed.
Lemma bounded_SDA_release : bounded 1 SDA_release.
Proof. unfold SDA_release. bound. Qed.
Lemma bounded_SDA_read : bounded 1 SDA_read.
Proof. unfold SDA_read. bound. Qed.
Lemma bounded_delay_short : bounded 1 delay_short.
Proof. unfold delay_short. bound. Qed.
#[local] Hint Resolve bounded_SCL_low bounded_SCL_release bounded_SDA_low
  bounded_SDA_release bounded_SDA_read bounded_delay_short : bnd.

Lemma bounded_i2c_idle : bounded 3 i2c_idle.
Proof. unfold i2c_idle. bound. Qed.
Lemma bounded_i2c_start : bounded 9 i2c_start.
Proof. unfold i2c_start. bound. Qed.
Lemma bounded_i2c_stop : bounded 7 i2c_stop.
Proof. unfold i2c_stop. bound. Qed.
Lemma bounded_i2c_write_bit b : bounded 8 (i2c_write_bit b).
Proof. unfold i2c_write_bit. bound. Qed.
Lemma bounded_i2c_read_ack : bounded 8 i2c_read_ack.
Proof. unfold i2c_read_ack. bound. Qed.
#[local] Hint Resolve bounded_i2c_idle bounded_i2c_start bounded_i2c_stop
  bounded_i2c_write_bit bounded_i2c_read_ack : bnd.

Lemma bounded_write_bits bs :
  bounded (8 * Z.of_nat (length bs)) (write_bits bs).
Proof.
  induction bs as [|b bs IH]; cbn [write_bits length].
  - apply bounded_ret.
  - eapply bounded_le; [apply bounded_bind; [apply bounded_i2c_write_bit|]|].
    + intros _. exact IH.
    + lia.
Qed.

Lemma bounded_i2c_write_byte b : bounded 72 (i2c_write_byte b).
Proof.
  intros m. rewrite i2c_write_byte_unrolled. revert m.
  eapply bounded_le; [apply bounded_bind; [apply bounded_write_bits|]|].
  - intros _. apply bounded_i2c_read_ack.
  - vm_compute. discriminate.
Qed.
#[local] Hint Resolve bounded_i2c_write_byte : bnd.

Lemma bounded_oled_write control data : bounded 233 (oled_write control data).
Proof. unfold oled_write. bound. Qed.
#[local] Hint Resolve bounded_oled_write : bnd.

Lemma bounded_oled_gpio_init H : bounded 8 (oled_gpio_init H).
Proof. unfold oled_gpio_init, USE_INTERNAL_PULLUPS. cbv beta iota. bound. Qed.

Lemma bounded_oled_reset_pulse : bounded 502 oled_reset_pulse.
Proof. unfold oled_reset_pulse. bound. Qed.

Lemma bounded_oled_init_minimal : bounded 40983 oled_init_minimal.
Proof.
  unfold oled_init_minimal, USE_CHARGE_PUMP, oled_cmd. cbv beta iota. bound.
Qed.

Lemma bounded_clock_init H : bounded 5 (clock_init_dco_default H).
Proof. unfold clock_init_dco_default. bound. Qed.
#[local] Hint Resolve bounded_oled_gpio_init bounded_oled_reset_pulse
  bounded_oled_init_minimal bounded_clock_init : bnd.

Lemma bounded_main_bringup H : bounded 42734 (main_bringup H).
Proof. unfold main_bringup, oled_cmd. bound. Qed.

(** C10: for every [uint16_t] argument the three delay functions return,
    having executed that many times 1, 5 and 5000 blocks of 1000 cycles and
    nothing else, none at all for 0; the bit loop of [i2c_write_byte] makes
    exactly 8 write-bit calls and stops when its counter reaches 8; and
    every I2C and OLED primitive, and the whole of [main] before its final
    loop, produces a number of events bounded by a constant. *)
Theorem firmware_loops_terminate H n b control data m :
  0 <= n < 2 ^ 16 ->
  (delay_cycles_const n m = Run tt m (repeat (EvCycles 1000) (Z.to_nat n)) /\
   delay_ms n m = Run tt m (repeat (EvCycles 1000) (Z.to_nat n * 5)) /\
   delay_s n m = Run tt m (repeat (EvCycles 1000) (Z.to_nat n * 5000))) /\
  (delay_cycles_const 0 m = Run tt m [] /\
   delay_ms 0 m = Run tt m [] /\
   delay_s 0 m = Run tt m []) /\
  (i2c_write_byte_loop 0 b m = write_bits (map Z.b2z (msb_first b)) m /\
   length (map Z.b2z (msb_first b)) = 8%nat /\
   i2c_write_byte_loop 8 b m = Run tt m []) /\
  (bounded 9 i2c_start /\ bounded 7 i2c_stop /\
   bounded 8 (i2c_write_bit b) /\ bounded 8 i2c_read_ack /\
   bounded 72 (i2c_write_byte b) /\
   bounded 233 (oled_write control data) /\
   bounded 8 (oled_gpio_init H) /\ bounded 502 oled_reset_pulse /\
   bounded 40983 oled_init_minimal /\ bounded 42734 (main_bringup H)).
Proof.
  intros Hn.
  refine (conj (conj _ (conj _ _)) (conj (conj _ (conj _ _))
            (conj (conj _ (conj _ _)) _))).
  - rewrite delay_cycles_const_run, wrap16_small by exact Hn. reflexivity.
  - rewrite delay_ms_run, wrap16_small by exact Hn. reflexivity.
  - rewrite delay_s_run, wrap16_small by exact Hn. reflexivity.
  - rewrite delay_cycles_const_run. reflexivity.
  - rewrite delay_ms_run. reflexivity.
  - rewrite delay_s_run. reflexivity.
  - apply i2c_write_byte_loop_unrolled.
  - reflexivity.
  - rewrite i2c_write_byte_loop_eq. reflexivity.
  - refine (conj _ (conj _ (conj _ (conj _ (conj _ (conj _
             (conj _ (conj _ (conj _ _))))))))).
    + apply bounded_i2c_start.
    + apply bounded_i2c_stop.
    + apply bounded_i2c_write_bit.
    + apply bounded_i2c_read_ack.
    + apply bounded_i2c_write_byte.
    + apply bounded_oled_write.
    + apply bounded_oled_gpio_init.
    + apply bounded_oled_reset_pulse.
    + apply bounded_oled_init_minimal.
    + apply bounded_main_bringup.
Qed.

Lemma firmware_loops_terminate_witness :
  delay_ms 150 (machine_at_rest always_ack) =
  Run tt (machine_at_rest always_ack) (repeat (EvCycles 1000) (150 * 5)).
Proof.
  pose proof (firmware_loops_terminate example_header 150 0xAF 0x00 0xAF
                (machine_at_rest always_ack) ltac:(lia)) as [(_ & Hms & _) _].
  exact Hms.
Defined.

(** * Further properties of the firmware *)

(** ** Events of a given kind *)

Lemma only_ret P {A} (a : A) : only P (ret a).
Proof. intros m. constructor. Qed.

Lemma only_bind P {A B} (c : M A) (k : A -> M B) :
  only P c -> (forall a, only P (k a)) -> only P (bind c k).
Proof.
  intros Hc Hk m. rewrite trace_bind. apply Forall_app. split; [apply Hc|apply Hk].
Qed.

Lemma only_if P {A} (b : bool) (c1 c2 : M A) :
  only P c1 -> only P c2 -> only P (if b then c1 else c2).
Proof. destruct b; auto. Qed.

Lemma only_load P r : only P (load r).
Proof. intros m. constructor. Qed.

Lemma only_store P r v : (forall w, P (EvWrite r w)) -> only P (store r v).
Proof. intros HP m. cbn. constructor; [apply HP|constructor]. Qed.

Lemma only_load_P2IN P : (forall w, P (EvSample w)) -> only P load_P2IN.
Proof. intros HP m. cbn. constructor; [apply HP|constructor]. Qed.

Lemma only_delay_cycles P n : P (EvCycles n) -> only P (__delay_cycles n).
Proof. intros HP m. cbn. constructor; [apply HP|constructor]. Qed.

Lemma only_times P k body : only P body -> only P (times k body).
Proof.
  intros Hb. induction k; cbn [times]; auto using only_ret, only_bind.
Qed.

Lemma only_while P n body : only P body -> only P (while_postdec n body).
Proof. intros Hb m. rewrite while_postdec_times. apply only_times, Hb. Qed.

Lemma only_write_bits P bs :
  (forall b, only P (i2c_write_bit b)) -> only P (write_bits bs).
Proof.
  intros Hb. induction bs; cbn [write_bits]; auto using only_ret, only_bind.
Qed.

Lemma only_i2c_write_byte P b :
  (forall x, only P (i2c_write_bit x)) -> only P i2c_read_ack ->
  only P (i2c_write_byte b).
Proof.
  intros Hb Ha m. rewrite i2c_write_byte_unrolled. revert m.
  apply only_bind; [apply only_write_bits, Hb | intros _; exact Ha].
Qed.

Lemma only_main_idle P k : only P (main_idle k).
Proof. intros m. rewrite main_idle_run. constructor. Qed.

Create HintDb ev discriminated.
#[local] Hint Constants Opaque : ev.
#[local] Hint Resolve only_ret only_bind only_if only_load only_times
  only_while only_i2c_write_byte only_main_idle : ev.
#[local] Hint Extern 1 (only _ (store _ _)) =>
  apply only_store; intros; first [exact Logic.I | exact eq_refl] : ev.
#[local] Hint Extern 1 (only _ (__delay_cycles _)) =>
  apply only_delay_cycles; exact Logic.I : ev.
#[local] Hint Extern 1 (only _ load_P2IN) =>
  apply only_load_P2IN; intros; exact Logic.I : ev.

Ltac ev_unfold :=
  unfold i2c_write_bit, i2c_read_ack,
    SDA_low, SDA_release, SCL_low, SCL_release, SDA_read, delay_short,
    and_assign, or_assign, OLED_PORT_OUT, OLED_PORT_DIR.

#[local] Hint Extern 4 (only _ (i2c_write_bit _)) => ev_unfold : ev.
#[local] Hint Extern 4 (only _ i2c_read_ack) => ev_unfold : ev.

Ltac ev :=
  unfold main, main_bringup, main_to_reset, main_to_gpio_init,
    main_after_reset, clock_init_dco_default, oled_gpio_init,
    oled_reset_pulse, oled_init_minimal, oled_cmd, oled_write,
    delay_s, delay_ms, delay_cycles_const,
    i2c_start, i2c_stop, i2c_idle, i2c_write_bit, i2c_read_ack,
    SDA_low, SDA_release, SCL_low, SCL_release, SDA_read, delay_short,
    and_assign, or_assign, OLED_PORT_OUT, OLED_PORT_DIR, OLED_PORT_REN,
    USE_INTERNAL_PULLUPS, USE_CHARGE_PUMP;
  cbv beta iota; eauto 3000 with ev.

(** A computation that stores only within [S] leaves the registers outside
    [S] alone. *)
Lemma writes_within_untouched S x t :
  Forall (writes_within S) t -> S x = false -> writes_to x t = [].
Proof.
  intros Ht Hx. induction Ht as [|e t He Ht IH]; [reflexivity|].
  unfold writes_to in *. cbn [filter]. destruct e as [y v| |]; try exact IH.
  cbn in He. destruct (reg_eqb x y) eqn:E; [|exact IH].
  destruct x, y; try discriminate E; congruence.
Qed.

Lemma only_untouched S x {A} (c : M A) m :
  only (writes_within S) c -> faithful c -> S x = false ->
  regs (final (c m)) x = regs m x.
Proof.
  intros Hc Hf Hx. rewrite Hf. apply replay_untouched.
  apply (writes_within_untouched S); [apply Hc | exact Hx].
Qed.

Lemma writes_within_oled_write control data :
  only (writes_within transfer_regs) (oled_write control data).
Proof. ev. Qed.

Lemma writes_within_gpio_init H :
  only (writes_within gpio_init_regs) (oled_gpio_init H).
Proof. ev. Qed.

(** ** The other pins of port 2 *)

Section OtherPins.

Variables (n : Z) (o d : bool).
Hypothesis Hrange : 0 <= n < 8.
Hypothesis Hscl : n <> SCL.
Hypothesis Hsda : n <> SDA.

Ltac keeps_port X_run :=
  let m := fresh "m" in let Ho := fresh "Ho" in let Hd := fresh "Hd" in
  intros m [Ho Hd]; rewrite X_run; cbn [trace throughout apply_event];
  unfold port_bits, upd; cbn [reg_eqb];
  rewrite ?testbit_bclr, ?testbit_bset by pin_index;
  rewrite ?Ho, ?Hd;
  replace (n =? SCL) with false by (symmetry; apply Z.eqb_neq; exact Hscl);
  replace (n =? SDA) with false by (symmetry; apply Z.eqb_neq; exact Hsda);
  cbn [negb];
  rewrite ?Bool.andb_true_r, ?Bool.orb_false_r; repeat split; reflexivity.

Lemma port_SCL_low : keeps (port_bits n o d) SCL_low.
Proof. keeps_port SCL_low_run. Qed.
Lemma port_SCL_release : keeps (port_bits n o d) SCL_release.
Proof. keeps_port SCL_release_run. Qed.
Lemma port_SDA_low : keeps (port_bits n o d) SDA_low.
Proof. keeps_port SDA_low_run. Qed.
Lemma port_SDA_release : keeps (port_bits n o d) SDA_release.
Proof. keeps_port SDA_release_run. Qed.

Lemma port2_only_port_bits : port2_only (port_bits n o d).
Proof.
  intros r x v Hd Ho Hr. unfold port_bits, upd in *.
  destruct x; try contradiction; exact Hr.
Qed.

#[local] Hint Resolve port_SCL_low port_SCL_release port_SDA_low
  port_SDA_release port2_only_port_bits : fw.

Lemma port_i2c_start : keeps (port_bits n o d) i2c_start.
Proof. unfold i2c_start; fw. Qed.
Lemma port_i2c_stop : keeps (port_bits n o d) i2c_stop.
Proof. unfold i2c_stop; fw. Qed.
Lemma port_i2c_write_bit b : keeps (port_bits n o d) (i2c_write_bit b).
Proof. unfold i2c_write_bit; fw. Qed.
Lemma port_i2c_read_ack : keeps (port_bits n o d) i2c_read_ack.
Proof. unfold i2c_read_ack; fw. Qed.

#[local] Hint Resolve port_i2c_start port_i2c_stop port_i2c_write_bit
  port_i2c_read_ack : fw.

Lemma port_oled_write control data :
  keeps (port_bits n o d) (oled_write control data).
Proof. unfold oled_write. fw. Qed.

End OtherPins.

(** X1: a transfer stores to no register other than P2OUT, P2DIR and P3OUT,
    so every other register is what it was when [oled_write] returns; and
    in P2OUT and P2DIR the bits of every pin other than SCL and SDA are, at
    every point of the transfer, what they were when it started. *)
Theorem oled_write_frame n o d control data m x :
  0 <= n < 8 -> n <> SCL -> n <> SDA ->
  port_bits n o d (regs m) ->
  transfer_regs x = false ->
  throughout (port_bits n o d) (regs m) (trace (oled_write control data m)) /\
  writes_to x (trace (oled_write control data m)) = [] /\
  regs (final (oled_write control data m)) x = regs m x.
Proof.
  intros Hn Hscl Hsda Hm Hx. refine (conj _ (conj _ _)).
  - apply port_oled_write; assumption.
  - apply (writes_within_untouched transfer_regs);
      [apply writes_within_oled_write | exact Hx].
  - apply (only_untouched transfer_regs);
      [apply writes_within_oled_write | apply faithful_oled_write | exact Hx].
Qed.

Lemma oled_write_frame_witness :
  throughout (port_bits 3 false false) (regs (machine_at_rest always_ack))
    (trace (oled_write 0x00 0xAF (machine_at_rest always_ack))) /\
  writes_to P2REN (trace (oled_write 0x00 0xAF (machine_at_rest always_ack)))
    = [] /\
  regs (final (oled_write 0x00 0xAF (machine_at_rest always_ack))) P2REN =
  regs (machine_at_rest always_ack) P2REN.
Proof.
  apply (oled_write_frame 3 false false 0x00 0xAF
           (machine_at_rest always_ack) P2REN);
    [lia | discriminate | discriminate | split; reflexivity | reflexivity].
Defined.

(** ** The waveform of one bit *)

Ltac wave_eval :=
  rewrite ?trace_bind;
  repeat (rewrite wave_app;
          rewrite <- ?faithful_SDA_release, <- ?faithful_SCL_release,
                  <- ?faithful_SDA_low, <- ?faithful_SCL_low,
                  <- ?faithful_delay_short, <- ?faithful_SDA_read);
  rewrite ?wave_SDA_release, ?wave_SCL_release, ?wave_SDA_low, ?wave_SCL_low;
  autorewrite with i2c.

(** X2: for every value of its [uint8_t] parameter, started with SCL low,
    [i2c_write_bit] first puts the bit on SDA
    (released for a nonzero bit, driven low for zero) while SCL is low, then
    releases SCL, then pulls SCL low again; SDA does not move while SCL is
    released, and 100 cycles follow each of the three steps.  [i2c_read_ack]
    does the same with SDA released. *)
Theorem bit_cell_waveform bit m :
  0 <= bit < 256 ->
  pin (regs m) SCL = DrivenLow ->
  let sda := if truthy bit then Released else DrivenLow in
  wave (regs m) (trace (i2c_write_bit bit m)) =
    (if level_eqb (pin (regs m) SDA) sda then []
     else [Lines DrivenLow sda]) ++
    [Gap 100; Lines Released sda; Gap 100; Lines DrivenLow sda; Gap 100] /\
  wave (regs m) (trace (i2c_read_ack m)) =
    (if level_eqb (pin (regs m) SDA) Released then []
     else [Lines DrivenLow Released]) ++
    [Gap 100; Lines Released Released;
     Gap 100; Lines DrivenLow Released; Gap 100].
Proof.
  intros _ Hc sda. split.
  - unfold i2c_write_bit. subst sda. destruct (truthy bit).
    + wave_eval. rewrite Hc. destruct (pin (regs m) SDA); reflexivity.
    + wave_eval. rewrite Hc. destruct (pin (regs m) SDA); reflexivity.
  - unfold i2c_read_ack. wave_eval.
    rewrite ?trace_SDA_read, ?trace_ret. cbn [wave apply_event].
    autorewrite with i2c. rewrite Hc.
    destruct (pin (regs m) SDA); reflexivity.
Qed.

Lemma bit_cell_waveform_witness :
  wave (regs machine_data_low) (trace (i2c_write_bit 1 machine_data_low)) =
    [Lines DrivenLow Released;
     Gap 100; Lines Released Released;
     Gap 100; Lines DrivenLow Released; Gap 100].
Proof.
  exact (proj1 (bit_cell_waveform 1 machine_data_low ltac:(lia)
                  ltac:(reflexivity))).
Defined.

(** ** Samples taken by a transfer *)

Lemma p2in_silent {A} (c : M A) m : silent c -> p2in (final (c m)) = p2in m.
Proof. intros Hc. apply Hc. Qed.

Lemma reads_silent {A} (c : M A) m : silent c -> reads (final (c m)) = reads m.
Proof. intros Hc. apply Hc. Qed.

Lemma silent_led_update ok : silent (led_update ok).
Proof. unfold led_update. fw. Qed.

Lemma oled_write_oracle control data m :
  p2in (final (oled_write control data m)) = p2in m /\
  reads (final (oled_write control data m)) =
    (reads m + bytes_sent (ack_at m 0) (ack_at m 1))%nat.
Proof.
  pose proof silent_i2c_start as Hstart. pose proof silent_i2c_stop as Hstop.
  pose proof silent_led_update as Hled.
  destruct (ack_at m 0) eqn:H0; [destruct (ack_at m 1) eqn:H1|];
    cbn [bytes_sent].
  - rewrite oled_write_acked by assumption.
    rewrite !final_bind, final_ret.
    rewrite (p2in_silent i2c_stop), (reads_silent i2c_stop) by exact Hstop.
    rewrite (p2in_silent (led_update _)), (reads_silent (led_update _))
      by apply Hled.
    destruct (i2c_write_byte_oracle data
      (final (i2c_write_byte control
        (final (i2c_write_byte SSD1315_ADDR_WRITE (final (i2c_start m)))))))
      as (-> & -> & _).
    destruct (i2c_write_byte_oracle control
      (final (i2c_write_byte SSD1315_ADDR_WRITE (final (i2c_start m)))))
      as (-> & -> & _).
    destruct (i2c_write_byte_oracle SSD1315_ADDR_WRITE (final (i2c_start m)))
      as (-> & -> & _).
    rewrite (p2in_silent i2c_start), (reads_silent i2c_start) by exact Hstart.
    split; [reflexivity | lia].
  - rewrite oled_write_nack_control by assumption.
    rewrite !final_bind, final_ret.
    rewrite (p2in_silent i2c_stop), (reads_silent i2c_stop) by exact Hstop.
    destruct (i2c_write_byte_oracle control
      (final (i2c_write_byte SSD1315_ADDR_WRITE (final (i2c_start m)))))
      as (-> & -> & _).
    destruct (i2c_write_byte_oracle SSD1315_ADDR_WRITE (final (i2c_start m)))
      as (-> & -> & _).
    rewrite (p2in_silent i2c_start), (reads_silent i2c_start) by exact Hstart.
    split; [reflexivity | lia].
  - rewrite oled_write_nack_address by assumption.
    rewrite !final_bind, final_ret.
    rewrite (p2in_silent i2c_stop), (reads_silent i2c_stop) by exact Hstop.
    destruct (i2c_write_byte_oracle SSD1315_ADDR_WRITE (final (i2c_start m)))
      as (-> & -> & _).
    rewrite (p2in_silent i2c_start), (reads_silent i2c_start) by exact Hstart.
    split; [reflexivity | lia].
Qed.

Lemma ack_at_oled_write control data m k :
  ack_at (final (oled_write control data m)) k =
  ack_at m (bytes_sent (ack_at m 0) (ack_at m 1) + k).
Proof.
  unfold ack_at at 1. destruct (oled_write_oracle control data m) as [-> ->].
  unfold ack_at at 3. rewrite Nat.add_assoc. reflexivity.
Qed.

Lemma only_bytes_sampled control data :
  forall m, length (filter (fun e => match e with EvSample _ => true
                                     | _ => false end)
                      (trace (oled_write control data m))) =
            (reads (final (oled_write control data m)) - reads m)%nat.
Proof.
  assert (forall A (c : M A), silent c -> only not_sample c ->
          forall m, filter (fun e => match e with EvSample _ => true
                                     | _ => false end) (trace (c m)) = [])
    as Hquiet.
  { intros A c _ Hc m. specialize (Hc m).
    induction Hc as [|e t He Ht IH]; [reflexivity|].
    cbn [filter]. destruct e; try exact IH. contradiction. }
  assert (forall b m, length (filter (fun e => match e with EvSample _ => true
                                     | _ => false end)
                        (trace (i2c_write_byte b m))) = 1%nat) as Hbyte.
  { intros b m. rewrite i2c_write_byte_unrolled, trace_bind, filter_app.
    rewrite (Hquiet _ (write_bits _) (silent_write_bits _)).
    - unfold i2c_read_ack. rewrite !trace_bind, !filter_app.
      rewrite trace_SDA_read, trace_ret.
      rewrite !(Hquiet _ SDA_release), !(Hquiet _ SCL_release),
        !(Hquiet _ SCL_low), !(Hquiet _ delay_short) by (fw || ev).
      reflexivity.
    - apply only_write_bits. intros x. ev. }
  intros m. destruct (oled_write_oracle control data m) as [_ ->].
  destruct (ack_at m 0) eqn:H0; [destruct (ack_at m 1) eqn:H1|];
    cbn [bytes_sent].
  - rewrite oled_write_acked by assumption.
    rewrite !trace_bind, !filter_app, !length_app, !Hbyte, trace_ret.
    rewrite (Hquiet _ i2c_start), (Hquiet _ i2c_stop),
      (Hquiet _ (led_update _)) by (fw || apply silent_led_update
                                    || (unfold led_update; ev)).
    cbn [length filter]. lia.
  - rewrite oled_write_nack_control by assumption.
    rewrite !trace_bind, !filter_app, !length_app, !Hbyte, trace_ret.
    rewrite (Hquiet _ i2c_start), (Hquiet _ i2c_stop) by (fw || ev).
    cbn [length filter]. lia.
  - rewrite oled_write_nack_address by assumption.
    rewrite !trace_bind, !filter_app, !length_app, !Hbyte, trace_ret.
    rewrite (Hquiet _ i2c_start), (Hquiet _ i2c_stop) by (fw || ev).
    cbn [length filter]. lia.
Qed.

(** X3: a transfer reads P2IN exactly once for each byte it puts on the bus
    (one byte after an address NACK, two after a control NACK, three
    otherwise) and for nothing else, so the next transfer meets the slave's
    answers that follow. *)
Theorem oled_write_samples control data m k :
  let sent := bytes_sent (ack_at m 0) (ack_at m 1) in
  length (filter (fun e => match e with EvSample _ => true | _ => false end)
            (trace (oled_write control data m))) = sent /\
  reads (final (oled_write control data m)) = (reads m + sent)%nat /\
  p2in (final (oled_write control data m)) = p2in m /\
  ack_at (final (oled_write control data m)) k = ack_at m (sent + k).
Proof.
  intros sent. destruct (oled_write_oracle control data m) as [Hp Hr].
  refine (conj _ (conj Hr (conj Hp _))).
  - rewrite only_bytes_sampled, Hr. subst sent. lia.
  - apply ack_at_oled_write.
Qed.

(** ** Time spent waiting *)

Lemma takes_ret {A} (a : A) : takes 0 (ret a).
Proof. intros m. reflexivity. Qed.

Lemma takes_bind {A B} n1 n2 n (c : M A) (f : A -> M B) :
  takes n1 c -> (forall a, takes n2 (f a)) -> n = n1 + n2 ->
  takes n (bind c f).
Proof.
  intros Hc Hf -> m. rewrite trace_bind, cycles_app, Hc, Hf. reflexivity.
Qed.

Lemma takes_if {A} n (b : bool) (c1 c2 : M A) :
  takes n c1 -> takes n c2 -> takes n (if b then c1 else c2).
Proof. destruct b; auto. Qed.

Lemma takes_load r : takes 0 (load r).
Proof. intros m. destruct r; reflexivity. Qed.

Lemma takes_load_P2IN : takes 0 load_P2IN.
Proof. intros m. reflexivity. Qed.

Lemma takes_store r v : takes 0 (store r v).
Proof. intros m. reflexivity. Qed.

Lemma takes_delay_cycles n : takes n (__delay_cycles n).
Proof. intros m. cbn. lia. Qed.

Lemma takes_times n k body :
  takes n body -> takes (Z.of_nat k * n) (times k body).
Proof.
  intros Hb. induction k as [|k IH]; cbn [times].
  - apply takes_ret.
  - eapply takes_bind; [exact Hb | intros _; exact IH | lia].
Qed.

Lemma takes_while n c body :
  takes n body -> takes (wrap16 c * n) (while_postdec c body).
Proof.
  intros Hb m. rewrite while_postdec_times.
  rewrite (takes_times n _ body Hb m), Z2Nat.id; [reflexivity|].
  pose proof (wrap16_range c). lia.
Qed.

Lemma takes_delay_cycles_const n : takes (wrap16 n * 1000) (delay_cycles_const n).
Proof. apply takes_while, takes_delay_cycles. Qed.

Lemma takes_delay_ms ms : takes (wrap16 ms * 5000) (delay_ms ms).
Proof.
  intros m. unfold delay_ms.
  rewrite (takes_while _ _ _ (takes_delay_cycles_const 5) m).
  rewrite (wrap16_small 5) by lia. lia.
Qed.

Lemma takes_delay_s s : takes (wrap16 s * 5000000) (delay_s s).
Proof.
  intros m. unfold delay_s.
  rewrite (takes_while _ _ _ (takes_delay_ms 1000) m).
  rewrite (wrap16_small 1000) by lia. lia.
Qed.

Ltac takes_step :=
  lazymatch goal with
  | |- takes _ (bind _ _) => eapply takes_bind; [| intros ? |]
  | |- takes _ (if _ then _ else _) => apply takes_if
  | |- takes _ (ret _) => apply takes_ret
  | |- takes _ (load _) => apply takes_load
  | |- takes _ load_P2IN => apply takes_load_P2IN
  | |- takes _ (store _ _) => apply takes_store
  | |- takes _ (__delay_cycles _) => apply takes_delay_cycles
  | |- takes _ delay_short => apply takes_delay_cycles
  | |- _ = _ => reflexivity
  end.

Ltac takes_prims :=
  unfold SCL_low, SCL_release, SDA_low, SDA_release, SDA_read,
    and_assign, or_assign;
  repeat takes_step.

Lemma takes_SCL_low : takes 0 SCL_low.
Proof. takes_prims. Qed.
Lemma takes_SCL_release : takes 0 SCL_release.
Proof. takes_prims. Qed.
Lemma takes_SDA_low : takes 0 SDA_low.
Proof. takes_prims. Qed.
Lemma takes_SDA_release : takes 0 SDA_release.
Proof. takes_prims. Qed.
Lemma takes_SDA_read : takes 0 SDA_read.
Proof. takes_prims. Qed.

Lemma takes_i2c_idle : takes 100 i2c_idle.
Proof. unfold i2c_idle. takes_prims. Qed.

Lemma takes_i2c_start : takes 300 i2c_start.
Proof. unfold i2c_start. takes_prims. Qed.

Lemma takes_i2c_stop : takes 300 i2c_stop.
Proof. unfold i2c_stop. takes_prims. Qed.

Lemma takes_i2c_write_bit bit : takes 300 (i2c_write_bit bit).
Proof. unfold i2c_write_bit. takes_prims. Qed.

Lemma takes_i2c_read_ack : takes 300 i2c_read_ack.
Proof. unfold i2c_read_ack. takes_prims. Qed.

Lemma takes_write_bits bits :
  takes (Z.of_nat (length bits) * 300) (write_bits bits).
Proof.
  induction bits as [|b bits IH]; cbn [write_bits].
  - apply takes_ret.
  - eapply takes_bind; [apply takes_i2c_write_bit | intros _; exact IH |].
    cbn [length]. lia.
Qed.

Lemma takes_i2c_write_byte b : takes 2700 (i2c_write_byte b).
Proof.
  intros m. rewrite i2c_write_byte_unrolled. revert m.
  eapply takes_bind;
    [apply takes_write_bits | intros _; apply takes_i2c_read_ack | reflexivity].
Qed.

Lemma takes_led_update ok : takes 0 (led_update ok).
Proof. unfold led_update. takes_prims. Qed.

Ltac takes_fw :=
  repeat lazymatch goal with
  | |- takes _ (bind _ _) => eapply takes_bind; [| intros ? |]
  | |- takes _ (ret _) => apply takes_ret
  | |- takes _ i2c_start => apply takes_i2c_start
  | |- takes _ i2c_stop => apply takes_i2c_stop
  | |- takes _ i2c_idle => apply takes_i2c_idle
  | |- takes _ (i2c_write_byte _) => apply takes_i2c_write_byte
  | |- takes _ (led_update _) => apply takes_led_update
  | |- takes _ (store _ _) => apply takes_store
  | |- takes _ (load _) => apply takes_load
  | |- takes _ (and_assign _ _) => unfold and_assign
  | |- takes _ (or_assign _ _) => unfold or_assign
  | |- takes _ (if _ then _ else _) => apply takes_if
  | |- takes _ (delay_ms _) => apply takes_delay_ms
  | |- takes _ (delay_s _) => apply takes_delay_s
  | |- _ = _ => reflexivity
  end.

Lemma takes_transfer_acked control data :
  takes 8700 (i2c_start ;; i2c_write_byte SSD1315_ADDR_WRITE ;;
              i2c_write_byte control ;; ok <- i2c_write_byte data ;;
              led_update ok ;; i2c_stop ;; ret ok).
Proof. takes_fw. Qed.

Lemma takes_transfer_nack_control control :
  takes 6000 (i2c_start ;; i2c_write_byte SSD1315_ADDR_WRITE ;;
              i2c_write_byte control ;; i2c_stop ;; ret 0).
Proof. takes_fw. Qed.

Lemma takes_transfer_nack_address :
  takes 3300 (i2c_start ;; i2c_write_byte SSD1315_ADDR_WRITE ;;
              i2c_stop ;; ret 0).
Proof. takes_fw. Qed.

Lemma takes_oled_write control data m :
  cycles (trace (oled_write control data m)) =
  transfer_cycles (ack_at m 0) (ack_at m 1).
Proof.
  destruct (ack_at m 0) eqn:H0; [destruct (ack_at m 1) eqn:H1|];
    cbn [transfer_cycles].
  - rewrite oled_write_acked by assumption.
    exact (takes_transfer_acked control data m).
  - rewrite oled_write_nack_control by assumption.
    exact (takes_transfer_nack_control control m).
  - rewrite oled_write_nack_address by assumption.
    exact (takes_transfer_nack_address m).
Qed.

(** X4: the time an I2C primitive spends in [delay_short] does not depend on
    the data or on the slave: 300 cycles for a START, a STOP, a bit cell and
    the acknowledge slot, 2700 for a byte; and a transfer spends 600 cycles
    plus 2700 for each byte it sends, that is 3300, 6000 or 8700 according
    to where the slave first fails to acknowledge. *)
Theorem transfer_wait_budget bit b control data m :
  (takes 300 i2c_start /\ takes 300 i2c_stop /\
   takes 300 (i2c_write_bit bit) /\ takes 300 i2c_read_ack /\
   takes 2700 (i2c_write_byte b)) /\
  cycles (trace (oled_write control data m)) =
    transfer_cycles (ack_at m 0) (ack_at m 1) /\
  transfer_cycles (ack_at m 0) (ack_at m 1) =
    600 + 2700 * Z.of_nat (bytes_sent (ack_at m 0) (ack_at m 1)).
Proof.
  refine (conj (conj _ (conj _ (conj _ (conj _ _)))) (conj _ _)).
  - apply takes_i2c_start.
  - apply takes_i2c_stop.
  - apply takes_i2c_write_bit.
  - apply takes_i2c_read_ack.
  - apply takes_i2c_write_byte.
  - apply takes_oled_write.
  - destruct (ack_at m 0), (ack_at m 1); reflexivity.
Qed.

(** ** One transfer after another *)

Lemma p3out_untouched {A} (c : M A) m :
  faithful c -> avoids P3OUT c -> regs (final (c m)) P3OUT = regs m P3OUT.
Proof. intros Hf Ha. rewrite Hf. apply replay_untouched, Ha. Qed.

(** P3OUT after a transfer, on each of its paths. *)
Lemma oled_write_p3out control data m :
  regs (final (oled_write control data m)) P3OUT =
  led_after (regs m P3OUT) (ack_at m 0) (ack_at m 1) (ack_at m 2).
Proof.
  unfold led_after.
  destruct (ack_at m 0) eqn:H0; [destruct (ack_at m 1) eqn:H1|]; cbn [andb].
  - rewrite oled_write_acked by assumption.
    autorewrite with binds. rewrite final_ret.
    rewrite (p3out_untouched i2c_stop) by fw.
    rewrite led_update_effect, truthy_b2z.
    rewrite !(p3out_untouched (i2c_write_byte _)) by fw.
    rewrite (p3out_untouched i2c_start) by fw.
    reflexivity.
  - rewrite faithful_oled_write.
    apply replay_untouched, oled_write_aborted_trace.
    rewrite H0, H1. reflexivity.
  - rewrite faithful_oled_write.
    apply replay_untouched, oled_write_aborted_trace.
    rewrite H0. reflexivity.
Qed.

(** X5: two commands sent one after the other from a released bus show on
    the bus as two complete transfers, the second meeting the slave's
    answers that follow those consumed by the first; the pair returns what
    the second returns, leaves the bus released, and leaves in P3OUT what
    the two LED stores make of it in turn. *)
Theorem oled_cmd_sequence c1 c2 m :
  0 <= c1 < 256 -> 0 <= c2 < 256 -> bus_released (regs m) ->
  let j := bytes_sent (ack_at m 0) (ack_at m 1) in
  let r := (oled_cmd c1 ;; oled_cmd c2) m in
  bus (regs m) (trace r) =
    transfer_view OLED_CTRL_CMD c1 (ack_at m 0) (ack_at m 1) (ack_at m 2) ++
    transfer_view OLED_CTRL_CMD c2
      (ack_at m j) (ack_at m (j + 1)) (ack_at m (j + 2)) /\
  value r =
    (if ack_at m j then
       if ack_at m (j + 1) then Z.b2z (ack_at m (j + 2)) else 0 else 0) /\
  regs (final r) P3OUT =
    led_after
      (led_after (regs m P3OUT) (ack_at m 0) (ack_at m 1) (ack_at m 2))
      (ack_at m j) (ack_at m (j + 1)) (ack_at m (j + 2)) /\
  bus_released (regs (final r)).
Proof.
  intros Hc1 Hc2 Hrel j r. subst r. unfold oled_cmd.
  rewrite trace_bind, final_bind, value_bind.
  pose proof (released_after_oled_write OLED_CTRL_CMD c1 m) as Hrel2.
  assert (forall k, ack_at (final (oled_write OLED_CTRL_CMD c1 m)) k =
                    ack_at m (j + k)) as Hack
    by (intros k; apply ack_at_oled_write).
  refine (conj _ (conj _ (conj _ _))).
  - unfold bus.
    destruct (oled_write_decode OLED_CTRL_CMD c1 m Hrel) as [Hd1 Hp1].
    destruct (oled_write_decode OLED_CTRL_CMD c2 _ Hrel2) as [Hd2 _].
    rewrite decode_app, Hd1, Hp1, Hd2.
    rewrite frames_transfer by (unfold OLED_CTRL_CMD; lia).
    rewrite <- (app_nil_r (transfer_syms OLED_CTRL_CMD c2 _ _ _)).
    rewrite frames_transfer by (unfold OLED_CTRL_CMD; lia).
    rewrite app_nil_r, !Hack, Nat.add_0_r. reflexivity.
  - rewrite value_oled_write, !Hack, Nat.add_0_r. reflexivity.
  - rewrite !oled_write_p3out, !Hack, Nat.add_0_r. reflexivity.
  - apply released_after_oled_write.
Qed.

Lemma oled_cmd_sequence_witness :
  bus (regs (machine_at_rest nack_payload))
      (trace ((oled_cmd 0x8D ;; oled_cmd 0x14) (machine_at_rest nack_payload)))
  = [BusStart; BusByte 0x78 true; BusByte 0x00 true; BusByte 0x8D false;
     BusStop;
     BusStart; BusByte 0x78 true; BusByte 0x00 true; BusByte 0x14 true;
     BusStop].
Proof.
  exact (proj1 (oled_cmd_sequence 0x8D 0x14 (machine_at_rest nack_payload)
                  ltac:(lia) ltac:(lia) ltac:(split; reflexivity))).
Defined.

(** ** The GPIO initialisation from any state *)

Lemma oled_gpio_init_port2 H m :
  let r := regs (final (oled_gpio_init H m)) in
  r P2OUT = bset (Z.land (regs m P2OUT) (Z.lnot 7) mod 2 ^ 8) RES /\
  r P2DIR = bclr (bclr (bset (regs m P2DIR) RES) SDA) SCL /\
  r P2REN = Z.land (regs m P2REN) (Z.lnot 6) mod 2 ^ 8 /\
  r PM5CTL0 =
    if PM5CTL0_defined H
    then Z.land (regs m PM5CTL0) (Z.lnot (LOCKLPM5 H)) mod 2 ^ 16
    else regs m PM5CTL0.
Proof.
  unfold oled_gpio_init, USE_INTERNAL_PULLUPS. cbv beta iota zeta.
  destruct (PM5CTL0_defined H); refine (conj _ (conj _ (conj _ _)));
    reflexivity.
Qed.

Lemma testbit_7_high n : 3 <= n -> Z.testbit 7 n = false.
Proof.
  intros Hn. change 7 with (Z.ones 3). apply Z.ones_spec_high. lia.
Qed.

Lemma testbit_6_high n : 3 <= n -> Z.testbit 6 n = false.
Proof.
  intros Hn. destruct (Z.testbit 6 n) eqn:E; [|reflexivity].
  assert (Z.testbit 6 n = Z.testbit 7 n || false) as E'.
  { change 6 with (Z.land 7 6) at 1.
    rewrite Z.land_spec, testbit_7_high by lia. reflexivity. }
  rewrite E, testbit_7_high in E' by lia. discriminate.
Qed.

(** X6: whatever the registers hold before, after [oled_gpio_init] RES is an
    output at high level and SCL and SDA are inputs whose output bits are 0,
    so that setting a direction bit later drives the line low, and whose
    pull resistors are disabled; the bits of pins 3 to 7 in P2OUT, P2DIR
    and P2REN are as before; no register other than P2OUT, P2DIR, P2REN and
    PM5CTL0 is stored to or changed; and PM5CTL0 has the bits of LOCKLPM5
    cleared where the header defines it and is as before where not. *)
Theorem oled_gpio_init_post H m n x :
  3 <= n < 8 -> gpio_init_regs x = false ->
  let r := regs (final (oled_gpio_init H m)) in
  (pin r RES = DrivenHigh /\ pin r SCL = Released /\ pin r SDA = Released) /\
  (Z.testbit (r P2OUT) SCL = false /\ Z.testbit (r P2OUT) SDA = false /\
   Z.testbit (r P2REN) SCL = false /\ Z.testbit (r P2REN) SDA = false) /\
  (Z.testbit (r P2OUT) n = Z.testbit (regs m P2OUT) n /\
   Z.testbit (r P2DIR) n = Z.testbit (regs m P2DIR) n /\
   Z.testbit (r P2REN) n = Z.testbit (regs m P2REN) n) /\
  (writes_to x (trace (oled_gpio_init H m)) = [] /\ r x = regs m x) /\
  r PM5CTL0 =
    (if PM5CTL0_defined H
     then Z.land (regs m PM5CTL0) (Z.lnot (LOCKLPM5 H)) mod 2 ^ 16
     else regs m PM5CTL0).
Proof.
  intros Hn Hx r.
  destruct (oled_gpio_init_port2 H m) as (Hout & Hdir & Hren & Hpm).
  fold r in Hout, Hdir, Hren, Hpm.
  refine (conj (conj _ (conj _ _)) (conj (conj _ (conj _ (conj _ _)))
            (conj (conj _ (conj _ _)) (conj (conj _ _) _)))).
  - apply res_bits_high, res_after_gpio_init.
  - apply released_after_gpio_init.
  - apply released_after_gpio_init.
  - rewrite Hout, testbit_bset by pin_index.
    rewrite Z.mod_pow2_bits_low, Z.land_spec by pin_index.
    rewrite Bool.orb_false_r. apply Bool.andb_false_r.
  - rewrite Hout, testbit_bset by pin_index.
    rewrite Z.mod_pow2_bits_low, Z.land_spec by pin_index.
    rewrite Bool.orb_false_r. apply Bool.andb_false_r.
  - rewrite Hren, Z.mod_pow2_bits_low, Z.land_spec by pin_index.
    apply Bool.andb_false_r.
  - rewrite Hren, Z.mod_pow2_bits_low, Z.land_spec by pin_index.
    apply Bool.andb_false_r.
  - rewrite Hout, testbit_bset by pin_index.
    rewrite Z.mod_pow2_bits_low, Z.land_spec, Z.lnot_spec by lia.
    rewrite testbit_7_high by lia.
    replace (n =? RES) with false by (symmetry; apply Z.eqb_neq; pin_index).
    rewrite Bool.orb_false_r. apply Bool.andb_true_r.
  - rewrite Hdir, !testbit_bclr, testbit_bset by pin_index.
    replace (n =? RES) with false by (symmetry; apply Z.eqb_neq; pin_index).
    replace (n =? SDA) with false by (symmetry; apply Z.eqb_neq; pin_index).
    replace (n =? SCL) with false by (symmetry; apply Z.eqb_neq; pin_index).
    cbn [negb]. rewrite Bool.orb_false_r, !Bool.andb_true_r. reflexivity.
  - rewrite Hren, Z.mod_pow2_bits_low, Z.land_spec, Z.lnot_spec by lia.
    rewrite testbit_6_high by lia. apply Bool.andb_true_r.
  - apply (writes_within_untouched gpio_init_regs);
      [apply writes_within_gpio_init | exact Hx].
  - apply (only_untouched gpio_init_regs);
      [apply writes_within_gpio_init | apply faithful_oled_gpio_init
      | exact Hx].
  - exact Hpm.
Qed.

Lemma oled_gpio_init_post_witness :
  let r := regs (final (oled_gpio_init example_header machine_port2_high)) in
  pin r SCL = Released /\ Z.testbit (r P2OUT) SCL = false /\
  Z.testbit (r P2OUT) 3 = true /\ r P3OUT = 0x01.
Proof.
  pose proof (oled_gpio_init_post example_header machine_port2_high 3 P3OUT
                ltac:(lia) ltac:(reflexivity))
    as ((_ & Hscl & _) & (Hout & _) & (H3 & _) & (_ & Hp3) & _).
  exact (conj Hscl (conj Hout (conj H3 Hp3))).
Defined.

(** ** START, STOP and a transfer from any state of the lines *)

Lemma i2c_start_decode_any m l :
  decode (regs m, l) (trace (i2c_start m)) =
    stop_before_start (pin (regs m) SCL) (pin (regs m) SDA) ++ [SymStart] /\
  probe_after (regs m, l) (trace (i2c_start m)) =
    (regs (final (i2c_start m)), None).
Proof.
  unfold i2c_start, stop_before_start. i2c_eval.
  destruct (pin (regs m) SCL), (pin (regs m) SDA), l; i2c_eval;
    split; reflexivity.
Qed.

Lemma i2c_stop_decode_any m l :
  decode (regs m, l) (trace (i2c_stop m)) =
    start_before_stop (pin (regs m) SCL) (pin (regs m) SDA) ++ [SymStop] /\
  probe_after (regs m, l) (trace (i2c_stop m)) =
    (regs (final (i2c_stop m)), None).
Proof.
  unfold i2c_stop, start_before_stop. i2c_eval.
  destruct (pin (regs m) SCL), (pin (regs m) SDA), l; i2c_eval;
    split; reflexivity.
Qed.

(** X7: whatever the levels of the two lines and the analyser's latch,
    [i2c_start] shows on the bus as a START, preceded by a STOP exactly when
    SDA was low while SCL was high, and ends with both lines driven low;
    [i2c_stop] shows as a STOP, preceded by a START exactly when both lines
    were high, and ends with both lines released.  Neither ever shows as a
    data bit. *)
Theorem start_stop_from_any_state m l :
  (decode (regs m, l) (trace (i2c_start m)) =
     stop_before_start (pin (regs m) SCL) (pin (regs m) SDA) ++ [SymStart] /\
   pin (regs (final (i2c_start m))) SCL = DrivenLow /\
   pin (regs (final (i2c_start m))) SDA = DrivenLow) /\
  (decode (regs m, l) (trace (i2c_stop m)) =
     start_before_stop (pin (regs m) SCL) (pin (regs m) SDA) ++ [SymStop] /\
   bus_released (regs (final (i2c_stop m)))).
Proof.
  refine (conj (conj _ (conj _ _)) (conj _ (conj _ _))).
  - apply i2c_start_decode_any.
  - apply i2c_start_pins.
  - apply i2c_start_pins.
  - apply i2c_stop_decode_any.
  - apply i2c_stop_pins.
  - apply i2c_stop_pins.
Qed.

Lemma oled_write_decode_any control data m l :
  decode (regs m, l) (trace (oled_write control data m)) =
    stop_before_start (pin (regs m) SCL) (pin (regs m) SDA) ++
    transfer_syms control data (ack_at m 0) (ack_at m 1) (ack_at m 2) /\
  probe_after (regs m, l) (trace (oled_write control data m)) =
    (regs (final (oled_write control data m)), None).
Proof.
  destruct (i2c_start_decode_any m l) as [Hd0 Hp0].
  destruct (i2c_start_pins m) as [Hc1 _].
  unfold transfer_syms, byte_syms.
  destruct (ack_at m 0) eqn:H0; [destruct (ack_at m 1) eqn:H1|].
  - rewrite oled_write_acked by assumption.
    rewrite (decode_bind _ _ _ _ _ _ Hd0 Hp0), (probe_bind _ _ _ _ _ Hp0).
    cbv beta. repeat transfer_step.
    rewrite !ack_at_write_byte, !ack_at_start, H0, H1.
    transfer_done.
  - rewrite oled_write_nack_control by assumption.
    rewrite (decode_bind _ _ _ _ _ _ Hd0 Hp0), (probe_bind _ _ _ _ _ Hp0).
    cbv beta. repeat transfer_step.
    rewrite !ack_at_write_byte, !ack_at_start, H0, H1.
    transfer_done.
  - rewrite oled_write_nack_address by assumption.
    rewrite (decode_bind _ _ _ _ _ _ Hd0 Hp0), (probe_bind _ _ _ _ _ Hp0).
    cbv beta. repeat transfer_step.
    rewrite ?ack_at_write_byte, !ack_at_start, H0.
    transfer_done.
Qed.

(** X8: a transfer does not need the bus released when it starts: from any
    levels of the two lines it shows on the bus as the same complete
    transfer, preceded by a STOP exactly when SDA was low while SCL was
    high, and by nothing otherwise; in particular, started with SCL held
    low it shows as a repeated START. *)
Theorem oled_write_from_any_state control data m :
  0 <= control < 256 -> 0 <= data < 256 ->
  bus (regs m) (trace (oled_write control data m)) =
    (if high (pin (regs m) SCL) && negb (high (pin (regs m) SDA))
     then [BusStop] else []) ++
    transfer_view control data (ack_at m 0) (ack_at m 1) (ack_at m 2).
Proof.
  intros Hctl Hdat. unfold bus.
  destruct (oled_write_decode_any control data m None) as [-> _].
  unfold stop_before_start.
  destruct (high (pin (regs m) SCL) && negb (high (pin (regs m) SDA)));
    cbn [app]; rewrite ?frames_stop;
    rewrite <- (app_nil_r (transfer_syms _ _ _ _ _));
    rewrite frames_transfer by assumption; rewrite app_nil_r; reflexivity.
Qed.

Lemma oled_write_from_any_state_witness :
  bus (regs machine_sda_held) (trace (oled_write 0x00 0xAF machine_sda_held)) =
    [BusStop; BusStart; BusByte 0x78 true; BusByte 0x00 true;
     BusByte 0xAF true; BusStop] /\
  bus (regs machine_data_low) (trace (oled_write 0x00 0xAF machine_data_low)) =
    [BusStart; BusByte 0x78 true; BusByte 0x00 true;
     BusByte 0xAF true; BusStop].
Proof.
  split.
  - exact (oled_write_from_any_state 0x00 0xAF machine_sda_held
             ltac:(lia) ltac:(lia)).
  - exact (oled_write_from_any_state 0x00 0xAF machine_data_low
             ltac:(lia) ltac:(lia)).
Defined.

(** ** The whole of [main] *)

#[local] Hint Resolve released_SCL_release released_SDA_release
  released_oled_reset_pulse : fw.

Lemma released_i2c_idle : keeps bus_released i2c_idle.
Proof. unfold i2c_idle; fw. Qed.

Lemma released_clock_init H : keeps bus_released (clock_init_dco_default H).
Proof. unfold clock_init_dco_default. fw. Qed.

#[local] Hint Resolve released_i2c_idle released_clock_init : fw.

Lemma released_oled_gpio_init H : keeps bus_released (oled_gpio_init H).
Proof.
  unfold oled_gpio_init, USE_INTERNAL_PULLUPS. cbv beta iota. fw.
Qed.

#[local] Hint Resolve released_oled_gpio_init : fw.

Lemma released_main_to_gpio_init H :
  keeps bus_released (main_to_gpio_init H).
Proof. unfold main_to_gpio_init. fw. Qed.

#[local] Hint Resolve released_main_to_gpio_init : fw.

Lemma released_main_to_reset H : keeps bus_released (main_to_reset H).
Proof. unfold main_to_reset. fw. Qed.

Lemma silent_clock_init H : silent (clock_init_dco_default H).
Proof. unfold clock_init_dco_default. fw. Qed.

Lemma silent_oled_gpio_init H : silent (oled_gpio_init H).
Proof.
  unfold oled_gpio_init, USE_INTERNAL_PULLUPS. cbv beta iota. fw.
Qed.

Lemma silent_oled_reset_pulse : silent oled_reset_pulse.
Proof. unfold oled_reset_pulse. fw. Qed.

#[local] Hint Resolve silent_clock_init silent_oled_gpio_init
  silent_oled_reset_pulse : fw.

Lemma silent_main_to_reset H : silent (main_to_reset H).
Proof. unfold main_to_reset, main_to_gpio_init. fw. Qed.

Lemma quiet_main_to_reset H : only not_sample (main_to_reset H).
Proof. ev. Qed.

(** While both lines stay released and nothing is sampled the analyser
    sees nothing. *)
Lemma decode_released r l t :
  throughout bus_released r t -> Forall not_sample t ->
  decode (r, l) t = [] /\ probe_after (r, l) t = (replay r t, l).
Proof.
  intros Ht Hs. revert r Ht.
  induction Hs as [|e t He Hs IH]; intros r Ht; [split; reflexivity|].
  destruct Ht as [[Hc Hd] Ht].
  pose proof (throughout_start _ _ _ Ht) as [Hc' Hd'].
  destruct e as [x v|v|n]; cbn [not_sample] in He; try contradiction.
  - cbn [apply_event] in *.
    cbn [decode probe_after fold_left replay decode_step apply_event].
    rewrite Hc, Hd, Hc', Hd'. cbn [high andb negb fst snd app].
    apply (IH _ Ht).
  - cbn [decode probe_after fold_left replay decode_step apply_event
         fst snd app].
    apply (IH _ Ht).
Qed.

Lemma main_to_reset_decode H m :
  bus_released (regs m) ->
  decode (regs m, None) (trace (main_to_reset H m)) = [] /\
  probe_after (regs m, None) (trace (main_to_reset H m)) =
    (regs (final (main_to_reset H m)), None).
Proof.
  intros Hrel. rewrite (faithful_main_to_reset H m).
  apply decode_released;
    [apply released_main_to_reset, Hrel | apply quiet_main_to_reset].
Qed.

(** X9: started with both lines released, as after a power-on reset, [main]
    puts nothing on the bus while it sets up the watchdog, the clock and
    the pins and pulses RES; the whole run shows on the bus as exactly two
    transfers, of the commands 0xAF and 0xA5 in this order, the second
    meeting the answers of the slave that follow those consumed by the
    first. *)
Theorem main_bus_view H k m :
  bus_released (regs m) ->
  let j := bytes_sent (ack_at m 0) (ack_at m 1) in
  decode (regs m, None) (trace (main_to_reset H m)) = [] /\
  bus (regs m) (trace (main H k m)) =
    transfer_view OLED_CTRL_CMD 0xAF (ack_at m 0) (ack_at m 1) (ack_at m 2) ++
    transfer_view OLED_CTRL_CMD 0xA5
      (ack_at m j) (ack_at m (j + 1)) (ack_at m (j + 2)).
Proof.
  intros Hrel j.
  destruct (main_to_reset_decode H m Hrel) as [Hd Hp].
  split; [exact Hd|].
  unfold bus. rewrite main_split, trace_bind, decode_app, Hd, Hp.
  cbn [app].
  pose proof (bus_main_after_reset k (final (main_to_reset H m))
                (released_after_main_to_reset H m)) as Hbus.
  unfold bus in Hbus. rewrite Hbus. unfold oled_cmd.
  rewrite !ack_at_oled_write.
  rewrite !(ack_at_silent (main_to_reset H)) by apply silent_main_to_reset.
  rewrite Nat.add_0_r. reflexivity.
Qed.

Lemma main_bus_view_witness :
  bus (regs (machine_at_rest nack_payload))
      (trace (main example_header 1 (machine_at_rest nack_payload))) =
  [BusStart; BusByte 0x78 true; BusByte 0x00 true; BusByte 0xAF false;
   BusStop;
   BusStart; BusByte 0x78 true; BusByte 0x00 true; BusByte 0xA5 true;
   BusStop].
Proof.
  exact (proj2 (main_bus_view example_header 1 (machine_at_rest nack_payload)
                  ltac:(split; reflexivity))).
Defined.

(** ** The LED pin at the end of [main] *)

Lemma final_main_after_reset k m :
  final (main_after_reset k m) =
  final (oled_cmd 0xA5 (final (oled_cmd 0xAF m))).
Proof.
  unfold main_after_reset, oled_init_minimal, USE_CHARGE_PUMP.
  cbv beta iota. rewrite !final_bind.
  rewrite main_idle_run, final_run, final_ret.
  rewrite delay_s_run, final_run. rewrite delay_ms_run, final_run.
  reflexivity.
Qed.

Lemma outside_port3_setup H :
  only (writes_within (fun x => negb (port3_regs x)))
    (clock_init_dco_default H ;; oled_gpio_init H ;; delay_ms 200 ;;
     oled_reset_pulse).
Proof. ev. Qed.

Lemma faithful_setup H :
  faithful (clock_init_dco_default H ;; oled_gpio_init H ;; delay_ms 200 ;;
            oled_reset_pulse).
Proof. fw. Qed.

Lemma main_to_reset_steps H m :
  final (main_to_reset H m) =
  final ((clock_init_dco_default H ;; oled_gpio_init H ;; delay_ms 200 ;;
          oled_reset_pulse)
         (final (and_assign P3OUT (lognot BIT4)
           (final (or_assign P3DIR BIT4
             (final (store WDTCTL (Z.lor (WDTPW H) (WDTHOLD H)) m))))))).
Proof.
  unfold main_to_reset, main_to_gpio_init. rewrite !final_bind. reflexivity.
Qed.

Lemma port3_after_main_to_reset H m :
  regs (final (main_to_reset H m)) P3OUT = 0 /\
  regs (final (main_to_reset H m)) P3DIR = Z.lor (regs m P3DIR) BIT4 mod 2 ^ 8.
Proof.
  rewrite main_to_reset_steps.
  rewrite !(only_untouched _ _ _ _ (outside_port3_setup H) (faithful_setup H))
    by reflexivity.
  split.
  - change (lognot BIT4) with 0. unfold and_assign, bind, load, store.
    cbn [final regs value upd reg_eqb]. rewrite Z.land_0_r. reflexivity.
  - reflexivity.
Qed.

Lemma outside_p3dir_after_reset k :
  only (writes_within (fun x => negb (reg_eqb P3DIR x))) (main_after_reset k).
Proof. ev. Qed.

Lemma led_after_values p a0 a1 a2 :
  p = 0 \/ p = BIT4 -> led_after p a0 a1 a2 = 0 \/ led_after p a0 a1 a2 = BIT4.
Proof.
  unfold led_after. intros [-> | ->]; destruct (a0 && a1), a2; auto.
Qed.

(** X10: whatever the registers hold at power-on, when [main] reaches its
    final loop P3.4 is an output and P3OUT is what the LED stores of the
    two transfers make of the zero that line 262 writes: every bit other
    than bit 4 is 0, and bit 4 is the acknowledge of the payload byte of
    the last transfer whose address and control byte were both
    acknowledged, 0 if there was none. *)
Theorem main_led_outcome H k m :
  let j := bytes_sent (ack_at m 0) (ack_at m 1) in
  let p := regs (final (main H k m)) P3OUT in
  p = led_after (led_after 0 (ack_at m 0) (ack_at m 1) (ack_at m 2))
        (ack_at m j) (ack_at m (j + 1)) (ack_at m (j + 2)) /\
  (p = 0 \/ p = BIT4) /\
  regs (final (main H k m)) P3DIR = Z.lor (regs m P3DIR) BIT4 mod 2 ^ 8 /\
  Z.testbit (regs (final (main H k m)) P3DIR) LED = true.
Proof.
  intros j p.
  destruct (port3_after_main_to_reset H m) as [Hout Hdir].
  assert (p = led_after (led_after 0 (ack_at m 0) (ack_at m 1) (ack_at m 2))
                (ack_at m j) (ack_at m (j + 1)) (ack_at m (j + 2))) as Hp.
  { subst p. rewrite main_split, final_bind, final_main_after_reset.
    unfold oled_cmd. rewrite !oled_write_p3out, !ack_at_oled_write, Hout.
    rewrite !(ack_at_silent (main_to_reset H)) by apply silent_main_to_reset.
    rewrite Nat.add_0_r. reflexivity. }
  assert (regs (final (main H k m)) P3DIR =
          Z.lor (regs m P3DIR) BIT4 mod 2 ^ 8) as Hd.
  { rewrite main_split, final_bind.
    rewrite (only_untouched _ _ _ _ (outside_p3dir_after_reset k)
               (faithful_main_after_reset k)) by reflexivity.
    exact Hdir. }
  refine (conj Hp (conj _ (conj Hd _))).
  - rewrite Hp. apply led_after_values, led_after_values. left. reflexivity.
  - rewrite Hd, Z.mod_pow2_bits_low, Z.lor_spec by (unfold LED; lia).
    apply Bool.orb_true_r.
Qed.

(** ** Time spent waiting by [main] *)

Lemma takes_main_to_reset H : takes 1500100 (main_to_reset H).
Proof.
  unfold main_to_reset, main_to_gpio_init, clock_init_dco_default,
    oled_gpio_init, oled_reset_pulse, USE_INTERNAL_PULLUPS.
  cbv beta iota. takes_fw.
Qed.

(** X11: the cycles [main] spends in [__delay_cycles] before its final loop
    are 42,250,100 plus those of its two transfers, each 3300, 6000 or 8700
    according to where the slave first fails to acknowledge; the final loop
    adds none. *)
Theorem main_wait_budget H k m :
  let j := bytes_sent (ack_at m 0) (ack_at m 1) in
  cycles (trace (main H k m)) =
    bringup_wait +
    transfer_cycles (ack_at m 0) (ack_at m 1) +
    transfer_cycles (ack_at m j) (ack_at m (j + 1)) /\
  bringup_wait = 42250100 /\
  cycles (trace (main H k m)) = cycles (trace (main H 0 m)).
Proof.
  intros j.
  assert (forall k', cycles (trace (main H k' m)) =
    bringup_wait + transfer_cycles (ack_at m 0) (ack_at m 1) +
    transfer_cycles (ack_at m j) (ack_at m (j + 1))) as Hall.
  { intros k'. rewrite main_split, trace_bind, cycles_app.
    rewrite (takes_main_to_reset H m), main_after_reset_trace.
    rewrite !cycles_app, !cycles_repeat. unfold oled_cmd.
    rewrite !takes_oled_write, !ack_at_oled_write.
    rewrite !(ack_at_silent (main_to_reset H)) by apply silent_main_to_reset.
    rewrite Nat.add_0_r. fold j.
    change bringup_wait with 42250100.
    change (Z.of_nat (8 * 5000) * 1000) with 40000000.
    change (Z.of_nat (150 * 5) * 1000) with 750000. lia. }
  refine (conj (Hall k) (conj _ _)).
  - reflexivity.
  - rewrite (Hall k), (Hall 0%nat). reflexivity.
Qed.

(** ** The watchdog and the clock system *)

Lemma stores_within_app S t1 t2 :
  stores_within S (t1 ++ t2) = stores_within S t1 ++ stores_within S t2.
Proof. apply filter_app. Qed.

Lemma emits_bind S l1 l2 l {A B} (c : M A) (f : A -> M B) :
  emits S l1 c -> (forall a, emits S l2 (f a)) -> l = l1 ++ l2 ->
  emits S l (bind c f).
Proof.
  intros Hc Hf -> m. rewrite trace_bind, stores_within_app, Hc, Hf.
  reflexivity.
Qed.

Lemma emits_store S r v :
  S r = true -> emits S [EvWrite r (v mod 2 ^ width r)] (store r v).
Proof. intros Hr m. cbn. rewrite Hr. reflexivity. Qed.

Lemma emits_none S {A} (c : M A) :
  only (writes_within (fun x => negb (S x))) c -> emits S [] c.
Proof.
  intros Hc m. specialize (Hc m).
  induction Hc as [|e t He Ht IH]; [reflexivity|].
  unfold stores_within in *. cbn [filter].
  destruct e as [y v| |]; try exact IH.
  cbn in He. destruct (S y); [discriminate|exact IH].
Qed.

Lemma replay_stores_within S x r t :
  S x = true -> replay r t x = replay r (stores_within S t) x.
Proof.
  intros Hx. revert r.
  assert (forall r r' : regfile, r x = r' x ->
            replay r t x = replay r' (stores_within S t) x) as Hgen.
  { induction t as [|e t IH]; intros r r' Hr; [exact Hr|].
    unfold stores_within in *. cbn [filter replay fold_left].
    destruct e as [y v| |]; cbn [apply_event]; try (apply IH; exact Hr).
    destruct (S y) eqn:Hy.
    - cbn [fold_left apply_event]. apply IH. unfold upd.
      destruct (reg_eqb y x); [reflexivity|exact Hr].
    - apply IH. unfold upd.
      destruct (reg_eqb y x) eqn:E; [|exact Hr].
      destruct x, y; try discriminate E; congruence. }
  intros r. apply Hgen. reflexivity.
Qed.

Ltac emits_fw :=
  repeat lazymatch goal with
  | |- emits _ _ (bind _ _) => eapply emits_bind; [| intros ? |]
  | |- emits _ _ (store _ _) =>
      first [apply emits_store; reflexivity | apply emits_none; ev]
  | |- emits _ _ _ => apply emits_none; ev
  | |- _ = _ => reflexivity
  end.

Lemma emits_main H k :
  emits system_regs
    [EvWrite WDTCTL (Z.lor (WDTPW H) (WDTHOLD H) mod 2 ^ 16);
     EvWrite CSCTL0_H (CSKEY_H H mod 2 ^ 8);
     EvWrite CSCTL1 (DCOFSEL_0 H mod 2 ^ 16);
     EvWrite CSCTL2
       (Z.lor (Z.lor (SELA__VLOCLK H) (SELS__DCOCLK H)) (SELM__DCOCLK H)
        mod 2 ^ 16);
     EvWrite CSCTL3
       (Z.lor (Z.lor (DIVA__1 H) (DIVS__1 H)) (DIVM__1 H) mod 2 ^ 16);
     EvWrite CSCTL0_H 0]
    (main H k).
Proof.
  unfold main, main_bringup, clock_init_dco_default. emits_fw.
Qed.

(** X12: the first thing [main] does is the store that stops the watchdog,
    and WDTCTL is never stored to again; the clock system is unlocked,
    DCO, source and divider registers are stored to once each, and it is
    locked again, in this order and nowhere else in [main]; so when [main]
    reaches its final loop these registers hold the values stored, and the
    key byte CSCTL0_H holds 0. *)
Theorem main_system_setup H k m :
  let wdt := Z.lor (WDTPW H) (WDTHOLD H) mod 2 ^ 16 in
  let sel := Z.lor (Z.lor (SELA__VLOCLK H) (SELS__DCOCLK H)) (SELM__DCOCLK H)
             mod 2 ^ 16 in
  let div := Z.lor (Z.lor (DIVA__1 H) (DIVS__1 H)) (DIVM__1 H) mod 2 ^ 16 in
  (exists t, trace (main H k m) = EvWrite WDTCTL wdt :: t) /\
  stores_within system_regs (trace (main H k m)) =
    [EvWrite WDTCTL wdt; EvWrite CSCTL0_H (CSKEY_H H mod 2 ^ 8);
     EvWrite CSCTL1 (DCOFSEL_0 H mod 2 ^ 16); EvWrite CSCTL2 sel;
     EvWrite CSCTL3 div; EvWrite CSCTL0_H 0] /\
  (regs (final (main H k m)) WDTCTL = wdt /\
   regs (final (main H k m)) CSCTL0_H = 0 /\
   regs (final (main H k m)) CSCTL1 = DCOFSEL_0 H mod 2 ^ 16 /\
   regs (final (main H k m)) CSCTL2 = sel /\
   regs (final (main H k m)) CSCTL3 = div).
Proof.
  intros wdt sel div.
  pose proof (emits_main H k m) as Hst. fold wdt sel div in Hst.
  assert (forall x, system_regs x = true ->
            regs (final (main H k m)) x =
            replay (regs m)
              [EvWrite WDTCTL wdt; EvWrite CSCTL0_H (CSKEY_H H mod 2 ^ 8);
               EvWrite CSCTL1 (DCOFSEL_0 H mod 2 ^ 16); EvWrite CSCTL2 sel;
               EvWrite CSCTL3 div; EvWrite CSCTL0_H 0] x) as Hfin.
  { intros x Hx. rewrite faithful_main.
    rewrite (replay_stores_within system_regs) by exact Hx.
    rewrite Hst. reflexivity. }
  refine (conj _ (conj Hst (conj _ (conj _ (conj _ (conj _ _)))))).
  - unfold main, main_bringup. rewrite 2 trace_bind.
    eexists. reflexivity.
  - rewrite Hfin by reflexivity. reflexivity.
  - rewrite Hfin by reflexivity. reflexivity.
  - rewrite Hfin by reflexivity. reflexivity.
  - rewrite Hfin by reflexivity. reflexivity.
  - rewrite Hfin by reflexivity. reflexivity.
Qed.

(** ** The pins of port 2 the firmware does not use *)

Section UnusedPins.

Variables (n : Z) (o d : bool).
Hypothesis Hn : 3 <= n < 8.

Lemma unused_not_scl : n <> SCL.
Proof. pin_index. Qed.
Lemma unused_not_sda : n <> SDA.
Proof. pin_index. Qed.
Lemma unused_range : 0 <= n < 8.
Proof. lia. Qed.

Lemma unused_SCL_release : keeps (port_bits n o d) SCL_release.
Proof.
  exact (port_SCL_release n o d unused_range unused_not_scl unused_not_sda).
Qed.
Lemma unused_SDA_release : keeps (port_bits n o d) SDA_release.
Proof.
  exact (port_SDA_release n o d unused_range unused_not_scl unused_not_sda).
Qed.
Lemma unused_oled_write control data :
  keeps (port_bits n o d) (oled_write control data).
Proof.
  exact (port_oled_write n o d unused_range unused_not_scl unused_not_sda
           control data).
Qed.

Ltac keeps_unused X_run :=
  let m := fresh "m" in let Ho := fresh "Ho" in let Hd := fresh "Hd" in
  intros m [Ho Hd]; rewrite X_run; cbn [trace throughout apply_event];
  unfold port_bits, upd; cbn [reg_eqb];
  rewrite ?testbit_bclr, ?testbit_bset by pin_index;
  rewrite ?Ho, ?Hd;
  replace (n =? RES) with false by (symmetry; apply Z.eqb_neq; pin_index);
  cbn [negb];
  rewrite ?Bool.andb_true_r, ?Bool.orb_false_r; repeat split; reflexivity.

Lemma unused_res_dir :
  keeps (port_bits n o d) (or_assign OLED_PORT_DIR OLED_RES_BIT).
Proof. keeps_unused res_dir_run. Qed.
Lemma unused_res_set :
  keeps (port_bits n o d) (or_assign OLED_PORT_OUT OLED_RES_BIT).
Proof. keeps_unused res_set_run. Qed.
Lemma unused_res_clear :
  keeps (port_bits n o d) (and_assign OLED_PORT_OUT (Z.lnot OLED_RES_BIT)).
Proof. keeps_unused res_clear_run. Qed.

Lemma unused_out_clear_all :
  keeps (port_bits n o d) (and_assign OLED_PORT_OUT
    (Z.lnot (Z.lor (Z.lor OLED_SCL_BIT OLED_SDA_BIT) OLED_RES_BIT))).
Proof.
  intros m [Ho Hd]. rewrite out_clear_all_run.
  cbn [trace throughout apply_event]. unfold port_bits, upd. cbn [reg_eqb].
  rewrite Z.mod_pow2_bits_low, Z.land_spec, Z.lnot_spec by lia.
  rewrite testbit_7_high by lia. cbn [negb].
  rewrite Bool.andb_true_r, Ho, Hd. repeat split; reflexivity.
Qed.

#[local] Hint Resolve unused_SCL_release unused_SDA_release unused_oled_write
  unused_res_dir unused_res_set unused_res_clear unused_out_clear_all
  port2_only_port_bits : fw.

Lemma unused_i2c_idle : keeps (port_bits n o d) i2c_idle.
Proof. unfold i2c_idle. fw. Qed.

Lemma unused_clock_init H : keeps (port_bits n o d) (clock_init_dco_default H).
Proof. unfold clock_init_dco_default. fw. Qed.

#[local] Hint Resolve unused_i2c_idle unused_clock_init : fw.

Lemma unused_oled_gpio_init H : keeps (port_bits n o d) (oled_gpio_init H).
Proof.
  unfold oled_gpio_init, USE_INTERNAL_PULLUPS. cbv beta iota. fw.
Qed.

Lemma unused_oled_reset_pulse : keeps (port_bits n o d) oled_reset_pulse.
Proof. unfold oled_reset_pulse. fw. Qed.

Lemma unused_oled_init_minimal : keeps (port_bits n o d) oled_init_minimal.
Proof.
  unfold oled_init_minimal, oled_cmd, USE_CHARGE_PUMP. cbv beta iota. fw.
Qed.

#[local] Hint Resolve unused_oled_gpio_init unused_oled_reset_pulse
  unused_oled_init_minimal : fw.

Lemma unused_main_bringup H : keeps (port_bits n o d) (main_bringup H).
Proof. unfold main_bringup, oled_cmd. fw. Qed.

Lemma unused_main H k : keeps (port_bits n o d) (main H k).
Proof.
  unfold main. apply keeps_bind;
    [unfold main_bringup, oled_cmd; fw | apply unused_main_bringup | fw].
Qed.

End UnusedPins.

(** X13: the firmware leaves pins 3 to 7 of port 2 alone: at every point of
    the GPIO initialisation, of the reset pulse and of the whole of [main],
    the output bit and the direction bit of each of these pins are what
    they were at the start. *)
Theorem unused_pins_untouched H k n m :
  3 <= n < 8 ->
  let o := Z.testbit (regs m P2OUT) n in
  let d := Z.testbit (regs m P2DIR) n in
  throughout (port_bits n o d) (regs m) (trace (oled_gpio_init H m)) /\
  throughout (port_bits n o d) (regs m) (trace (oled_reset_pulse m)) /\
  throughout (port_bits n o d) (regs m) (trace (main H k m)) /\
  port_bits n o d (regs (final (main H k m))).
Proof.
  intros Hn o d.
  assert (port_bits n o d (regs m)) as Hm by (split; reflexivity).
  refine (conj _ (conj _ (conj _ _))).
  - apply unused_oled_gpio_init; assumption.
  - apply unused_oled_reset_pulse; assumption.
  - apply unused_main; assumption.
  - rewrite faithful_main. apply throughout_end, unused_main; assumption.
Qed.

Lemma unused_pins_untouched_witness :
  port_bits 5 true true
    (regs (final (main example_header 1 machine_port2_high))).
Proof.
  pose proof (unused_pins_untouched example_header 1 5 machine_port2_high
                ltac:(lia)) as (_ & _ & _ & Hend).
  exact Hend.
Defined.
